(** * WhatsApp account validator: a shallow embedding of [src/index.js]

    The development follows the layout of the source file: string helpers,
    the pattern table and the [MLPatternDetector] class, [ValidationCache],
    [RateLimiter], and the [WhatsAppValidator] pipeline.  Definitions come
    first; the lemmas and the theorems about them follow in the second half.

    Conventions of the embedding.
    - JavaScript numbers that carry scores, weights and confidences are
      exact rationals ([Q]); counters are [nat]; clock readings are [Z]
      (milliseconds).  The concrete inputs used below only involve sums that
      binary64 arithmetic performs exactly or that stay well away from the
      0.3 threshold.
    - Strings are [string]; [toLowerCase] maps the ASCII letters.
    - Objects are records; an object used as a table ([ERROR_PATTERNS],
      [scores]) or a [Map] is an association list in insertion order.
    - Wall-clock derived fields that no decision reads ([timestamp],
      [responseTime], probe [duration], [account.age], the [timing]
      feature) are left out of the records. *)

From Stdlib Require Import ZArith QArith Qminmax List String Ascii Bool Arith Lia Lqa.
From Stdlib Require Import DecimalString.
Import ListNotations.

Set Implicit Arguments.

(* ====================================================================== *)
(** * Part I: the model                                                     *)
(* ====================================================================== *)

(** ** String primitives used by the source *)

Module JS.

Open Scope string_scope.

(** [c.toLowerCase()] on one ASCII character. *)
Definition lower_ascii (c : ascii) : ascii :=
  let n := nat_of_ascii c in
  if (65 <=? n)%nat && (n <=? 90)%nat then ascii_of_nat (n + 32) else c.

(** [s.toLowerCase()]. *)
Fixpoint toLowerCase (s : string) : string :=
  match s with
  | EmptyString => EmptyString
  | String c s' => String (lower_ascii c) (toLowerCase s')
  end.

(** [s.includes(k)]: [k] occurs in [s] as a contiguous substring. *)
Fixpoint includes (s k : string) : bool :=
  match s with
  | EmptyString => String.prefix k EmptyString
  | String _ s' => String.prefix k s || includes s' k
  end.

(** [arr.join(sep)]. *)
Definition join (sep : string) (arr : list string) : string :=
  String.concat sep arr.

(** [arr.includes(x)] on an array of strings. *)
Definition arr_includes (arr : list string) (x : string) : bool :=
  existsb (String.eqb x) arr.

(** Truthiness of a string value: only the empty string is falsy. *)
Definition truthy (s : string) : bool :=
  match s with EmptyString => false | _ => true end.

(** [c] is one of the characters ['0'..'9']. *)
Definition is_digit (c : ascii) : bool :=
  let n := nat_of_ascii c in (48 <=? n)%nat && (n <=? 57)%nat.

(** [s.replace(/[^0-9]/g, '')]. *)
Fixpoint strip_non_digits (s : string) : string :=
  match s with
  | EmptyString => EmptyString
  | String c s' =>
      if is_digit c then String c (strip_non_digits s') else strip_non_digits s'
  end.

(** Comparisons on numbers. *)
Definition Qltb (x y : Q) : bool := negb (Qle_bool y x).

End JS.

(** ** Constants and enums *)

Inductive BanType := NONE | SPAM | VIOLATION | PERMANENT.

Inductive ReviewType := REVIEW_NONE | SELF_APPEAL | SUPPORT_REQUIRED.

Inductive ProbeStatus := PENDING | SUCCESS | FAILED | TIMEOUT | SKIPPED.

Definition BanType_eqb (a b : BanType) : bool :=
  match a, b with
  | NONE, NONE | SPAM, SPAM | VIOLATION, VIOLATION | PERMANENT, PERMANENT => true
  | _, _ => false
  end.

(** The string value of each enum member, as used in template literals. *)
Definition BanType_str (b : BanType) : string :=
  match b with
  | NONE => "none" | SPAM => "spam"
  | VIOLATION => "violation" | PERMANENT => "permanent"
  end.

(** One entry of [result.diagnostics.errorDetails].  Every writer of the
    list ([_recordError], the handler of [validate]) stores a string
    [code]; the empty string stands for a falsy code. *)
Record ErrorDetail := mkErrorDetail {
  stage : string;
  error : string;
  code : string
}.

(** ** Error patterns database *)

Record Pattern := mkPattern {
  keywords : list string;
  weight : Q;
  confidence : Q
}.

Definition ERROR_PATTERNS : list (BanType * Pattern) :=
  [ (SPAM,
     mkPattern ["spam"; "rate limit"; "too many"; "blocked temporarily";
                "429"; "rate_limit"]%string 1.0 0.85);
    (VIOLATION,
     mkPattern ["violation"; "terms"; "policy"; "forbidden"; "403"; "401";
                "unauthorized"]%string 1.2 0.90);
    (PERMANENT,
     mkPattern ["permanently"; "terminated"; "deleted"; "404";
                "banned from using"; "account_deleted"]%string 1.5 0.95) ].

(** ** Machine learning pattern detector *)

Module MLPatternDetector.

Import JS.

(** The second argument of [analyze]: an object whose [successRate] may be
    absent (or NaN), which [|| 0] turns into 0. *)
Record ProbeSummary := mkProbeSummary { successRate : option Q }.

Record Features := mkFeatures {
  errorText : string;
  errorCodes : list string;
  errorCount : nat;
  f_successRate : Q;
  failurePatterns : list string
}.

Record ScoreData := mkScoreData {
  raw : Q;
  normalized : Q;
  s_confidence : Q;
  s_matchCount : nat
}.

(** The object [analyze] returns.  The "no signal" answer carries neither
    [score] nor [matchCount]. *)
Record Prediction := mkPrediction {
  p_type : BanType;
  p_score : option Q;
  p_confidence : Q;
  p_matchCount : option nat
}.

Record t := mkDetector {
  patterns : list (BanType * Pattern);
  history : list (Features * Prediction);
  maxHistory : nat
}.

Definition new : t := mkDetector ERROR_PATTERNS [] 1000.

(** [codeCounts[code] = (codeCounts[code] || 0) + 1] on an object kept as
    an association list. *)
Fixpoint bump_count (c : string) (counts : list (string * nat))
  : list (string * nat) :=
  match counts with
  | [] => [(c, 1%nat)]
  | (k, n) :: rest =>
      if String.eqb k c then (k, S n) :: rest else (k, n) :: bump_count c rest
  end.

(** Only the length of the returned list is read by the scoring; the tags
    are listed in first-occurrence order of their code. *)
Definition _identifyFailurePatterns (errorDetails : list ErrorDetail)
  : list string :=
  let errorCodes := map code errorDetails in
  let patterns0 :=
    if (3 <=? List.length errorDetails)%nat then ["sequential_failures"%string]
    else [] in
  let codeCounts := fold_left (fun acc c => bump_count c acc) errorCodes [] in
  fold_left
    (fun pats '(c, count) =>
       if (2 <=? count)%nat then (pats ++ [("repeated_" ++ c)%string])%list
       else pats)
    codeCounts patterns0.

Definition _extractFeatures (errorDetails : list ErrorDetail)
           (probeResults : ProbeSummary) : Features :=
  let errorText := join " " (map (fun e => toLowerCase (error e)) errorDetails) in
  let errorCodes := filter truthy (map code errorDetails) in
  mkFeatures errorText errorCodes (List.length errorDetails)
    (match successRate probeResults with Some r => r | None => 0 end)
    (_identifyFailurePatterns errorDetails).

(** The body of the loop of [_calculateScores] for one table entry. *)
Definition score_pattern (features : Features) (pattern : Pattern) : ScoreData :=
  let '(score, matchCount) := (0, 0%nat) in
  (* Keyword matching with weights *)
  let '(score, matchCount) :=
    fold_left
      (fun '(score, matchCount) keyword =>
         if includes (errorText features) keyword
         then (score + weight pattern, S matchCount)
         else (score, matchCount))
      (keywords pattern) (score, matchCount) in
  (* Code matching *)
  let '(score, matchCount) :=
    fold_left
      (fun '(score, matchCount) c =>
         if arr_includes (keywords pattern) (toLowerCase c)
         then (score + weight pattern * 1.5, S matchCount)
         else (score, matchCount))
      (errorCodes features) (score, matchCount) in
  (* Success rate penalty *)
  let score := if Qltb (f_successRate features) 0.3 then score + 0.5 else score in
  (* Failure pattern bonus *)
  let score :=
    if (2 <? List.length (failurePatterns features))%nat
    then score + 0.3 * inject_Z (Z.of_nat (List.length (failurePatterns features)))
    else score in
  (* Normalize score *)
  mkScoreData score (Qmin (score / 5) 1.0)
    (if (0 <? matchCount)%nat then confidence pattern else 0)
    matchCount.

Definition _calculateScores (d : t) (features : Features)
  : list (BanType * ScoreData) :=
  map (fun '(banType, pattern) => (banType, score_pattern features pattern))
      (patterns d).

(** The running [bestMatch] object of [_makePrediction]. *)
Definition bestMatch0 : Prediction := mkPrediction NONE (Some 0) 0 None.

Definition best_score (b : Prediction) : Q :=
  match p_score b with Some s => s | None => 0 end.

Definition pick_best (scores : list (BanType * ScoreData)) : Prediction :=
  fold_left
    (fun bestMatch '(banType, scoreData) =>
       if Qltb (best_score bestMatch) (normalized scoreData)
       then mkPrediction banType (Some (normalized scoreData))
              (s_confidence scoreData) (Some (s_matchCount scoreData))
       else bestMatch)
    scores bestMatch0.

Definition _makePrediction (scores : list (BanType * ScoreData)) : Prediction :=
  let bestMatch := pick_best scores in
  (* Threshold: require minimum confidence *)
  if Qltb (best_score bestMatch) 0.3
  then mkPrediction NONE None 0.5 None
  else bestMatch.

Definition _updateHistory (d : t) (entry : Features * Prediction) : t :=
  let h := (history d ++ [entry])%list in
  mkDetector (patterns d)
    (if (maxHistory d <? List.length h)%nat then tl h else h)
    (maxHistory d).

(** [analyze] returns the prediction and leaves the detector with one more
    history entry. *)
Definition analyze (d : t) (errorDetails : list ErrorDetail)
           (probeResults : ProbeSummary) : t * Prediction :=
  let features := _extractFeatures errorDetails probeResults in
  let scores := _calculateScores d features in
  let prediction := _makePrediction scores in
  (_updateHistory d (features, prediction), prediction).

End MLPatternDetector.

(** ** Intelligent cache system *)

(** The operations of a JavaScript [Map] with string keys, kept as an
    association list in insertion order: [set] on a present key updates the
    value in place, [set] on an absent key appends, [delete] removes the
    binding, iteration follows the list. *)
Module JsMap.
Section Ops.
Variable V : Type.

Definition t := list (string * V).

Fixpoint get (m : t) (k : string) : option V :=
  match m with
  | [] => None
  | (k', v) :: rest => if String.eqb k' k then Some v else get rest k
  end.

Fixpoint set (m : t) (k : string) (v : V) : t :=
  match m with
  | [] => [(k, v)]
  | (k', v') :: rest =>
      if String.eqb k' k then (k', v) :: rest else (k', v') :: set rest k v
  end.

Fixpoint delete (m : t) (k : string) : t :=
  match m with
  | [] => []
  | (k', v') :: rest =>
      if String.eqb k' k then rest else (k', v') :: delete rest k
  end.

Definition size (m : t) : nat := List.length m.

Definition keys (m : t) : list string := map fst m.
End Ops.
End JsMap.

Module ValidationCache.
Section WithData.
(** The type of the cached [data]. *)
Variable V : Type.

Record Entry := mkEntry {
  data : V;
  timestamp : Z;
  lastAccess : Z;
  accessCount : nat
}.

Record t := mkCache {
  cache : JsMap.t Entry;
  ttl : Z;
  maxSize : Z;
  hits : nat;
  misses : nat
}.

(** The constructor's [options]: an absent field is [None]; [||] also
    replaces a given 0 by the default. *)
Record Options := mkOptions { o_ttl : option Z; o_maxSize : option Z }.

Definition or_default (o : option Z) (d : Z) : Z :=
  match o with
  | Some x => if (x =? 0)%Z then d else x
  | None => d
  end.

Definition new (options : Options) : t :=
  mkCache [] (or_default (o_ttl options) 3600000)
          (or_default (o_maxSize options) 1000) 0 0.

Definition with_cache (c : t) (m : JsMap.t Entry) : t :=
  mkCache m (ttl c) (maxSize c) (hits c) (misses c).

(** [get(key)] at clock reading [now]. *)
Definition get (c : t) (key : string) (now : Z) : t * option V :=
  match JsMap.get (cache c) key with
  | None =>
      (mkCache (cache c) (ttl c) (maxSize c) (hits c) (S (misses c)), None)
  | Some entry =>
      (* Check expiration *)
      if (ttl c <? now - timestamp entry)%Z
      then (mkCache (JsMap.delete (cache c) key) (ttl c) (maxSize c)
                    (hits c) (S (misses c)), None)
      else
        let entry' := mkEntry (data entry) (timestamp entry) now
                              (S (accessCount entry)) in
        (mkCache (JsMap.set (cache c) key entry') (ttl c) (maxSize c)
                 (S (hits c)) (misses c),
         Some (data entry))
  end.

(** The scan of [_evictLRU]: [oldest] starts as [null] and [oldestTime]
    as [Infinity] (here [None]). *)
Definition lru_scan (m : JsMap.t Entry) : option string * option Z :=
  fold_left
    (fun '(oldest, oldestTime) '(key, entry) =>
       let older :=
         match oldestTime with
         | None => true
         | Some t0 => (lastAccess entry <? t0)%Z
         end in
       if older then (Some key, Some (lastAccess entry))
       else (oldest, oldestTime))
    m (None, None).

Definition _evictLRU (c : t) : t :=
  match fst (lru_scan (cache c)) with
  | Some oldest =>
      (* [if (oldest)]: a falsy key is not deleted *)
      if JS.truthy oldest then with_cache c (JsMap.delete (cache c) oldest)
      else c
  | None => c
  end.

(** [set(key, data)] at clock reading [now]. *)
Definition set (c : t) (key : string) (d : V) (now : Z) : t :=
  (* Evict if at capacity *)
  let c := if (maxSize c <=? Z.of_nat (JsMap.size (cache c)))%Z
           then _evictLRU c else c in
  with_cache c (JsMap.set (cache c) key (mkEntry d now now 1)).

Definition clear (c : t) : t := mkCache [] (ttl c) (maxSize c) 0 0.

Definition size (c : t) : nat := JsMap.size (cache c).

(** A run of [set] calls, each with its clock reading. *)
Definition set_all (c : t) (calls : list (string * V * Z)) : t :=
  fold_left (fun c '(key, d, now) => set c key d now) calls c.
End WithData.
End ValidationCache.

(** ** Rate limiter *)

Module RateLimiter.

Record t := mkLimiter {
  maxRequests : Z;
  windowMs : Z;
  requests : list Z
}.

Record Options := mkOptions {
  o_maxRequests : option Z;
  o_windowMs : option Z
}.

Definition or_default (o : option Z) (d : Z) : Z :=
  match o with
  | Some x => if (x =? 0)%Z then d else x
  | None => d
  end.

Definition new (options : Options) : t :=
  mkLimiter (or_default (o_maxRequests options) 10)
            (or_default (o_windowMs options) 60000) [].

(** What one synchronous run of the body of [acquire] ends with: the
    timestamp was pushed, or the caller sleeps for [waitTime] and then
    calls [acquire] again. *)
Inductive Outcome :=
| Acquired
| Suspend (waitTime : Z).

(** [requests.filter(time => now - time < windowMs)]. *)
Definition prune (rl : t) (now : Z) : list Z :=
  filter (fun time => (now - time <? windowMs rl)%Z) (requests rl).

Definition push (rl : t) (reqs : list Z) (now : Z) : t :=
  mkLimiter (maxRequests rl) (windowMs rl) (reqs ++ [now]).

(** The body of [acquire] up to its first suspension point, run at clock
    reading [now].  With an empty list [requests[0]] is undefined, the
    wait is NaN and [NaN > 0] is false. *)
Definition attempt (rl : t) (now : Z) : t * Outcome :=
  (* Remove old requests *)
  let reqs := prune rl now in
  if (maxRequests rl <=? Z.of_nat (List.length reqs))%Z then
    match reqs with
    | oldestRequest :: _ =>
        let waitTime := (windowMs rl - (now - oldestRequest))%Z in
        if (0 <? waitTime)%Z
        then (mkLimiter (maxRequests rl) (windowMs rl) reqs, Suspend waitTime)
        else (push rl reqs now, Acquired)
    | [] => (push rl reqs now, Acquired)
    end
  else (push rl reqs now, Acquired).

(** [acquire] for a caller that is not overtaken by others: after a
    suspension of [waitTime] the timer fires [lag >= 0] late and the body
    runs again.  [lags] lists the lateness of the successive timers; the
    result is the limiter and the clock reading that was committed. *)
Fixpoint acquire (fuel : nat) (lags : list Z) (rl : t) (now : Z)
  : option (t * Z) :=
  match fuel with
  | O => None
  | S fuel' =>
      match attempt rl now with
      | (rl', Acquired) => Some (rl', now)
      | (rl', Suspend waitTime) =>
          let lag := Z.max 0 (hd 0%Z lags) in
          acquire fuel' (tl lags) rl' (now + waitTime + lag)
      end
  end.

(** Any interleaving of callers is a sequence of runs of the body at
    non-decreasing clock readings (a retry is one more run).  [run]
    returns the limiter and the log of the committed readings. *)
Fixpoint run (rl : t) (log : list Z) (times : list Z) : t * list Z :=
  match times with
  | [] => (rl, log)
  | now :: rest =>
      match attempt rl now with
      | (rl', Acquired) => run rl' (log ++ [now]) rest
      | (rl', Suspend _) => run rl' log rest
      end
  end.

(** Readings of [log] that fall in the window [[a, a + windowMs)]. *)
Definition in_window (w a : Z) (log : list Z) : list Z :=
  filter (fun time => (a <=? time)%Z && (time <? a + w)%Z) log.

Fixpoint nondecreasing (times : list Z) : Prop :=
  match times with
  | [] => True
  | t0 :: rest => Forall (fun t1 => (t0 <= t1)%Z) rest /\ nondecreasing rest
  end.

Local Open Scope Z_scope.

(** The invariant of the limiter along a run: [log] holds every committed
    reading and [last] is the reading of the latest run of the body. *)
Definition Inv (rl : t) (log : list Z) (last : Z) : Prop :=
  (forall now, last <= now ->
     prune rl now = filter (fun time => now - time <? windowMs rl) log)
  /\ Z.of_nat (List.length (requests rl)) <= maxRequests rl
  /\ forall a, Z.of_nat (List.length (in_window (windowMs rl) a log)) <= maxRequests rl.

End RateLimiter.

(** ** Main validator class *)

Module WhatsAppValidator.

Import JS.
Open Scope string_scope.

(** *** Values crossing the connection boundary *)

(** A value a call can throw or reject with.  [ErrValue message text] is
    any non-nullish value: [message] is its [message] property (the empty
    string when the property is absent or falsy) and [text] the result of
    [toString()]. *)
Inductive JsError :=
| ErrNullish
| ErrValue (message : string) (text : string).

(** [new Error(msg)] and the engine's [TypeError]. *)
Definition Error (msg : string) : JsError := ErrValue msg ("Error: " ++ msg).
Definition TypeError (msg : string) : JsError :=
  ErrValue msg ("TypeError: " ++ msg).

(** The message of the [TypeError] raised by reading [.message] of a
    nullish value. *)
Definition nullish_message : string :=
  "Cannot read properties of undefined (reading 'message')".

(** How a remote operation of the connection behaves when called. *)
Inductive CallOutcome (A : Type) :=
| Returns (a : A)
| Fails (e : JsError)
| Hangs.
Arguments Returns {A} a.
Arguments Fails {A} e.
Arguments Hangs {A}.

Inductive Settled (A : Type) :=
| Resolved (a : A)
| Rejected (e : JsError).
Arguments Resolved {A} a.
Arguments Rejected {A} e.

(** What a probe resolves with: a falsy value, or a truthy one whose
    [status] property is the given string (empty when absent). *)
Inductive Payload :=
| Falsy
| Truthy (status : string).

Inductive ProbeName := P_status | P_profile_picture | P_business_profile | P_presence.

Definition ProbeName_str (n : ProbeName) : string :=
  match n with
  | P_status => "status"
  | P_profile_picture => "profile_picture"
  | P_business_profile => "business_profile"
  | P_presence => "presence"
  end.

(** The connection as seen by one validation: the answer of [onWhatsApp]
    (the list of [exists] flags, [None] for a nullish answer) and the
    answer of the [k]-th call of each probe function. *)
Record Connection := mkConnection {
  onWhatsApp : CallOutcome (option (list bool));
  probeCall : ProbeName -> nat -> CallOutcome Payload
}.

(** The environment of one call of [validate]: the connection, the order
    in which concurrently pending probes settle, and the clock readings of
    the cache lookup and the cache store. *)
Record Env := mkEnv {
  conn : Connection;
  schedule : list nat;
  now_lookup : Z;
  now_store : Z
}.

(** *** Configuration *)

Record Config := mkConfig {
  timeout : Z;
  parallelProbes : bool;
  enablePresenceCheck : bool;
  retryOnFailure : bool;
  maxRetries : nat;
  enableCache : bool;
  cacheTTL : Z;
  enableMLDetection : bool
}.

Record ValidateOptions := mkValidateOptions { skipCache : bool }.

(** *** The result object *)

Record Ban := mkBan {
  isBanned : bool;
  b_type : BanType;
  detectionMethods : list string;
  mlConfidence : option Q
}.

Record Review := mkReview {
  available : bool;
  r_type : ReviewType;
  estimatedTime : option string
}.

Record Account := mkAccount {
  hasStatus : bool;
  statusText : option string;
  hasProfilePicture : bool;
  isBusinessAccount : bool;
  presenceAvailable : bool
}.

Record ProbeResult := mkProbeResult {
  pr_name : string;
  pr_status : ProbeStatus;
  pr_error : option string
}.

Record Diagnostics := mkDiagnostics {
  probsExecuted : nat;
  probsSuccessful : nat;
  errorDetails : list ErrorDetail;
  fallbacksUsed : list string;
  probeResults : list ProbeResult
}.

Record ValidationResult := mkResult {
  number : string;
  jid : string;
  isRegistered : bool;
  isActive : bool;
  ban : Ban;
  review : Review;
  account : Account;
  diagnostics : Diagnostics;
  recommendations : list string;
  summary : string
}.

Definition _createResultObject (phoneNumber jid : string) : ValidationResult :=
  mkResult phoneNumber jid false false
    (mkBan false NONE [] None)
    (mkReview false REVIEW_NONE None)
    (mkAccount false None false false false)
    (mkDiagnostics 0 0 [] [] [])
    [] "".

(** Field updates. *)
Definition upd_ban (f : Ban -> Ban) (r : ValidationResult) : ValidationResult :=
  mkResult (number r) (jid r) (isRegistered r) (isActive r) (f (ban r))
    (review r) (account r) (diagnostics r) (recommendations r) (summary r).
Definition upd_review (f : Review -> Review) (r : ValidationResult) :=
  mkResult (number r) (jid r) (isRegistered r) (isActive r) (ban r)
    (f (review r)) (account r) (diagnostics r) (recommendations r) (summary r).
Definition upd_account (f : Account -> Account) (r : ValidationResult) :=
  mkResult (number r) (jid r) (isRegistered r) (isActive r) (ban r)
    (review r) (f (account r)) (diagnostics r) (recommendations r) (summary r).
Definition upd_diag (f : Diagnostics -> Diagnostics) (r : ValidationResult) :=
  mkResult (number r) (jid r) (isRegistered r) (isActive r) (ban r)
    (review r) (account r) (f (diagnostics r)) (recommendations r) (summary r).
Definition set_registered (b : bool) (r : ValidationResult) :=
  mkResult (number r) (jid r) b b (ban r)
    (review r) (account r) (diagnostics r) (recommendations r) (summary r).
Definition set_summary (s : string) (r : ValidationResult) :=
  mkResult (number r) (jid r) (isRegistered r) (isActive r) (ban r)
    (review r) (account r) (diagnostics r) (recommendations r) s.
Definition push_recommendations (l : list string) (r : ValidationResult) :=
  mkResult (number r) (jid r) (isRegistered r) (isActive r) (ban r)
    (review r) (account r) (diagnostics r) (recommendations r ++ l)%list
    (summary r).

Definition set_banned (b : Ban) : Ban :=
  mkBan true (b_type b) (detectionMethods b) (mlConfidence b).
Definition set_ban_type (t : BanType) (b : Ban) : Ban :=
  mkBan (isBanned b) t (detectionMethods b) (mlConfidence b).
Definition set_mlConfidence (c : Q) (b : Ban) : Ban :=
  mkBan (isBanned b) (b_type b) (detectionMethods b) (Some c).
Definition push_method (m : string) (b : Ban) : Ban :=
  mkBan (isBanned b) (b_type b) (detectionMethods b ++ [m])%list (mlConfidence b).

Definition inc_executed (d : Diagnostics) : Diagnostics :=
  mkDiagnostics (S (probsExecuted d)) (probsSuccessful d) (errorDetails d)
    (fallbacksUsed d) (probeResults d).
Definition inc_successful (d : Diagnostics) : Diagnostics :=
  mkDiagnostics (probsExecuted d) (S (probsSuccessful d)) (errorDetails d)
    (fallbacksUsed d) (probeResults d).
Definition push_error (e : ErrorDetail) (d : Diagnostics) : Diagnostics :=
  mkDiagnostics (probsExecuted d) (probsSuccessful d) (errorDetails d ++ [e])%list
    (fallbacksUsed d) (probeResults d).
Definition push_fallback (s : string) (d : Diagnostics) : Diagnostics :=
  mkDiagnostics (probsExecuted d) (probsSuccessful d) (errorDetails d)
    (fallbacksUsed d ++ [s])%list (probeResults d).
Definition push_probeResult (p : ProbeResult) (d : Diagnostics) : Diagnostics :=
  mkDiagnostics (probsExecuted d) (probsSuccessful d) (errorDetails d)
    (fallbacksUsed d) (probeResults d ++ [p])%list.

(** *** Methods that mutate the result and may throw *)

(** How a statement sequence ends. *)
Inductive Completion (A : Type) :=
| Normal (a : A)
| Throw (e : JsError).
Arguments Normal {A} a.
Arguments Throw {A} e.

(** A method body working on the shared [result] object: the mutations made
    before a throw stay visible to the handler. *)
Definition M (A : Type) : Type :=
  ValidationResult -> ValidationResult * Completion A.

Definition ret {A} (a : A) : M A := fun r => (r, Normal a).
Definition throw {A} (e : JsError) : M A := fun r => (r, Throw e).
Definition bind {A B} (m : M A) (k : A -> M B) : M B :=
  fun r =>
    match m r with
    | (r', Normal a) => k a r'
    | (r', Throw e) => (r', Throw e)
    end.
Definition read : M ValidationResult := fun r => (r, Normal r).
Definition modify (f : ValidationResult -> ValidationResult) : M unit :=
  fun r => (f r, Normal tt).
Definition try_catch {A} (body : M A) (handler : JsError -> M A) : M A :=
  fun r =>
    match body r with
    | (r', Normal a) => (r', Normal a)
    | (r', Throw e) => handler e r'
    end.
(** [await p]: a rejection is thrown at the await. *)
Definition await {A} (p : Settled A) : M A :=
  match p with
  | Resolved a => ret a
  | Rejected e => throw e
  end.

Declare Scope js_scope.
Delimit Scope js_scope with js.
Notation "x <- c1 ;; c2" := (bind c1 (fun x => c2))
  (at level 61, c1 at next level, right associativity) : js_scope.
Notation "c1 ;; c2" := (bind c1 (fun _ => c2))
  (at level 61, right associativity) : js_scope.
Open Scope js_scope.

(** [Promise.race] of the call and the timer. *)
Definition _executeWithTimeout {A} (call : CallOutcome A) : Settled A :=
  match call with
  | Returns a => Resolved a
  | Fails e => Rejected e
  | Hangs => Rejected (Error "Operation timeout")
  end.

(** [_extractErrorCode] on the text [error.toString()]. *)
Definition _extractErrorCode (errorStr : string) : string :=
  let codes := ["403"; "401"; "404"; "429"; "500"] in
  match find (fun c => includes errorStr c) codes with
  | Some c => c
  | None =>
      if includes (toLowerCase errorStr) "timeout" then "TIMEOUT"
      else if includes (toLowerCase errorStr) "forbidden" then "403"
      else "UNKNOWN"
  end.

(** [_isFatalError] on the text [error.toString()]. *)
Definition _isFatalError (errorStr : string) : bool :=
  let fatalPatterns := ["404"; "permanently"; "deleted"; "terminated"] in
  existsb (fun p => includes (toLowerCase errorStr) p) fatalPatterns.

(** [_recordError]: reading [error.message] of a nullish [error] throws
    before anything is pushed. *)
Definition _recordError (stage : string) (error : JsError) : M unit :=
  match error with
  | ErrNullish => throw (TypeError nullish_message)
  | ErrValue message text =>
      modify (upd_diag (push_error
        (mkErrorDetail stage
           (if truthy message then message else text)
           (_extractErrorCode text))))
  end.

(** [check && check.length > 0 && check[0].exists]. *)
Definition exists_flag (check : option (list bool)) : bool :=
  match check with
  | Some (e :: _) => e
  | _ => false
  end.

Definition _checkRegistration (c : Connection) : M unit :=
  try_catch
    (check <- await (_executeWithTimeout (onWhatsApp c)) ;;
     modify (set_registered (exists_flag check)) ;;
     r <- read ;;
     if isRegistered r then
       modify (upd_ban (push_method "registration_verified")) ;;
       modify (upd_diag inc_executed) ;;
       modify (upd_diag inc_successful)
     else ret tt)
    (fun error => _recordError "registration" error).

Record Probe := mkProbe {
  name : ProbeName;
  priority : nat;
  p_timeout : Z
}.

(** [probes.sort((a, b) => a.priority - b.priority)], a stable sort. *)
Fixpoint insert_by_priority (p : Probe) (l : list Probe) : list Probe :=
  match l with
  | [] => [p]
  | q :: rest =>
      if (priority p <? priority q)%nat then p :: q :: rest
      else q :: insert_by_priority p rest
  end.
Definition sort_by_priority (l : list Probe) : list Probe :=
  fold_right insert_by_priority [] l.

Definition _buildProbeList (cfg : Config) : list Probe :=
  let probes :=
    [ mkProbe P_status 1 (timeout cfg);
      mkProbe P_profile_picture 2 (timeout cfg);
      mkProbe P_business_profile 3 (timeout cfg) ] in
  let probes :=
    if enablePresenceCheck cfg
    then (probes ++ [mkProbe P_presence 4 (timeout cfg + 3000)])%list
    else probes in
  sort_by_priority probes.

Definition _processProbeResult (probeName : ProbeName) (probeResult : Payload)
  : M unit :=
  match probeName, probeResult with
  | P_status, Truthy st =>
      if truthy st then
        modify (upd_account (fun a =>
          mkAccount true (Some st) (hasProfilePicture a) (isBusinessAccount a)
                    (presenceAvailable a))) ;;
        modify (upd_ban (push_method "status_accessible"))
      else ret tt
  | P_profile_picture, Truthy _ =>
      modify (upd_account (fun a =>
        mkAccount (hasStatus a) (statusText a) true (isBusinessAccount a)
                  (presenceAvailable a))) ;;
      modify (upd_ban (push_method "profile_picture_accessible"))
  | P_business_profile, Truthy _ =>
      modify (upd_account (fun a =>
        mkAccount (hasStatus a) (statusText a) (hasProfilePicture a) true
                  (presenceAvailable a))) ;;
      modify (upd_ban (push_method "business_account_verified"))
  | P_presence, Truthy _ =>
      modify (upd_account (fun a =>
        mkAccount (hasStatus a) (statusText a) (hasProfilePicture a)
                  (isBusinessAccount a) true)) ;;
      modify (upd_ban (push_method "presence_available"))
  | _, Falsy => ret tt
  end.

(** *** Probe execution *)

(** Decimal rendering of a counter in a template literal. *)
Definition nat_str (n : nat) : string := NilEmpty.string_of_uint (Nat.to_uint n).

(** Where an [_executeProbe] activation is suspended.  [AwaitFirst] is
    the await of the first attempt.  [AwaitRetry retry] covers iteration
    [retry] of the retry loop from its delay to the end of its attempt;
    the delay changes nothing in the result.  [Finished] is the returned
    activation. *)
Inductive Task :=
| AwaitFirst
| AwaitRetry (retry : nat)
| Finished.

Section Probing.
Variable cfg : Config.
Variable c : Connection.

(** The synchronous prefix of [_executeProbe], up to the first await. *)
Definition start (probe : Probe) : M Task :=
  modify (upd_diag inc_executed) ;;
  ret AwaitFirst.

(** The head of the retry loop: test the bound, log the fallback, sleep. *)
Definition loop_head (probe : Probe) (retry : nat) : M Task :=
  if (retry <? maxRetries cfg)%nat then
    modify (upd_diag (push_fallback
      (ProbeName_str (name probe) ++ "_retry_" ++ nat_str (retry + 1)))) ;;
    ret (AwaitRetry retry)
  else ret Finished.

(** One resumption of a suspended activation: it runs until the next
    suspension point, the return, or a throw.  In the retry loop
    [retry === maxRetries - 1] is written [S retry = maxRetries]; the
    loop guard makes [maxRetries] positive there. *)
Definition resume (probe : Probe) (task : Task) : M Task :=
  match task with
  | AwaitFirst =>
      try_catch
        (probeResult <- await (_executeWithTimeout (probeCall c (name probe) 0)) ;;
         _processProbeResult (name probe) probeResult ;;
         modify (upd_diag inc_successful) ;;
         modify (upd_diag (push_probeResult
           (mkProbeResult (ProbeName_str (name probe)) SUCCESS None))) ;;
         ret Finished)
        (fun error =>
           _recordError (ProbeName_str (name probe)) error ;;
           match error with
           | ErrNullish => throw (TypeError nullish_message)
           | ErrValue message text =>
               modify (upd_diag (push_probeResult
                 (mkProbeResult (ProbeName_str (name probe))
                    (if _isFatalError text then FAILED else TIMEOUT)
                    (if truthy message then Some message else None)))) ;;
               (* Retry logic *)
               if retryOnFailure cfg && negb (_isFatalError text)
               then loop_head probe 0
               else ret Finished
           end)
  | AwaitRetry retry =>
      try_catch
        (retryResult <-
           await (_executeWithTimeout (probeCall c (name probe) (S retry))) ;;
         _processProbeResult (name probe) retryResult ;;
         modify (upd_diag inc_successful) ;;
         ret Finished)
        (fun retryError =>
           (if (S retry =? maxRetries cfg)%nat
            then _recordError (ProbeName_str (name probe) ++ "_final_retry")
                              retryError
            else ret tt) ;;
           loop_head probe (S retry))
  | Finished => ret Finished
  end.

(** Resumptions an activation can still need. *)
Definition steps_left (task : Task) : nat :=
  match task with
  | AwaitFirst => S (S (maxRetries cfg))
  | AwaitRetry retry => S (maxRetries cfg - retry)
  | Finished => 0
  end.

(** Resume an activation until it returns or throws. *)
Fixpoint drive (fuel : nat) (probe : Probe) (task : Task) : M Task :=
  match fuel with
  | O => ret task
  | S fuel' =>
      match task with
      | Finished => ret Finished
      | _ => task' <- resume probe task ;; drive fuel' probe task'
      end
  end.

(** [await this._executeProbe(probe, result)] with nothing interleaved. *)
Definition _executeProbe (probe : Probe) : M Task :=
  task <- start probe ;;
  drive (steps_left task) probe task.

(** The sequential branch of [_executeProbes]: a throw of one probe
    leaves the loop. *)
Fixpoint for_each_probe (probes : list Probe) : M unit :=
  match probes with
  | [] => ret tt
  | probe :: rest => _executeProbe probe ;; for_each_probe rest
  end.

(** The parallel branch.  [probes.map] runs the synchronous prefix of
    every activation in list order; afterwards the pending activations
    are resumed one at a time in the order the environment settles
    their awaits.  [Promise.allSettled] absorbs a throw of an
    activation, which then counts as finished. *)
Definition Pool := list (Probe * Task).

Fixpoint start_all (probes : list Probe) (r : ValidationResult)
  : ValidationResult * Pool :=
  match probes with
  | [] => (r, [])
  | probe :: rest =>
      match start probe r with
      | (r', Normal task) =>
          let '(r'', pool) := start_all rest r' in (r'', (probe, task) :: pool)
      | (r', Throw _) =>
          let '(r'', pool) := start_all rest r' in
          (r'', (probe, Finished) :: pool)
      end
  end.

Definition settle (probe : Probe) (task : Task) (r : ValidationResult)
  : ValidationResult * Task :=
  match resume probe task r with
  | (r', Normal task') => (r', task')
  | (r', Throw _) => (r', Finished)
  end.

(** Resume the activation at position [i] of the pool once. *)
Fixpoint advance (i : nat) (pool : Pool) (r : ValidationResult)
  : ValidationResult * Pool :=
  match pool, i with
  | [], _ => (r, [])
  | (probe, task) :: rest, O =>
      let '(r', task') := settle probe task r in (r', (probe, task') :: rest)
  | pt :: rest, S i' =>
      let '(r', rest') := advance i' rest r in (r', pt :: rest')
  end.

Fixpoint run_schedule (sched : list nat) (pool : Pool) (r : ValidationResult)
  : ValidationResult * Pool :=
  match sched with
  | [] => (r, pool)
  | i :: rest => let '(r', pool') := advance i pool r in run_schedule rest pool' r'
  end.

(** Resume one activation until it is finished, absorbing a throw. *)
Fixpoint complete (fuel : nat) (probe : Probe) (task : Task)
         (r : ValidationResult) : ValidationResult * Task :=
  match fuel with
  | O => (r, task)
  | S fuel' =>
      match task with
      | Finished => (r, Finished)
      | _ => let '(r', task') := settle probe task r in
             complete fuel' probe task' r'
      end
  end.

(** When the schedule is used up, what is still pending completes in
    list order. *)
Fixpoint complete_all (pool : Pool) (r : ValidationResult)
  : ValidationResult * Pool :=
  match pool with
  | [] => (r, [])
  | (probe, task) :: rest =>
      let '(r', task') := complete (steps_left task) probe task r in
      let '(r'', rest') := complete_all rest r' in
      (r'', (probe, task') :: rest')
  end.

Definition all_settled (sched : list nat) (probes : list Probe)
           (r : ValidationResult) : ValidationResult * Pool :=
  let '(r1, pool1) := start_all probes r in
  let '(r2, pool2) := run_schedule sched pool1 r1 in
  complete_all pool2 r2.

Definition _executeProbes (sched : list nat) : M unit :=
  let probes := _buildProbeList cfg in
  if parallelProbes cfg
  then fun r => (fst (all_settled sched probes r), Normal tt)
  else for_each_probe probes.

End Probing.

(** *** Analysis stages *)

(** The fallback of stage 3 when the detector is disabled. *)
Definition _analyzePatterns : M unit :=
  r <- read ;;
  let errorText :=
    join " " (map (fun e => toLowerCase (error e)) (errorDetails (diagnostics r))) in
  (match
      find (fun '(banType, pattern) =>
              (0 <? List.length
                      (filter (fun kw => includes errorText (toLowerCase kw))
                              (keywords pattern)))%nat)
           ERROR_PATTERNS
    with
    | Some (banType, _) =>
        modify (upd_ban set_banned) ;;
        modify (upd_ban (set_ban_type banType)) ;;
        modify (upd_ban (push_method ("pattern_match_" ++ BanType_str banType)))
    | None => ret tt
    end) ;;
  r <- read ;;
  if (probsSuccessful (diagnostics r) =? 0)%nat && isRegistered r then
    modify (upd_ban set_banned) ;;
    r <- read ;;
    if BanType_eqb (b_type (ban r)) NONE then
      modify (upd_ban (set_ban_type VIOLATION)) ;;
      modify (upd_ban (push_method "zero_successful_probes"))
    else ret tt
  else ret tt.

Record ReviewConfig := mkReviewConfig {
  rc_available : bool;
  rc_type : ReviewType;
  rc_time : option string;
  rc_steps : list string
}.

Definition reviewConfig (t : BanType) : option ReviewConfig :=
  match t with
  | SPAM => Some (mkReviewConfig true SELF_APPEAL (Some "24-48 hours")
      [ "Submit self-appeal through WhatsApp app";
        "Avoid bulk messaging for one week";
        "Review WhatsApp business policies" ])
  | VIOLATION => Some (mkReviewConfig true SUPPORT_REQUIRED (Some "3-7 days")
      [ "Contact WhatsApp support directly";
        "Prepare identity verification";
        "Review terms of service violations" ])
  | PERMANENT => Some (mkReviewConfig false REVIEW_NONE None
      [ "Ban is permanent - Consider new number";
        "Ensure compliance before new account" ])
  | NONE => None
  end.

Definition _analyzeReviewOptions : M unit :=
  r <- read ;;
  if negb (isBanned (ban r)) then
    modify (push_recommendations ["Account is functioning normally"]) ;;
    modify (push_recommendations ["Maintain natural usage patterns"])
  else
    match reviewConfig (b_type (ban r)) with
    | Some config =>
        modify (upd_review (fun _ =>
          mkReview (rc_available config) (rc_type config) (rc_time config))) ;;
        modify (push_recommendations (rc_steps config))
    | None => ret tt
    end.

Definition summaries (t : BanType) : string :=
  match t with
  | NONE => "Active and verified"
  | SPAM => "Spam restrictions detected"
  | VIOLATION => "Policy violation detected"
  | PERMANENT => "Permanent ban confirmed"
  end.

Definition _finalizeResult : M unit :=
  modify (fun r =>
    set_summary (if isRegistered r then summaries (b_type (ban r))
                 else "Not registered or permanently banned") r).

(** *** The validator object *)

Inductive HealthStatus := healthy | degraded | unhealthy.

Record Health := mkHealth {
  h_status : HealthStatus;
  consecutiveFailures : nat;
  totalChecks : nat
}.

(** The fields of [this] that [validate] reads and writes.  The rate
    limiter only delays the call (it is modelled in [RateLimiter]); the
    analytics accumulator, the event listeners and the plugin hooks
    observe the result: they are taken not to throw and not to write the
    result object, and are left out. *)
Record Validator := mkValidator {
  config : Config;
  cache : option (ValidationCache.t ValidationResult);
  mlDetector : option MLPatternDetector.t;
  health : Health
}.

Definition new (cfg : Config) : Validator :=
  mkValidator cfg
    (if enableCache cfg
     then Some (ValidationCache.new ValidationResult
                  (ValidationCache.mkOptions (Some (cacheTTL cfg)) (Some 1000%Z)))
     else None)
    (if enableMLDetection cfg then Some MLPatternDetector.new else None)
    (mkHealth healthy 0 0).

Definition _updateHealth (success : bool) (h : Health) : Health :=
  if success then mkHealth healthy 0 (S (totalChecks h))
  else
    let n := S (consecutiveFailures h) in
    let st := if (5 <=? n)%nat then degraded else h_status h in
    let st := if (10 <=? n)%nat then unhealthy else st in
    mkHealth st n (S (totalChecks h)).

Definition _normalizeJID (phoneNumber : string) : string :=
  strip_non_digits phoneNumber ++ "@s.whatsapp.net".

(** The key under which [validate] looks up and stores a result. *)
Definition cacheKey (phoneNumber : string) : string :=
  "validate:" ++ phoneNumber.

(** [probsSuccessful / probsExecuted]; with a zero divisor the quotient is
    NaN, which the detector's [|| 0] reads as absent. *)
Definition successRate_of (r : ValidationResult) : option Q :=
  if (probsExecuted (diagnostics r) =? 0)%nat then None
  else Some (inject_Z (Z.of_nat (probsSuccessful (diagnostics r)))
             / inject_Z (Z.of_nat (probsExecuted (diagnostics r)))).

(** Stage 3 of [_executePipeline]: pattern analysis, ML-powered if enabled.
    The value returned is the detector as [analyze] left it. *)
Definition stage3 (v : Validator) : M (option MLPatternDetector.t) :=
  match mlDetector v with
  | Some d =>
      r <- read ;;
      let '(d', mlPrediction) :=
        MLPatternDetector.analyze d (errorDetails (diagnostics r))
          (MLPatternDetector.mkProbeSummary (successRate_of r)) in
      (if negb (BanType_eqb (MLPatternDetector.p_type mlPrediction) NONE)
       then
         modify (upd_ban set_banned) ;;
         modify (upd_ban (set_ban_type (MLPatternDetector.p_type mlPrediction))) ;;
         modify (upd_ban
           (set_mlConfidence (MLPatternDetector.p_confidence mlPrediction))) ;;
         modify (upd_ban (push_method "ml_pattern_detection"))
       else ret tt) ;;
      ret (Some d')
  | None => _analyzePatterns ;; ret None
  end.

(** [_executePipeline].  Stage 5 (the plugin hooks) is an observer and has
    no counterpart here. *)
Definition _executePipeline (v : Validator) (env : Env)
  : M (option MLPatternDetector.t) :=
  (* Stage 1: Registration *)
  _checkRegistration (conn env) ;;
  r <- read ;;
  if negb (isRegistered r) then
    modify (upd_ban set_banned) ;;
    modify (upd_ban (set_ban_type PERMANENT)) ;;
    modify (set_summary "Not registered or permanently banned") ;;
    _finalizeResult ;;
    ret (mlDetector v)
  else
    (* Stage 2: Advanced probes *)
    _executeProbes (config v) (conn env) (schedule env) ;;
    (* Stage 3: Pattern analysis (ML-powered if enabled) *)
    ml <- stage3 v ;;
    (* Stage 4: Review analysis *)
    _analyzeReviewOptions ;;
    (* Stage 6: Finalize *)
    _finalizeResult ;;
    ret ml.

Definition with_health (v : Validator) (h : Health) : Validator :=
  mkValidator (config v) (cache v) (mlDetector v) h.

(** The handler of [validate]: the summary is overwritten and one entry
    is pushed; reading [error.message] of a nullish [error] throws. *)
Definition critical (error : JsError) (result : ValidationResult)
  : Completion ValidationResult :=
  match error with
  | ErrNullish => Throw (TypeError nullish_message)
  | ErrValue message _ =>
      Normal (upd_diag (push_error (mkErrorDetail "critical" message "FATAL"))
                (set_summary "Critical validation error" result))
  end.

(** The part of [validate] after a cache miss. *)
Definition validate_fresh (v : Validator) (phoneNumber : string) (env : Env)
  : Validator * Completion ValidationResult :=
  let jid := _normalizeJID phoneNumber in
  let result := _createResultObject phoneNumber jid in
  match _executePipeline v env result with
  | (result, Normal ml) =>
      (* Store in cache *)
      let cache' :=
        match cache v with
        | Some c =>
            Some (ValidationCache.set c (cacheKey phoneNumber) result (now_store env))
        | None => None
        end in
      (mkValidator (config v) cache' ml (_updateHealth true (health v)),
       Normal result)
  | (result, Throw error) =>
      (with_health v (_updateHealth false (health v)), critical error result)
  end.

Definition validate (v : Validator) (phoneNumber : string)
           (options : ValidateOptions) (env : Env)
  : Validator * Completion ValidationResult :=
  (* Check cache *)
  match cache v with
  | Some c =>
      if negb (skipCache options) then
        match ValidationCache.get c (cacheKey phoneNumber) (now_lookup env) with
        | (c', Some cached) =>
            (mkValidator (config v) (Some c') (mlDetector v) (health v),
             Normal cached)
        | (c', None) =>
            validate_fresh
              (mkValidator (config v) (Some c') (mlDetector v) (health v))
              phoneNumber env
        end
      else validate_fresh v phoneNumber env
  | None => validate_fresh v phoneNumber env
  end.

(** A session: successive calls of [validate] on one validator. *)
Definition Call : Type := string * ValidateOptions * Env.

Fixpoint session (v : Validator) (calls : list Call)
  : Validator * list (Completion ValidationResult) :=
  match calls with
  | [] => (v, [])
  | (phoneNumber, options, env) :: rest =>
      let '(v', out) := validate v phoneNumber options env in
      let '(v'', outs) := session v' rest in
      (v'', out :: outs)
  end.

End WhatsAppValidator.

(** ** Notions used in the statements *)

Module Spec.

Import JS MLPatternDetector.

(** Keywords of a pattern that occur in the error text, and error codes
    that belong to its keyword set. *)
Definition keyword_hits (f : Features) (p : Pattern) : nat :=
  List.length (filter (fun kw => includes (errorText f) kw) (keywords p)).

Definition code_hits (f : Features) (p : Pattern) : nat :=
  List.length
    (filter (fun c => arr_includes (keywords p) (toLowerCase c)) (errorCodes f)).

(** No keyword of the table occurs in the error text and no extracted
    code is a keyword. *)
Definition no_match (f : Features) : Prop :=
  forall b p, In (b, p) ERROR_PATTERNS -> keyword_hits f p = 0%nat /\ code_hits f p = 0%nat.

Definition no_matchb (f : Features) : bool :=
  forallb (fun '(_, p) => (keyword_hits f p =? 0)%nat && (code_hits f p =? 0)%nat)
          ERROR_PATTERNS.

(** The answer of [analyze] when there is no signal. *)
Definition no_signal : Prediction := mkPrediction NONE None 0.5 None.

(** *** Classifier *)

Definition natQ (n : nat) : Q := inject_Z (Z.of_nat n).

(** The raw score of a table entry in closed form. *)
Definition raw_spec (f : Features) (p : Pattern) : Q :=
  weight p * natQ (keyword_hits f p)
  + weight p * 1.5 * natQ (code_hits f p)
  + (if Qltb (f_successRate f) 0.3 then 0.5 else 0)
  + (if (2 <? List.length (failurePatterns f))%nat
     then 0.3 * natQ (List.length (failurePatterns f)) else 0).

Definition phrase : string := "permanently terminated account_deleted".

(** The three entries of [ERROR_PATTERNS] by name. *)
Definition spam_pattern : Pattern :=
  mkPattern ["spam"; "rate limit"; "too many"; "blocked temporarily";
             "429"; "rate_limit"]%string 1.0 0.85.
Definition violation_pattern : Pattern :=
  mkPattern ["violation"; "terms"; "policy"; "forbidden"; "403"; "401";
             "unauthorized"]%string 1.2 0.90.
Definition permanent_pattern : Pattern :=
  mkPattern ["permanently"; "terminated"; "deleted"; "404";
             "banned from using"; "account_deleted"]%string 1.5 0.95.

(** Evidence lists used as concrete inputs.  Each entry is what
    [_recordError] stores for an error with that text. *)
Definition c5_plain : list ErrorDetail :=
  [ mkErrorDetail "status" "permanently terminated account_deleted" "UNKNOWN" ].

Definition c5_tie : list ErrorDetail :=
  [ mkErrorDetail "status"
      "429 too many requests: rate limit - spam; account permanently terminated account_deleted"
      "429" ].

Definition c8_quiet : list ErrorDetail :=
  [ mkErrorDetail "status" "socket closed" "UNKNOWN" ].

Definition c8_ev : list ErrorDetail :=
  [ mkErrorDetail "status" "500 internal error" "500";
    mkErrorDetail "status_final_retry" "500 internal error" "500";
    mkErrorDetail "profile_picture" "Operation timeout" "TIMEOUT";
    mkErrorDetail "profile_picture_final_retry" "Operation timeout" "TIMEOUT";
    mkErrorDetail "business_profile" "socket closed" "UNKNOWN";
    mkErrorDetail "business_profile_final_retry" "socket closed" "UNKNOWN" ].

(** *** Rate limiter *)

(** A limiter of two requests per second and a burst of five runs of the
    body of [acquire]. *)
Definition two_per_second : RateLimiter.t := RateLimiter.mkLimiter 2 1000 [].

Definition burst : list Z := [0; 10; 20; 1005; 1010]%Z.

End Spec.

(** ** Notions used in the statements about the pipeline *)

Module PipelineSpec.

Import JS WhatsAppValidator.
Local Open Scope string_scope.
Local Open Scope nat_scope.

Definition result_inv (r : ValidationResult) : Prop :=
  probsSuccessful (diagnostics r) <= probsExecuted (diagnostics r)
  /\ (isBanned (ban r) = false ->
      available (review r) = false /\ b_type (ban r) = NONE).

Definition recorded (e : ErrorDetail) : Prop := code e <> "FATAL".

Definition same_verdict (r r' : ValidationResult) : Prop :=
  number r' = number r /\ jid r' = jid r
  /\ isRegistered r' = isRegistered r /\ isActive r' = isActive r
  /\ isBanned (ban r') = isBanned (ban r)
  /\ b_type (ban r') = b_type (ban r)
  /\ mlConfidence (ban r') = mlConfidence (ban r)
  /\ review r' = review r
  /\ recommendations r' = recommendations r
  /\ summary r' = summary r.

Definition grows (r r' : ValidationResult) : Prop :=
  same_verdict r r'
  /\ exists l, errorDetails (diagnostics r') = (errorDetails (diagnostics r) ++ l)%list
               /\ Forall recorded l.

Definition pending (task : Task) : nat :=
  match task with Finished => 0 | _ => 1 end.

Definition step_ok (A : Type) (before : nat) (after : A -> nat)
           (r : ValidationResult) (res : ValidationResult * Completion A) : Prop :=
  grows r (fst res)
  /\ probsExecuted (diagnostics (fst res)) = probsExecuted (diagnostics r)
  /\ probsSuccessful (diagnostics r) <= probsSuccessful (diagnostics (fst res))
  /\ match snd res with
     | Normal a =>
         probsSuccessful (diagnostics (fst res)) + after a
         <= probsSuccessful (diagnostics r) + before
     | Throw e =>
         e = TypeError nullish_message
         /\ probsSuccessful (diagnostics (fst res))
            <= probsSuccessful (diagnostics r) + before
     end.

(** What the probe stage does to the counters when it runs [n] probes. *)
Definition probes_ok (n : nat) (r : ValidationResult)
           (res : ValidationResult * Completion unit) : Prop :=
  grows r (fst res)
  /\ probsExecuted (diagnostics r) <= probsExecuted (diagnostics (fst res))
  /\ probsExecuted (diagnostics (fst res)) <= probsExecuted (diagnostics r) + n
  /\ probsSuccessful (diagnostics r) <= probsSuccessful (diagnostics (fst res))
  /\ probsSuccessful (diagnostics (fst res)) + probsExecuted (diagnostics r)
     <= probsSuccessful (diagnostics r) + probsExecuted (diagnostics (fst res))
  /\ match snd res with
     | Normal _ => probsExecuted (diagnostics (fst res)) = probsExecuted (diagnostics r) + n
     | Throw e => e = TypeError nullish_message
     end.

Fixpoint pool_pending (pool : list (Probe * Task)) : nat :=
  match pool with
  | [] => 0
  | (_, task) :: rest => pending task + pool_pending rest
  end.

(** The effect of resuming activations of a pool. *)
Definition pool_ok (r : ValidationResult) (pool : list (Probe * Task))
           (res : ValidationResult * list (Probe * Task)) : Prop :=
  grows r (fst res)
  /\ probsExecuted (diagnostics (fst res)) = probsExecuted (diagnostics r)
  /\ probsSuccessful (diagnostics r) <= probsSuccessful (diagnostics (fst res))
  /\ probsSuccessful (diagnostics (fst res)) + pool_pending (snd res)
     <= probsSuccessful (diagnostics r) + pool_pending pool.

(** A result that is not marked banned has no review and no ban type. *)
Definition coherent (r : ValidationResult) : Prop :=
  isBanned (ban r) = false ->
  available (review r) = false /\ b_type (ban r) = NONE.

(** What a stage of the pipeline may do to the result. *)
Definition stage_ok (r r' : ValidationResult) : Prop :=
  (coherent r -> coherent r')
  /\ (probsSuccessful (diagnostics r) <= probsExecuted (diagnostics r) ->
      probsSuccessful (diagnostics r') <= probsExecuted (diagnostics r'))
  /\ exists l, errorDetails (diagnostics r') = (errorDetails (diagnostics r) ++ l)%list
               /\ Forall recorded l.

Definition m_ok (A : Type) (m : M A) : Prop :=
  forall r,
    stage_ok r (fst (m r))
    /\ forall e, snd (m r) = Throw e -> e = TypeError nullish_message.

(** Every cached value satisfies [Q]. *)
Definition entries_ok (V : Type) (Q : V -> Prop) (c : ValidationCache.t V) : Prop :=
  Forall (fun kv => Q (ValidationCache.data (snd kv))) (ValidationCache.cache c).

Definition validator_ok (v : Validator) : Prop :=
  match cache v with
  | Some c => entries_ok result_inv c
  | None => True
  end.

(** The value [validate] finds in the cache, if the lookup is made and hits. *)
Definition cache_hit (v : Validator) (phoneNumber : string)
           (options : ValidateOptions) (env : Env) : option ValidationResult :=
  match cache v with
  | Some c =>
      if negb (skipCache options)
      then snd (ValidationCache.get c (cacheKey phoneNumber) (now_lookup env))
      else None
  | None => None
  end.

End PipelineSpec.

(** ** Notions used in the statements about the counters *)

Module CounterSpec.

Import WhatsAppValidator.
(** The result object with the registration check counted as a probe. *)
Definition bump (r : ValidationResult) : ValidationResult :=
  upd_diag inc_successful (upd_diag inc_executed r).

(** The object a positive registration check leaves, before its two
    increments. *)
Definition registered_uncounted (r0 : ValidationResult) : ValidationResult :=
  upd_ban (push_method "registration_verified") (set_registered true r0).

End CounterSpec.

(** ** Concrete validators, connections and environments *)

Module Scenarios.

Import WhatsAppValidator.
Local Open Scope string_scope.

(** The default configuration, and the same with sequential probes. *)
Definition cfg_default : Config := mkConfig 8000 true true true 2 true 3600000 true.
Definition cfg_sequential : Config := mkConfig 8000 false true true 2 true 3600000 true.

Definition lookup_first : ValidateOptions := mkValidateOptions false.

(** Connections: the account does not exist; the registration call rejects
    with [undefined]; the account exists and the status probe is refused
    with a rate-limit message while the other probes answer. *)
Definition conn_absent : Connection :=
  mkConnection (Returns (Some [false])) (fun _ _ => Returns Falsy).

Definition conn_rejects_undefined : Connection :=
  mkConnection (Fails ErrNullish) (fun _ _ => Returns Falsy).

Definition conn_rate_limited : Connection :=
  mkConnection (Returns (Some [true]))
    (fun p _ => match p with
                | P_status => Fails (Error "spam rate limit")
                | _ => Returns (Truthy "")
                end).

Definition conn_present : Connection :=
  mkConnection (Returns (Some [true])) (fun _ _ => Returns (Truthy "hello")).

Definition env_of (c : Connection) : Env := mkEnv c [] 0 0.

Definition rate_limit_evidence : list ErrorDetail :=
  [ mkErrorDetail "status" "spam rate limit" "UNKNOWN" ].

End Scenarios.

(** ** Further operations of the cache, and runs of its operations *)

Module CacheOps.
Section WithData.
Variable V : Type.

Record Stats := mkStats {
  st_size : nat;
  st_hits : nat;
  st_misses : nat;
  st_hitRate : Q;
  st_maxSize : Z
}.

(** [stats()]. *)
Definition stats (c : ValidationCache.t V) : Stats :=
  let total := (ValidationCache.hits c + ValidationCache.misses c)%nat in
  mkStats (JsMap.size (ValidationCache.cache c))
    (ValidationCache.hits c) (ValidationCache.misses c)
    (if (0 <? total)%nat
     then inject_Z (Z.of_nat (ValidationCache.hits c)) / inject_Z (Z.of_nat total)
     else 0)
    (ValidationCache.maxSize c).

(** One call on the cache, with the clock reading at which it is made. *)
Inductive Op :=
| Get (key : string) (now : Z)
| Set_ (key : string) (data : V) (now : Z).

Definition step (c : ValidationCache.t V) (op : Op) : ValidationCache.t V :=
  match op with
  | Get key now => fst (ValidationCache.get c key now)
  | Set_ key d now => ValidationCache.set c key d now
  end.

Definition run (c : ValidationCache.t V) (ops : list Op) : ValidationCache.t V :=
  fold_left step ops c.

(** The keys stored by an operation are non-empty strings. *)
Definition stores_truthy (op : Op) : Prop :=
  match op with
  | Get _ _ => True
  | Set_ key _ _ => JS.truthy key = true
  end.

Definition is_get (op : Op) : bool :=
  match op with Get _ _ => true | Set_ _ _ _ => false end.

(** The number of [get] calls in a run. *)
Fixpoint count_gets (ops : list Op) : nat :=
  match ops with
  | [] => 0%nat
  | op :: ops => ((if is_get op then 1 else 0) + count_gets ops)%nat
  end.

(** The keys of the map are pairwise distinct and non-empty. *)
Definition well_keyed (c : ValidationCache.t V) : Prop :=
  NoDup (JsMap.keys (ValidationCache.cache c))
  /\ Forall (fun k => JS.truthy k = true) (JsMap.keys (ValidationCache.cache c)).

End WithData.

(** A cache of capacity 2 holding two entries, the second one used less
    recently, and a run of calls on an empty cache of capacity 2. *)
Definition two_entries : ValidationCache.t nat :=
  ValidationCache.set_all
    (ValidationCache.new nat (ValidationCache.mkOptions None (Some 2%Z)))
    [("a"%string, 1%nat, 10%Z); ("b"%string, 2%nat, 5%Z)].

Definition four_calls : list (Op nat) :=
  [ Set_ "a" 1%nat 10%Z; Set_ "b" 2%nat 20%Z; Get nat "a" 30%Z; Set_ "c" 3%nat 40%Z ].

End CacheOps.

(** ** Further operations of the rate limiter *)

Module RateLimiterOps.

Import RateLimiter.
Local Open Scope Z_scope.

(** [reset()]. *)
Definition reset (rl : t) : t := mkLimiter (maxRequests rl) (windowMs rl) [].

(** The object [getStatus()] returns; [resetAt] is [null] when no request
    is active. *)
Record Status := mkStatus {
  activeRequests : nat;
  st_maxRequests : Z;
  remaining : Z;
  resetAt : option Z
}.

(** [getStatus()] at clock reading [now]; the stored list is not written. *)
Definition getStatus (rl : t) (now : Z) : Status :=
  let active := prune rl now in
  mkStatus (List.length active) (maxRequests rl)
    (Z.max 0 (maxRequests rl - Z.of_nat (List.length active)))
    (match active with
     | [] => None
     | first :: _ => Some (first + windowMs rl)
     end).

(** [acquire] for a caller that is not overtaken by others, with nothing
    assumed about the timers: [wakes] lists the clock readings at which
    the successive [setTimeout] callbacks run, whether before or after the
    requested delay has elapsed (a timer that is not listed fires exactly
    on time).  [RateLimiter.acquire] is the case in which no timer fires
    early.  The result is the limiter, the committed reading and the
    number of suspensions. *)
Fixpoint acquire_at (fuel : nat) (wakes : list Z) (rl : t) (now : Z)
  : option (t * Z * nat) :=
  match fuel with
  | O => None
  | S fuel' =>
      match attempt rl now with
      | (rl', Acquired) => Some (rl', now, 0%nat)
      | (rl', Suspend waitTime) =>
          let now' := match wakes with
                      | [] => now + waitTime
                      | wake :: _ => wake
                      end in
          match acquire_at fuel' (tl wakes) rl' now' with
          | Some (rl'', t, n) => Some (rl'', t, S n)
          | None => None
          end
      end
  end.


End RateLimiterOps.

(** ** Notions used in the statements about the validator's helpers *)

Module HelperSpec.

Import JS WhatsAppValidator.
Local Open Scope string_scope.

(** Every character of [s] is a decimal digit. *)
Fixpoint all_digits (s : string) : bool :=
  match s with
  | EmptyString => true
  | String c s' => is_digit c && all_digits s'
  end.

(** The values [_extractErrorCode] can return. *)
Definition error_codes : list string :=
  ["403"; "401"; "404"; "429"; "500"; "TIMEOUT"; "UNKNOWN"].

(** The health record after a run of [_updateHealth] calls. *)
Definition health_after (outcomes : list bool) (h : Health) : Health :=
  fold_left (fun h success => _updateHealth success h) outcomes h.

(** The status that goes with a number of consecutive failures. *)
Definition status_of (failures : nat) : HealthStatus :=
  if (10 <=? failures)%nat then unhealthy
  else if (5 <=? failures)%nat then degraded
  else healthy.

(** The failures at the end of a run, since the last success. *)
Fixpoint trailing_failures (outcomes : list bool) (before : nat) : nat :=
  match outcomes with
  | [] => before
  | true :: rest => trailing_failures rest 0
  | false :: rest => trailing_failures rest (S before)
  end.

End HelperSpec.

(** ** Notions used in the statements about retries *)

Module RetrySpec.

Import WhatsAppValidator.
Local Open Scope Z_scope.

(** Retries a suspended activation can still announce in [fallbacksUsed]. *)
Definition retry_budget (cfg : Config) (task : Task) : Z :=
  match task with
  | AwaitFirst => if retryOnFailure cfg then Z.of_nat (maxRetries cfg) else 0
  | AwaitRetry retry => Z.of_nat (maxRetries cfg - S retry)
  | Finished => 0
  end.

(** Entries a suspended activation can still push to [errorDetails]. *)
Definition error_budget (task : Task) : Z :=
  match task with
  | AwaitFirst => 2
  | AwaitRetry _ => 1
  | Finished => 0
  end.

(** Entries a suspended activation can still push to [probeResults]. *)
Definition entry_budget (task : Task) : Z :=
  match task with
  | AwaitFirst => 1
  | _ => 0
  end.

Definition no_budget (task : Task) : Z := 0.

(** The budgets of an activation whose first attempt is answered: no
    error from the first attempt, and one success to come. *)
Definition answered_error_budget (task : Task) : Z :=
  match task with
  | AwaitRetry _ => 1
  | _ => 0
  end.

Definition answered_retry_budget (cfg : Config) (task : Task) : Z :=
  match task with
  | AwaitRetry retry => Z.of_nat (maxRetries cfg - S retry)
  | _ => 0
  end.

Definition answered_success_budget (task : Task) : Z :=
  match task with
  | AwaitFirst => -1
  | _ => 0
  end.

Fixpoint pool_sum (bud : Task -> Z) (pool : Pool) : Z :=
  match pool with
  | [] => 0
  | (_, task) :: rest => bud task + pool_sum bud rest
  end.

Definition fallbacks (r : ValidationResult) : Z :=
  Z.of_nat (List.length (fallbacksUsed (diagnostics r))).

Definition errors (r : ValidationResult) : Z :=
  Z.of_nat (List.length (errorDetails (diagnostics r))).

Definition entries (r : ValidationResult) : Z :=
  Z.of_nat (List.length (probeResults (diagnostics r))).

Definition successes (r : ValidationResult) : Z :=
  Z.of_nat (probsSuccessful (diagnostics r)).

(** Resuming an activation with budget [b] moves the quantity [mu] of the
    result by at most what the activation gives up of its budget; an
    activation that throws has no budget left. *)
Definition within (mu : ValidationResult -> Z) (bud : Task -> Z) (b : Z)
           (r : ValidationResult) (res : ValidationResult * Completion Task) : Prop :=
  match snd res with
  | Normal task' => mu (fst res) + bud task' <= mu r + b
  | Throw _ => mu (fst res) <= mu r + b
  end.

(** Every first attempt of a probe is answered. *)
Definition answers (c : Connection) : Prop :=
  forall n, exists payload, probeCall c n 0 = Returns payload.

End RetrySpec.

(** ** Notions used in the statements about one probe *)

Module ProbeSpec.

Import JS WhatsAppValidator.
Local Open Scope string_scope.

(** The object a first attempt that rejects with a non-nullish value
    leaves: the probe is counted, the error is recorded and the probe gets
    its [probeResults] entry. *)
Definition after_failure (probe : Probe) (message text : string)
           (r : ValidationResult) : ValidationResult :=
  upd_diag (push_probeResult
              (mkProbeResult (ProbeName_str (name probe))
                 (if _isFatalError text then FAILED else TIMEOUT)
                 (if truthy message then Some message else None)))
    (upd_diag (push_error
                 (mkErrorDetail (ProbeName_str (name probe))
                    (if truthy message then message else text)
                    (_extractErrorCode text)))
       (upd_diag inc_executed r)).

(** Connections whose probes reject with a 404, and whose probes reject
    once and then answer. *)
Definition conn_not_found : Connection :=
  mkConnection (Returns (Some [true]))
    (fun _ _ => Fails (Error "item-not-found (404)")).

Definition conn_flaky : Connection :=
  mkConnection (Returns (Some [true]))
    (fun _ k => match k with
                | O => Fails (Error "socket closed")
                | S _ => Returns (Truthy "hello")
                end).

Definition status_probe : Probe := mkProbe P_status 1 8000.

End ProbeSpec.

(** ** Notions used in the statements about the verdict *)

Module VerdictSpec.

Import JS WhatsAppValidator.
Local Open Scope string_scope.

(** The detector of the validator, if any, works on [ERROR_PATTERNS]. *)
Definition standard_detector (v : Validator) : Prop :=
  match mlDetector v with
  | Some d => MLPatternDetector.patterns d = ERROR_PATTERNS
  | None => True
  end.

(** The first entry of [ERROR_PATTERNS] one of whose keywords occurs in
    the lower-cased messages of the recorded errors. *)
Definition first_keyword_match (details : list ErrorDetail)
  : option (BanType * Pattern) :=
  let errorText := join " " (map (fun e => toLowerCase (error e)) details) in
  find (fun '(banType, pattern) =>
          (0 <? List.length
                  (filter (fun kw => includes errorText (toLowerCase kw))
                          (keywords pattern)))%nat)
       ERROR_PATTERNS.

(** The number of probes of a configuration. *)
Definition probe_count (cfg : Config) : nat :=
  if enablePresenceCheck cfg then 4 else 3.

(** A later call on a connection that would report the number as
    absent. *)
Definition env_later_absent : Env := mkEnv Scenarios.conn_absent [] 1000 1000.

(** The default configuration with the detector switched off. *)
Definition cfg_no_detector : Config :=
  mkConfig 8000 true true true 2 true 3600000 false.

End VerdictSpec.

(** ** Further operations of the detector *)

Module DetectorOps.

Import MLPatternDetector.

(** The object [getAccuracy()] returns when it is not [null]. *)
Record Accuracy := mkAccuracy {
  sampleSize : nat;
  estimatedAccuracy : Q
}.

(** [history.slice(-n)]. *)
Definition slice_last (A : Type) (n : nat) (l : list A) : list A :=
  skipn (List.length l - n) l.

(** [getAccuracy()]: [null] below ten history entries. *)
Definition getAccuracy (d : t) : option Accuracy :=
  if (List.length (history d) <? 10)%nat then None
  else
    let sample := slice_last 100 (history d) in
    Some (mkAccuracy (List.length sample) 0.87).

(** Successive calls of [analyze] on one detector. *)
Definition analyze_all (d : t) (inputs : list (list ErrorDetail * ProbeSummary)) : t :=
  fold_left (fun d '(errorDetails, probeResults) =>
               fst (analyze d errorDetails probeResults))
            inputs d.

End DetectorOps.

(** ** Analytics engine *)

Module AnalyticsEngine.

Import WhatsAppValidator.

(** [metrics]; the tables [banTypes] and [probesStats] are objects used as
    maps, kept in insertion order.  [avgResponseTime] is derived from the
    wall clock and is left out, as [responseTime] is. *)
Record Metrics := mkMetrics {
  totalValidations : nat;
  successfulValidations : nat;
  failedValidations : nat;
  bannedAccounts : nat;
  activeAccounts : nat;
  banTypes : list (BanType * nat);
  probesStats : list (string * nat)
}.

(** What [_summarize] keeps of a result; the quotient
    [probsSuccessful / probsExecuted] is no finite number ([None]) when no
    probe was executed. *)
Record Summary := mkSummary {
  s_isBanned : bool;
  s_banType : BanType;
  s_successRate : option Q
}.

Record t := mkEngine {
  metrics : Metrics;
  history : list Summary
}.

Definition new : t := mkEngine (mkMetrics 0 0 0 0 0 [] []) [].




Definition reset (a : t) : t := new.




End AnalyticsEngine.

(** ** Notions used in the statements about a failed registration check *)

Module RegistrationSpec.

Import JS WhatsAppValidator.
Local Open Scope string_scope.

(** The entry [_checkRegistration] records when [onWhatsApp] rejects with
    a non-nullish value or does not answer within the timeout. *)
Definition registration_error (c : Connection) : option ErrorDetail :=
  match onWhatsApp c with
  | Fails (ErrValue message text) =>
      Some (mkErrorDetail "registration" (if truthy message then message else text)
                          (_extractErrorCode text))
  | Hangs => Some (mkErrorDetail "registration" "Operation timeout" "TIMEOUT")
  | _ => None
  end.

(** A connection whose [onWhatsApp] never answers. *)
Definition conn_unreachable : Connection :=
  mkConnection Hangs (fun _ _ => Returns Falsy).

End RegistrationSpec.

(* ====================================================================== *)
(** * Part II: properties                                                  *)
(* ====================================================================== *)

(** ** Strings *)

Section StringFacts.

Import JS.
Open Scope string_scope.

Lemma append_assoc (a b c : string) : (a ++ b) ++ c = a ++ (b ++ c).
Proof. induction a as [|x a IH]; simpl; [reflexivity | now rewrite IH]. Qed.

Lemma prefix_app (k s : string) :
  String.prefix k s = true <-> exists b, s = k ++ b.
Proof.
  revert s; induction k as [|x k IH]; intros s.
  - split; [intros _; now exists s | intros _; now destruct s].
  - destruct s as [|y s]; simpl.
    + split; [discriminate | intros [b Hb]; discriminate].
    + destruct (ascii_dec x y) as [->|Hne].
      * rewrite IH. split; intros [b Hb]; exists b; [now rewrite Hb | now inversion Hb].
      * split; [discriminate | intros [b Hb]; inversion Hb; congruence].
Qed.

Lemma includes_app (s k : string) :
  includes s k = true <-> exists a b, s = a ++ k ++ b.
Proof.
  induction s as [|x s IH]; cbn [includes].
  - rewrite prefix_app. split.
    + intros [b Hb]. exists "", b. exact Hb.
    + intros [a [b Hb]]. destruct a; simpl in Hb.
      * now exists b.
      * discriminate.
  - rewrite orb_true_iff, prefix_app, IH. split.
    + intros [[b Hb] | [a [b Hb]]].
      * exists "", b. exact Hb.
      * exists (String x a), b. simpl. now rewrite Hb.
    + intros [a [b Hb]]. destruct a as [|y a]; simpl in Hb.
      * left. now exists b.
      * right. inversion Hb. now exists a, b.
Qed.

(** A substring of a substring is a substring. *)
Lemma includes_trans (s p k : string) :
  includes s p = true -> includes p k = true -> includes s k = true.
Proof.
  rewrite !includes_app. intros [a [b ->]] [a' [b' ->]].
  exists (a ++ a'), (b' ++ b). now rewrite !append_assoc.
Qed.

Lemma Qltb_lt (x y : Q) : Qltb x y = true <-> x < y.
Proof.
  unfold Qltb. rewrite negb_true_iff. split; intros H.
  - apply Qnot_le_lt. intros Hle. apply Qle_bool_iff in Hle. congruence.
  - destruct (Qle_bool y x) eqn:E; [|reflexivity].
    apply Qle_bool_iff in E. apply Qle_not_lt in E. contradiction.
Qed.

Lemma Qltb_ge (x y : Q) : Qltb x y = false <-> y <= x.
Proof.
  unfold Qltb. rewrite negb_false_iff. apply Qle_bool_iff.
Qed.

End StringFacts.

(** ** The classifier *)

Section Classifier.

Import JS MLPatternDetector Spec.
Open Scope Q_scope.

Lemma natQ_S n : natQ (S n) == natQ n + 1.
Proof. unfold natQ. rewrite Nat2Z.inj_succ, <- Z.add_1_r, inject_Z_plus. reflexivity. Qed.

Lemma natQ_nonneg n : 0 <= natQ n.
Proof. unfold natQ. change 0 with (inject_Z 0). rewrite <- Zle_Qle. lia. Qed.

Lemma natQ_le n m : (n <= m)%nat -> natQ n <= natQ m.
Proof. intros H. unfold natQ. rewrite <- Zle_Qle. lia. Qed.

(** The two scoring loops add [w] per hit and count the hits. *)
Lemma score_loop (A : Type) (hit : A -> bool) (w : Q) (l : list A) :
  forall s m,
    let '(s', m') :=
      fold_left (fun '(score, matchCount) x =>
                   if hit x then (score + w, S matchCount) else (score, matchCount))
                l (s, m) in
    s' == s + w * natQ (List.length (filter hit l))
    /\ m' = (m + List.length (filter hit l))%nat.
Proof.
  induction l as [|x l IH]; intros s m; simpl.
  - split; [unfold natQ; simpl; ring | lia].
  - destruct (hit x); simpl.
    + specialize (IH (s + w) (S m)).
      destruct (fold_left _ l (s + w, S m)) as [s' m'].
      destruct IH as [Hs Hm]. split; [|lia].
      rewrite Hs, natQ_S. ring.
    + apply IH.
Qed.

Lemma score_pattern_spec (f : Features) (p : Pattern) :
  raw (score_pattern f p) == raw_spec f p
  /\ s_matchCount (score_pattern f p) = (keyword_hits f p + code_hits f p)%nat
  /\ normalized (score_pattern f p) = Qmin (raw (score_pattern f p) / 5) 1.0
  /\ s_confidence (score_pattern f p) =
     if (0 <? s_matchCount (score_pattern f p))%nat then confidence p else 0.
Proof.
  unfold score_pattern, raw_spec, keyword_hits, code_hits.
  pose proof (score_loop (fun kw => includes (errorText f) kw) (weight p)
                         (keywords p) 0 0%nat) as H1.
  destruct (fold_left _ (keywords p) (0, 0%nat)) as [s1 m1].
  pose proof (score_loop (fun c => arr_includes (keywords p) (toLowerCase c))
                         (weight p * 1.5) (errorCodes f) s1 m1) as H2.
  destruct (fold_left _ (errorCodes f) (s1, m1)) as [s2 m2].
  destruct H1 as [Hs1 Hm1], H2 as [Hs2 Hm2]. cbn [raw s_matchCount normalized s_confidence].
  repeat split; try reflexivity.
  - destruct (Qltb (f_successRate f) 0.3);
      destruct (2 <? List.length (failurePatterns f))%nat;
      rewrite Hs2, Hs1; unfold natQ; ring.
  - lia.
Qed.

Lemma normalized_le_1 (f : Features) (p : Pattern) :
  normalized (score_pattern f p) <= 1.
Proof.
  destruct (score_pattern_spec f p) as (_ & _ & -> & _).
  apply (Qle_trans _ 1.0); [apply Q.le_min_r | lra].
Qed.

Lemma normalized_1 (f : Features) (p : Pattern) :
  5 <= raw (score_pattern f p) -> normalized (score_pattern f p) == 1.
Proof.
  intros H. destruct (score_pattern_spec f p) as (_ & _ & -> & _).
  rewrite Q.min_r; [lra|]. apply Qle_shift_div_l; lra.
Qed.

Lemma normalized_lt (f : Features) (p : Pattern) (x : Q) :
  x <= 1 -> raw (score_pattern f p) < 5 * x -> normalized (score_pattern f p) < x.
Proof.
  intros Hx H. destruct (score_pattern_spec f p) as (_ & _ & -> & _).
  apply Q.min_lt_iff. left. apply Qlt_shift_div_r; lra.
Qed.

Lemma normalized_ge (f : Features) (p : Pattern) (x : Q) :
  x <= 1 -> 5 * x <= raw (score_pattern f p) -> x <= normalized (score_pattern f p).
Proof.
  intros Hx H. destruct (score_pattern_spec f p) as (_ & _ & -> & _).
  apply Q.min_glb; [apply Qle_shift_div_l; lra | lra].
Qed.

(** [_calculateScores] on the table of the source. *)
Lemma calculateScores_new (f : Features) :
  _calculateScores new f =
  map (fun '(b, p) => (b, score_pattern f p)) ERROR_PATTERNS.
Proof. reflexivity. Qed.

(** The three candidates of [pick_best], unrolled: the first candidate
    with the highest normalized score wins if it reaches 0.3. *)
Lemma makePrediction_cases (s1 s2 s3 : ScoreData) :
  let p := _makePrediction [(SPAM, s1); (VIOLATION, s2); (PERMANENT, s3)] in
  (normalized s1 < 0.3 /\ normalized s2 < 0.3 /\ normalized s3 < 0.3 /\
   p = no_signal)
  \/ (0.3 <= normalized s1 /\
      normalized s2 <= normalized s1 /\ normalized s3 <= normalized s1 /\
      p = mkPrediction SPAM (Some (normalized s1)) (s_confidence s1)
                       (Some (s_matchCount s1)))
  \/ (0.3 <= normalized s2 /\
      normalized s1 < normalized s2 /\ normalized s3 <= normalized s2 /\
      p = mkPrediction VIOLATION (Some (normalized s2)) (s_confidence s2)
                       (Some (s_matchCount s2)))
  \/ (0.3 <= normalized s3 /\
      normalized s1 < normalized s3 /\ normalized s2 < normalized s3 /\
      p = mkPrediction PERMANENT (Some (normalized s3)) (s_confidence s3)
                       (Some (s_matchCount s3))).
Proof.
  cbv zeta.
  remember (_makePrediction [(SPAM, s1); (VIOLATION, s2); (PERMANENT, s3)])
    as p eqn:Hp.
  unfold _makePrediction, pick_best, bestMatch0 in Hp.
  cbn [fold_left best_score p_score] in Hp.
  destruct (Qltb 0 (normalized s1)) eqn:E1; cbn [best_score p_score] in Hp;
  destruct (Qltb _ (normalized s2)) eqn:E2 in Hp; cbn [best_score p_score] in Hp;
  destruct (Qltb _ (normalized s3)) eqn:E3 in Hp; cbn [best_score p_score] in Hp;
  destruct (Qltb _ 0.3) eqn:E4 in Hp;
  rewrite ?Qltb_lt, ?Qltb_ge in *; subst p; unfold no_signal;
  first [ exfalso; lra
        | left; split; [lra | split; [lra | split; [lra | reflexivity]]]
        | right; left; split; [lra | split; [lra | split; [lra | reflexivity]]]
        | right; right; left;
          split; [lra | split; [lra | split; [lra | reflexivity]]]
        | right; right; right;
          split; [lra | split; [lra | split; [lra | reflexivity]]] ].
Qed.

(** *** C5 *)

Lemma permanent_hits (f : Features) (p : Pattern) :
  includes (errorText f) phrase = true ->
  In (PERMANENT, p) ERROR_PATTERNS ->
  (4 <= keyword_hits f p)%nat.
Proof.
  intros Hin Hp.
  assert (Hk : forall k, includes phrase k = true -> includes (errorText f) k = true)
    by (intros k; apply includes_trans; exact Hin).
  simpl in Hp. destruct Hp as [Hp|[Hp|[Hp|[]]]]; inversion Hp; subst p.
  unfold keyword_hits. cbn [keywords filter].
  rewrite (Hk "permanently"%string), (Hk "terminated"%string),
          (Hk "deleted"%string), (Hk "account_deleted"%string) by reflexivity.
  destruct (includes (errorText f) "404");
    destruct (includes (errorText f) "banned from using"); simpl; lia.
Qed.

Lemma analyze_prediction (d : t) ev ps :
  snd (analyze d ev ps) = _makePrediction (_calculateScores d (_extractFeatures ev ps)).
Proof. reflexivity. Qed.

Lemma ERROR_PATTERNS_eq :
  ERROR_PATTERNS =
  [(SPAM, spam_pattern); (VIOLATION, violation_pattern);
   (PERMANENT, permanent_pattern)].
Proof. reflexivity. Qed.

Lemma scores_new (f : Features) :
  _calculateScores new f =
  [(SPAM, score_pattern f spam_pattern);
   (VIOLATION, score_pattern f violation_pattern);
   (PERMANENT, score_pattern f permanent_pattern)].
Proof. reflexivity. Qed.

Lemma raw_permanent (f : Features) :
  includes (errorText f) phrase = true ->
  f_successRate f == 0 ->
  6.5 <= raw (score_pattern f permanent_pattern)
  /\ (0 < s_matchCount (score_pattern f permanent_pattern))%nat.
Proof.
  intros Hin Hrate.
  destruct (score_pattern_spec f permanent_pattern) as (Hraw & Hmc & _ & _).
  assert (Hk : (4 <= keyword_hits f permanent_pattern)%nat).
  { apply permanent_hits; [exact Hin | rewrite ERROR_PATTERNS_eq; simpl; auto]. }
  split; [|lia].
  rewrite Hraw. unfold raw_spec.
  assert (Hlt : Qltb (f_successRate f) 0.3 = true) by (apply Qltb_lt; lra).
  rewrite Hlt.
  pose proof (natQ_le Hk) as H4. change (natQ 4) with 4 in H4.
  pose proof (natQ_nonneg (code_hits f permanent_pattern)) as Hc.
  pose proof (natQ_nonneg (List.length (failurePatterns f))) as Hl.
  cbn [weight permanent_pattern].
  destruct (2 <? List.length (failurePatterns f))%nat; nra.
Qed.

(** C5, amended.  For evidence whose lowercase error text contains
    "permanently terminated account_deleted" and a success rate of 0,
    [analyze] answers permanent exactly when neither the spam nor the
    violation candidate reaches the normalized score 1 (a raw score of 5);
    the confidence of that answer is 0.95, which is at least 0.85, and its
    score is 1.  Otherwise the first saturated candidate in table order
    wins the tie: in every case the answer is the entry of the table whose
    normalized score is 1 while every entry before it stays below 1. *)
Theorem C5_permanent_iff_no_saturated_rival (ev : list ErrorDetail) (ps : ProbeSummary) :
  let f := _extractFeatures ev ps in
  let p := snd (analyze new ev ps) in
  includes (errorText f) phrase = true ->
  f_successRate f == 0 ->
  (p_type p = PERMANENT <->
   (forall b sd, In (b, sd) (_calculateScores new f) -> b <> PERMANENT ->
                 normalized sd < 1))
  /\ (p_type p = PERMANENT ->
      p_confidence p = 0.95 /\ 0.85 <= p_confidence p /\
      exists s, p_score p = Some s /\ s == 1)
  /\ (exists pre b pat post,
        ERROR_PATTERNS = (pre ++ (b, pat) :: post)%list
        /\ p = mkPrediction b (Some (normalized (score_pattern f pat)))
                 (s_confidence (score_pattern f pat))
                 (Some (s_matchCount (score_pattern f pat)))
        /\ normalized (score_pattern f pat) == 1
        /\ forall b' pat', In (b', pat') pre ->
                           normalized (score_pattern f pat') < 1).
Proof.
  intros f p Hin Hrate. subst p. rewrite analyze_prediction. fold f.
  rewrite scores_new.
  destruct (raw_permanent f Hin Hrate) as [Hraw Hmc].
  assert (H3 : normalized (score_pattern f permanent_pattern) == 1)
    by (apply normalized_1; lra).
  assert (Hconf : s_confidence (score_pattern f permanent_pattern) = 0.95).
  { destruct (score_pattern_spec f permanent_pattern) as (_ & _ & _ & ->).
    apply Nat.ltb_lt in Hmc. now rewrite Hmc. }
  pose proof (normalized_le_1 f spam_pattern) as L1.
  pose proof (normalized_le_1 f violation_pattern) as L2.
  destruct (makePrediction_cases (score_pattern f spam_pattern)
              (score_pattern f violation_pattern)
              (score_pattern f permanent_pattern))
    as [(_ & _ & C & _) | [(_ & _ & C & ->) | [(_ & C1 & C & ->) | (_ & C1 & C2 & ->)]]].
  - exfalso; lra.
  - cbn [p_type]. split; [split; [discriminate|] | split; [discriminate|]].
    + intros H. specialize (H SPAM (score_pattern f spam_pattern)).
      exfalso. assert (normalized (score_pattern f spam_pattern) < 1)
        by (apply H; [simpl; auto | discriminate]). lra.
    + exists [], SPAM, spam_pattern,
        [(VIOLATION, violation_pattern); (PERMANENT, permanent_pattern)].
      split; [reflexivity|]. split; [reflexivity|].
      split; [apply Qle_antisym; lra | intros b' pat' []].
  - cbn [p_type]. split; [split; [discriminate|] | split; [discriminate|]].
    + intros H. specialize (H VIOLATION (score_pattern f violation_pattern)).
      exfalso. assert (normalized (score_pattern f violation_pattern) < 1)
        by (apply H; [simpl; auto | discriminate]). lra.
    + exists [(SPAM, spam_pattern)], VIOLATION, violation_pattern,
        [(PERMANENT, permanent_pattern)].
      split; [reflexivity|]. split; [reflexivity|].
      split; [apply Qle_antisym; lra|].
      intros b' pat' [E|[]]. inversion E; subst. lra.
  - cbn [p_type p_confidence p_score].
    split; [split; [intros _|reflexivity] | split].
    + intros b sd [E|[E|[E|[]]]] Hb; inversion E; subst; [lra | lra | congruence].
    + intros _. rewrite Hconf. split; [reflexivity|]. split; [lra|].
      eexists; split; [reflexivity | exact H3].
    + exists [(SPAM, spam_pattern); (VIOLATION, violation_pattern)],
        PERMANENT, permanent_pattern, [].
      split; [reflexivity|]. split; [reflexivity|]. split; [exact H3|].
      intros b' pat' [E|[E|[]]]; inversion E; subst; lra.
Qed.

Lemma C5_permanent_iff_no_saturated_rival_witness :
  p_type (snd (analyze new c5_plain (mkProbeSummary (Some 0)))) = PERMANENT
  /\ p_confidence (snd (analyze new c5_plain (mkProbeSummary (Some 0)))) = 0.95.
Proof.
  destruct (@C5_permanent_iff_no_saturated_rival c5_plain (mkProbeSummary (Some 0)))
    as [[_ Hiff] [Hconf _]]; [reflexivity | reflexivity |].
  assert (Hp : p_type (snd (analyze new c5_plain (mkProbeSummary (Some 0)))) = PERMANENT).
  { apply Hiff. intros b sd [E|[E|[E|[]]]] Hb; inversion E; subst;
      [reflexivity | reflexivity | congruence]. }
  split; [exact Hp | exact (proj1 (Hconf Hp))].
Defined.

Lemma C5_counterexample :
  includes (errorText (_extractFeatures c5_tie (mkProbeSummary (Some 0)))) phrase = true
  /\ f_successRate (_extractFeatures c5_tie (mkProbeSummary (Some 0))) == 0
  /\ snd (analyze new c5_tie (mkProbeSummary (Some 0)))
     = mkPrediction SPAM (Some 1.0) 0.85 (Some 5%nat).
Proof. repeat split; vm_compute; reflexivity. Qed.

(** *** C8 *)

Lemma no_match_raw (f : Features) (b : BanType) (p : Pattern) :
  no_match f -> In (b, p) ERROR_PATTERNS ->
  f_successRate f == 0 ->
  raw (score_pattern f p) ==
    0.5 + (if (2 <? List.length (failurePatterns f))%nat
           then 0.3 * natQ (List.length (failurePatterns f)) else 0)
  /\ s_matchCount (score_pattern f p) = 0%nat
  /\ s_confidence (score_pattern f p) = 0.
Proof.
  intros Hno Hin Hrate. destruct (Hno b p Hin) as [Hk Hc].
  destruct (score_pattern_spec f p) as (Hraw & Hmc & _ & Hconf).
  rewrite Hk, Hc in Hmc. rewrite Hconf, Hmc. repeat split.
  rewrite Hraw. unfold raw_spec. rewrite Hk, Hc.
  assert (Hlt : Qltb (f_successRate f) 0.3 = true) by (apply Qltb_lt; lra).
  rewrite Hlt. change (natQ 0) with 0.
  destruct (2 <? List.length (failurePatterns f))%nat; ring.
Qed.

Lemma no_matchb_sound (f : Features) : no_matchb f = true -> no_match f.
Proof.
  unfold no_matchb, no_match. rewrite forallb_forall. intros H b p Hin.
  specialize (H (b, p) Hin). cbn in H.
  apply andb_true_iff in H. destruct H as [H1 H2].
  apply Nat.eqb_eq in H1, H2. auto.
Qed.

(** C8, amended.  For evidence in which no keyword occurs in the error text
    and no extracted code is a keyword, with the default success rate,
    [analyze] answers none with confidence 0.5 when at most three failure
    patterns are identified; with four or more it answers spam with
    confidence 0 and match count 0. *)
Theorem C8_no_signal_up_to_three_patterns (ev : list ErrorDetail) :
  let f := _extractFeatures ev (mkProbeSummary None) in
  let p := snd (analyze new ev (mkProbeSummary None)) in
  no_match f ->
  ((List.length (failurePatterns f) <= 3)%nat -> p = no_signal)
  /\ ((4 <= List.length (failurePatterns f))%nat ->
      p_type p = SPAM /\ p_confidence p = 0 /\ p_matchCount p = Some 0%nat).
Proof.
  intros f p Hno. subst p. rewrite analyze_prediction. fold f. rewrite scores_new.
  assert (Hrate : f_successRate f == 0) by reflexivity.
  assert (I1 : In (SPAM, spam_pattern) ERROR_PATTERNS) by (simpl; auto).
  assert (I2 : In (VIOLATION, violation_pattern) ERROR_PATTERNS) by (simpl; auto).
  assert (I3 : In (PERMANENT, permanent_pattern) ERROR_PATTERNS) by (simpl; auto 6).
  destruct (no_match_raw Hno I1 Hrate) as (R1 & M1 & C1).
  destruct (no_match_raw Hno I2 Hrate) as (R2 & M2 & C2).
  destruct (no_match_raw Hno I3 Hrate) as (R3 & M3 & C3).
  pose proof (natQ_nonneg (List.length (failurePatterns f))) as Hl.
  split; intros Hlen.
  - assert (B : forall q, raw (score_pattern f q) ==
                0.5 + (if (2 <? List.length (failurePatterns f))%nat
                       then 0.3 * natQ (List.length (failurePatterns f)) else 0) ->
                normalized (score_pattern f q) < 0.3).
    { intros q Hq. apply normalized_lt; [lra|]. rewrite Hq.
      pose proof (natQ_le Hlen) as H3. change (natQ 3) with 3 in H3.
      destruct (2 <? List.length (failurePatterns f))%nat; lra. }
    pose proof (B _ R1). pose proof (B _ R2). pose proof (B _ R3).
    destruct (makePrediction_cases (score_pattern f spam_pattern)
                (score_pattern f violation_pattern)
                (score_pattern f permanent_pattern))
      as [(_ & _ & _ & ->) | [(C & _) | [(C & _) | (C & _)]]];
      [reflexivity | exfalso; lra ..].
  - assert (Hb : (2 <? List.length (failurePatterns f))%nat = true)
      by (apply Nat.ltb_lt; lia).
    rewrite Hb in R1, R2, R3.
    pose proof (natQ_le Hlen) as H4. change (natQ 4) with 4 in H4.
    assert (G1 : 0.3 <= normalized (score_pattern f spam_pattern))
      by (apply normalized_ge; lra).
    assert (E : forall q q', raw (score_pattern f q) == raw (score_pattern f q') ->
                normalized (score_pattern f q) == normalized (score_pattern f q')).
    { intros q q' Hq.
      destruct (score_pattern_spec f q) as (_ & _ & -> & _).
      destruct (score_pattern_spec f q') as (_ & _ & -> & _).
      now rewrite Hq. }
    assert (E12 := E spam_pattern violation_pattern ltac:(now rewrite R1, R2)).
    assert (E13 := E spam_pattern permanent_pattern ltac:(now rewrite R1, R3)).
    destruct (makePrediction_cases (score_pattern f spam_pattern)
                (score_pattern f violation_pattern)
                (score_pattern f permanent_pattern))
      as [(C & _) | [(_ & _ & _ & ->) | [(_ & C & _) | (_ & C & _)]]];
      [exfalso; lra | | exfalso; lra ..].
    cbn [p_type p_confidence p_matchCount]. now rewrite C1, M1.
Qed.

Lemma C8_no_signal_up_to_three_patterns_witness :
  snd (analyze new c8_quiet (mkProbeSummary None)) = no_signal.
Proof.
  apply (@C8_no_signal_up_to_three_patterns c8_quiet).
  - apply no_matchb_sound. vm_compute. reflexivity.
  - vm_compute. lia.
Defined.

Lemma C8_counterexample :
  no_match (_extractFeatures c8_ev (mkProbeSummary None))
  /\ snd (analyze new c8_ev (mkProbeSummary None))
     = mkPrediction SPAM (Some (170 # 500)) 0 (Some 0%nat)
  /\ snd (analyze new c8_ev (mkProbeSummary None)) <> no_signal.
Proof.
  split; [apply no_matchb_sound; vm_compute; reflexivity|].
  split; [vm_compute; reflexivity | vm_compute; discriminate].
Qed.
End Classifier.

Section ClassifierWinner.

Import JS MLPatternDetector Spec.
Open Scope Q_scope.

(** When some candidate reaches 0.3, [analyze] answers with the first
    candidate of highest normalized score: its [score] is that normalized
    score, its [confidence] is the base confidence of the table entry (0
    without a match). *)
Lemma analyze_winner (ev : list ErrorDetail) (ps : ProbeSummary) :
  let f := _extractFeatures ev ps in
  let p := snd (analyze new ev ps) in
  (exists b sd, In (b, sd) (_calculateScores new f) /\ 0.3 <= normalized sd) ->
  exists b pat,
    In (b, pat) ERROR_PATTERNS
    /\ p = mkPrediction b (Some (normalized (score_pattern f pat)))
             (s_confidence (score_pattern f pat))
             (Some (s_matchCount (score_pattern f pat)))
    /\ 0.3 <= normalized (score_pattern f pat)
    /\ (forall b' sd', In (b', sd') (_calculateScores new f) ->
                       normalized sd' <= normalized (score_pattern f pat))
    /\ normalized (score_pattern f pat) = Qmin (raw (score_pattern f pat) / 5) 1.0
    /\ s_confidence (score_pattern f pat) =
       (if (0 <? s_matchCount (score_pattern f pat))%nat then confidence pat else 0)
    /\ exists pre post,
         ERROR_PATTERNS = (pre ++ (b, pat) :: post)%list
         /\ forall b' pat', In (b', pat') pre ->
              normalized (score_pattern f pat') < normalized (score_pattern f pat).
Proof.
  intros f p (b0 & sd0 & Hin0 & H0). subst p.
  rewrite analyze_prediction. fold f. rewrite scores_new in *.
  assert (Hall : forall x,
             normalized (score_pattern f spam_pattern) <= x ->
             normalized (score_pattern f violation_pattern) <= x ->
             normalized (score_pattern f permanent_pattern) <= x ->
             forall b' sd',
               In (b', sd') [(SPAM, score_pattern f spam_pattern);
                             (VIOLATION, score_pattern f violation_pattern);
                             (PERMANENT, score_pattern f permanent_pattern)] ->
               normalized sd' <= x).
  { intros x A B C b' sd' [E|[E|[E|[]]]]; inversion E; subst; assumption. }
  destruct (makePrediction_cases (score_pattern f spam_pattern)
              (score_pattern f violation_pattern)
              (score_pattern f permanent_pattern))
    as [(C1 & C2 & C3 & _) | [(C0 & C1 & C2 & ->) | [(C0 & C1 & C2 & ->) | (C0 & C1 & C2 & ->)]]].
  - exfalso. destruct Hin0 as [E|[E|[E|[]]]]; inversion E; subst; lra.
  - exists SPAM, spam_pattern.
    destruct (score_pattern_spec f spam_pattern) as (_ & _ & Hn & Hc).
    split; [simpl; auto|]. split; [reflexivity|]. split; [exact C0|].
    split; [apply Hall; lra|]. split; [exact Hn|]. split; [exact Hc|].
    exists [], [(VIOLATION, violation_pattern); (PERMANENT, permanent_pattern)].
    split; [reflexivity | intros b' pat' []].
  - exists VIOLATION, violation_pattern.
    destruct (score_pattern_spec f violation_pattern) as (_ & _ & Hn & Hc).
    split; [simpl; auto|]. split; [reflexivity|]. split; [exact C0|].
    split; [apply Hall; lra|]. split; [exact Hn|]. split; [exact Hc|].
    exists [(SPAM, spam_pattern)], [(PERMANENT, permanent_pattern)].
    split; [reflexivity|]. intros b' pat' [E|[]]. inversion E; subst. exact C1.
  - exists PERMANENT, permanent_pattern.
    destruct (score_pattern_spec f permanent_pattern) as (_ & _ & Hn & Hc).
    split; [simpl; auto 6|]. split; [reflexivity|]. split; [exact C0|].
    split; [apply Hall; lra|]. split; [exact Hn|]. split; [exact Hc|].
    exists [(SPAM, spam_pattern); (VIOLATION, violation_pattern)], [].
    split; [reflexivity|].
    intros b' pat' [E|[E|[]]]; inversion E; subst; assumption.
Qed.
End ClassifierWinner.

(** ** The rate limiter *)

Section RateLimiterFacts.

Import RateLimiter Spec.
Open Scope Z_scope.

Lemma filter_length_le (A : Type) (p : A -> bool) (l : list A) :
  (List.length (filter p l) <= List.length l)%nat.
Proof. induction l as [|x l IH]; simpl; [lia | destruct (p x); simpl; lia]. Qed.

Lemma filter_length_mono (A : Type) (p q : A -> bool) (l : list A) :
  (forall x, In x l -> p x = true -> q x = true) ->
  (List.length (filter p l) <= List.length (filter q l))%nat.
Proof.
  induction l as [|x l IH]; intros H; simpl; [lia|].
  assert (IH' := IH (fun y Hy => H y (or_intror Hy))).
  destruct (p x) eqn:Ep.
  - rewrite (H x (or_introl eq_refl) Ep). simpl. lia.
  - destruct (q x); simpl; lia.
Qed.

Lemma filter_length_lt (A : Type) (p : A -> bool) (l : list A) (x : A) :
  In x l -> p x = false -> (List.length (filter p l) < List.length l)%nat.
Proof.
  induction l as [|y l IH]; intros Hin Hp; [contradiction|].
  simpl. destruct Hin as [->|Hin].
  - rewrite Hp. pose proof (filter_length_le p l). lia.
  - specialize (IH Hin Hp). destruct (p y); simpl; lia.
Qed.

Lemma filter_filter (A : Type) (p q : A -> bool) (l : list A) :
  (forall x, In x l -> p x = true -> q x = true) ->
  filter p (filter q l) = filter p l.
Proof.
  induction l as [|x l IH]; intros H; simpl; [reflexivity|].
  assert (IH' := IH (fun y Hy => H y (or_intror Hy))).
  destruct (q x) eqn:Eq; simpl.
  - destruct (p x); now rewrite IH'.
  - destruct (p x) eqn:Ep; [|exact IH'].
    rewrite (H x (or_introl eq_refl) Ep) in Eq. discriminate.
Qed.

(** What one run of the body does when the bound is positive. *)
Lemma attempt_cases (rl : t) (now : Z) :
  1 <= maxRequests rl ->
  (Z.of_nat (List.length (prune rl now)) < maxRequests rl
   /\ attempt rl now = (push rl (prune rl now) now, Acquired))
  \/ (maxRequests rl <= Z.of_nat (List.length (prune rl now))
      /\ exists oldest rest,
           prune rl now = oldest :: rest
           /\ now - oldest < windowMs rl
           /\ attempt rl now =
              (mkLimiter (maxRequests rl) (windowMs rl) (prune rl now),
               Suspend (windowMs rl - (now - oldest)))).
Proof.
  intros Hmax. unfold attempt.
  destruct (maxRequests rl <=? Z.of_nat (List.length (prune rl now))) eqn:E.
  - right. apply Z.leb_le in E. split; [exact E|].
    destruct (prune rl now) as [|oldest rest] eqn:Ep; [simpl in E; lia|].
    exists oldest, rest. split; [reflexivity|].
    assert (Hin : In oldest (prune rl now)) by (rewrite Ep; left; reflexivity).
    unfold prune in Hin. apply filter_In in Hin. destruct Hin as [_ Hw].
    apply Z.ltb_lt in Hw. split; [exact Hw|].
    assert (Hpos : (0 <? windowMs rl - (now - oldest)) = true) by (apply Z.ltb_lt; lia).
    now rewrite Hpos.
  - left. apply Z.leb_gt in E. split; [exact E | reflexivity].
Qed.

Lemma prune_prune (rl : t) (now now' : Z) :
  now <= now' ->
  filter (fun time => now' - time <? windowMs rl) (prune rl now) = prune rl now'.
Proof.
  intros H. unfold prune. apply filter_filter.
  intros x _ Hx. apply Z.ltb_lt in Hx. apply Z.ltb_lt. lia.
Qed.

Lemma attempt_inv (rl : t) (log : list Z) (last now : Z) :
  1 <= maxRequests rl -> Inv rl log last -> last <= now ->
  let '(rl', out) := attempt rl now in
  maxRequests rl' = maxRequests rl /\ windowMs rl' = windowMs rl /\
  Inv rl' (match out with Acquired => log ++ [now] | Suspend _ => log end) now.
Proof.
  intros Hmax (Hpr & Hlen & Hwin) Hlast.
  destruct (attempt_cases rl now Hmax)
    as [[Hlt ->] | (Hge & oldest & rest & Hp & Hw & ->)].
  - split; [reflexivity|]. split; [reflexivity|]. unfold Inv, push; cbn [maxRequests windowMs requests].
    split; [|split].
    + intros now' Hnow'. unfold prune at 1. cbn [requests windowMs].
      rewrite !filter_app. f_equal.
      rewrite <- (Hpr now' ltac:(lia)). apply prune_prune; exact Hnow'.
    + rewrite length_app. simpl. lia.
    + intros a. unfold in_window. rewrite filter_app, length_app.
      fold (in_window (windowMs rl) a log).
      simpl. destruct ((a <=? now) && (now <? a + windowMs rl)) eqn:E; simpl.
      * apply andb_true_iff in E. destruct E as [E1 E2].
        apply Z.leb_le in E1. apply Z.ltb_lt in E2.
        assert (Hsub : (List.length (in_window (windowMs rl) a log)
                        <= List.length (prune rl now))%nat).
        { rewrite (Hpr now Hlast). unfold in_window. apply filter_length_mono.
          intros x _ Hx. apply andb_true_iff in Hx. destruct Hx as [X1 X2].
          apply Z.leb_le in X1. apply Z.ltb_lt. lia. }
        lia.
      * specialize (Hwin a). lia.
  - split; [reflexivity|]. split; [reflexivity|]. unfold Inv; cbn [maxRequests windowMs requests].
    split; [|split].
    + intros now' Hnow'. unfold prune at 1. cbn [requests windowMs].
      rewrite <- (Hpr now' ltac:(lia)). apply prune_prune; exact Hnow'.
    + pose proof (filter_length_le (fun time => now - time <? windowMs rl) (requests rl)).
      unfold prune. lia.
    + exact Hwin.
Qed.

Lemma run_inv (times : list Z) :
  forall (rl : t) (log : list Z) (last : Z),
    1 <= maxRequests rl -> Inv rl log last ->
    nondecreasing times -> Forall (fun now => last <= now) times ->
    let '(rl', log') := run rl log times in
    maxRequests rl' = maxRequests rl /\ windowMs rl' = windowMs rl /\
    exists last', Inv rl' log' last'.
Proof.
  induction times as [|now times IH]; intros rl log last Hmax Hinv Hnd Hlast.
  - simpl. repeat split; trivial. now exists last.
  - cbn [run]. destruct Hnd as [Hhd Hnd]. inversion Hlast as [|? ? Hl0 Hl]; subst.
    pose proof (attempt_inv Hmax Hinv Hl0) as Hstep.
    destruct (attempt rl now) as [rl1 out]. destruct Hstep as (Em & Ew & Hinv1).
    destruct out.
    + specialize (IH rl1 (log ++ [now]) now ltac:(lia) Hinv1 Hnd Hhd).
      destruct (run rl1 (log ++ [now]) times) as [rl' log'].
      destruct IH as (A & B & C). repeat split; congruence || exact C.
    + specialize (IH rl1 log now ltac:(lia) Hinv1 Hnd Hhd).
      destruct (run rl1 log times) as [rl' log'].
      destruct IH as (A & B & C). repeat split; congruence || exact C.
Qed.

Lemma attempt_outcome (rl rl' : t) (now : Z) (out : Outcome) :
  attempt rl now = (rl', out) ->
  maxRequests rl' = maxRequests rl /\ windowMs rl' = windowMs rl /\
  match out with
  | Acquired => requests rl' = prune rl now ++ [now]
  | Suspend w =>
      requests rl' = prune rl now /\ 0 < w /\
      exists oldest rest,
        prune rl now = oldest :: rest /\ w = windowMs rl - (now - oldest)
  end.
Proof.
  unfold attempt, push.
  destruct (maxRequests rl <=? Z.of_nat (List.length (prune rl now)));
    [destruct (prune rl now) as [|oldest rest] eqn:Ep;
     [|destruct (0 <? windowMs rl - (now - oldest)) eqn:Ew] |];
    intros H; inversion H; subst; cbn; repeat split; trivial.
  - now apply Z.ltb_lt.
  - now exists oldest, rest.
Qed.

(** The committed reading is not earlier than the call, and it is the
    newest entry of the list. *)
Lemma acquire_commits_later (fuel : nat) :
  forall (lags : list Z) (rl rl' : t) (now t : Z),
    acquire fuel lags rl now = Some (rl', t) ->
    now <= t /\ exists reqs, requests rl' = reqs ++ [t].
Proof.
  induction fuel as [|fuel IH]; intros lags rl rl' now t H; [discriminate|].
  cbn [acquire] in H. destruct (attempt rl now) as [rl1 out] eqn:Ea.
  apply attempt_outcome in Ea. destruct Ea as (_ & _ & Hout). destruct out.
  - inversion H; subst. split; [lia|]. now exists (prune rl t).
  - destruct Hout as (_ & Hpos & _).
    apply IH in H. destruct H as [Hle Hreq]. split; [lia | exact Hreq].
Qed.

(** A caller that is not overtaken always gets through: each retry finds
    the previous oldest reading gone. *)
Lemma acquire_total (fuel : nat) :
  forall (lags : list Z) (rl : t) (now : Z),
    (List.length (prune rl now) < fuel)%nat ->
    exists rl' t, acquire fuel lags rl now = Some (rl', t).
Proof.
  induction fuel as [|fuel IH]; intros lags rl now Hf; [lia|].
  cbn [acquire]. destruct (attempt rl now) as [rl1 out] eqn:Ea.
  apply attempt_outcome in Ea. destruct Ea as (Em & Ew & Hout). destruct out.
  - now exists rl1, now.
  - destruct Hout as (Hreq & Hpos & oldest & rest & Hp & Hwait).
    apply IH. unfold prune at 1. rewrite Hreq, Ew.
    assert (Hlt : (List.length
                     (filter (fun time =>
                        (now + waitTime + Z.max 0 (hd 0 lags) - time <? windowMs rl)%Z)
                        (prune rl now))
                   < List.length (prune rl now))%nat).
    { apply filter_length_lt with (x := oldest).
      - rewrite Hp. now left.
      - apply Z.ltb_ge. lia. }
    lia.
Qed.

(** C3.  With [maxRequests >= 1], along any interleaving of callers (runs
    of the body at non-decreasing clock readings, from a new limiter) the
    tracked list never holds more than [maxRequests] readings, and no window
    [[a, a + windowMs)] contains more than [maxRequests] committed readings;
    a run of the body that finds [maxRequests] readings inside the window
    commits nothing and suspends for a positive time that ends exactly when
    the oldest of them leaves the window, and the call commits its own
    reading only at or after that instant. *)
Theorem C3_window_bound_and_suspension (rl0 : t) :
  1 <= maxRequests rl0 ->
  requests rl0 = [] ->
  (forall times, nondecreasing times ->
     let '(rl, log) := run rl0 [] times in
     Z.of_nat (List.length (requests rl)) <= maxRequests rl0
     /\ forall a, Z.of_nat (List.length (in_window (windowMs rl0) a log))
                  <= maxRequests rl0)
  /\ (forall rl now,
        maxRequests rl = maxRequests rl0 ->
        maxRequests rl <= Z.of_nat (List.length (prune rl now)) ->
        exists oldest rest,
          prune rl now = oldest :: rest
          /\ now - oldest < windowMs rl
          /\ attempt rl now =
             (mkLimiter (maxRequests rl) (windowMs rl) (prune rl now),
              Suspend (windowMs rl - (now - oldest)))
          /\ 0 < windowMs rl - (now - oldest)
          /\ forall lags,
               exists rl' t reqs,
                 acquire (S (List.length (requests rl))) lags rl now = Some (rl', t)
                 /\ requests rl' = reqs ++ [t]
                 /\ oldest + windowMs rl <= t).
Proof.
  intros Hmax Hempty. split.
  - intros times Hnd.
    assert (Hinv : Inv rl0 [] (match times with [] => 0 | now :: _ => now end)).
    { unfold Inv, prune. rewrite Hempty. cbn. repeat split; intros; lia || reflexivity. }
    assert (Hlast : Forall (fun now => match times with [] => 0 | now :: _ => now end <= now)
                           times).
    { destruct times as [|now times]; [constructor|].
      destruct Hnd as [Hhd _]. constructor; [lia | exact Hhd]. }
    pose proof (@run_inv times _ _ _ Hmax Hinv Hnd Hlast) as H.
    destruct (run rl0 [] times) as [rl log].
    destruct H as (Em & Ew & last' & _ & Hlen & Hwin).
    rewrite Em, Ew in *. split; [exact Hlen | exact Hwin].
  - intros rl now Em Hfull. rewrite <- Em in Hmax.
    destruct (attempt_cases rl now Hmax)
      as [[Hlt _] | (_ & oldest & rest & Hp & Hw & Ha)]; [lia|].
    exists oldest, rest. repeat split; trivial; [lia|].
    intros lags.
    destruct (@acquire_total (S (List.length (requests rl))) lags rl now) as (rl' & t & Hacq).
    { pose proof (filter_length_le (fun time => now - time <? windowMs rl) (requests rl)).
      unfold prune. lia. }
    pose proof Hacq as Hacq'. cbn [acquire] in Hacq'. rewrite Ha in Hacq'.
    apply acquire_commits_later in Hacq'. destruct Hacq' as [Hle [reqs Hreqs]].
    exists rl', t, reqs. repeat split; trivial. lia.
Qed.
Lemma C3_window_bound_and_suspension_witness :
  Z.of_nat (List.length (requests (fst (run two_per_second [] burst)))) <= 2
  /\ Z.of_nat (List.length (in_window 1000 10 (snd (run two_per_second [] burst)))) <= 2.
Proof.
  pose proof (proj1 (@C3_window_bound_and_suspension two_per_second
                       ltac:(cbn; lia) eq_refl)
                burst ltac:(cbn; repeat constructor; lia)) as H.
  destruct (run two_per_second [] burst) as [rl log].
  destruct H as [H1 H2]. split; [exact H1 | exact (H2 10)].
Defined.

End RateLimiterFacts.

(** ** The validation pipeline *)

Section PipelineFacts.

Import JS WhatsAppValidator PipelineSpec.
Local Open Scope string_scope.
Local Open Scope nat_scope.

Lemma grows_refl r : grows r r.
Proof.
  split; [unfold same_verdict; tauto|].
  exists []. split; [now rewrite app_nil_r | constructor].
Qed.

Lemma grows_trans r1 r2 r3 : grows r1 r2 -> grows r2 r3 -> grows r1 r3.
Proof.
  intros [V1 (l1 & E1 & F1)] [V2 (l2 & E2 & F2)]. split.
  - unfold same_verdict in *. intuition congruence.
  - exists (l1 ++ l2)%list. split.
    + now rewrite E2, E1, app_assoc.
    + apply Forall_app; auto.
Qed.

Lemma extractErrorCode_recorded (text : string) : _extractErrorCode text <> "FATAL".
Proof.
  unfold _extractErrorCode.
  destruct (find _ _) as [c|] eqn:E.
  - apply find_some in E. destruct E as [Hin _].
    simpl in Hin. intuition (subst; discriminate).
  - destruct (includes _ "timeout"); [discriminate|].
    destruct (includes _ "forbidden"); discriminate.
Qed.

(** Goals [grows r r'] where [r'] is [r] under field updates that push at
    most one recorded entry. *)
Ltac fields :=
  cbn [number jid isRegistered isActive ban review account diagnostics
       recommendations summary isBanned b_type detectionMethods mlConfidence
       available r_type estimatedTime
       probsExecuted probsSuccessful errorDetails fallbacksUsed probeResults
       upd_ban upd_review upd_account upd_diag set_registered set_summary
       push_recommendations set_banned set_ban_type set_mlConfidence push_method
       inc_executed inc_successful push_error push_fallback push_probeResult
       fst snd code].

Ltac solve_errors :=
  fields;
  first [ exists []; split; [now rewrite app_nil_r | constructor]
        | eexists; split;
          [ reflexivity
          | repeat constructor; unfold recorded; fields;
            first [ apply extractErrorCode_recorded | discriminate ] ] ].

Ltac solve_grows :=
  split; [unfold same_verdict; fields; repeat split; reflexivity | solve_errors].

Ltac run_m :=
  unfold try_catch, bind, await, _executeWithTimeout, _recordError,
    _processProbeResult, modify, ret, throw, read in *.

Ltac split_ifs :=
  repeat (cbn -[_isFatalError _extractErrorCode truthy Nat.ltb Nat.eqb
                ProbeName_str nat_str String.append];
          match goal with
          | |- context [if ?b then _ else _] => destruct b eqn:?
          end);
  cbn -[_isFatalError _extractErrorCode truthy Nat.ltb Nat.eqb
        ProbeName_str nat_str String.append].

Lemma resume_ok (cfg : Config) (c : Connection) (probe : Probe) (task : Task)
      (r : ValidationResult) :
  step_ok (pending task) pending r (resume cfg c probe task r).
Proof.
  unfold step_ok, resume, loop_head. run_m.
  destruct task as [|retry|].
  - destruct (probeCall c (name probe) 0) as [payload|e|];
      [destruct (name probe), payload as [|st] | destruct e as [|message text] |];
      split_ifs; (split; [solve_grows | repeat split; lia]).
  - destruct (probeCall c (name probe) (S retry)) as [payload|e|];
      [destruct (name probe), payload as [|st] | destruct e as [|message text] |];
      split_ifs; (split; [solve_grows | repeat split; lia]).
  - cbn. split; [solve_grows | repeat split; lia].
Qed.

Lemma step_ok_bind (A B : Type) (before : nat) (mid : A -> nat) (after : B -> nat)
      (m : M A) (k : A -> M B) (r : ValidationResult) :
  step_ok before mid r (m r) ->
  (forall a r1, step_ok (mid a) after r1 (k a r1)) ->
  step_ok before after r (bind m k r).
Proof.
  unfold step_ok, bind. intros (G & E & S1 & H) Hk.
  destruct (m r) as [r1 [a|e]]; cbn [fst snd] in *.
  - specialize (Hk a r1). destruct (k a r1) as [r2 [b|e]]; cbn [fst snd] in *;
      destruct Hk as (G' & E' & S' & H');
      (split; [eapply grows_trans; eassumption|]);
      (split; [congruence|]); (split; [lia|]);
      [lia | split; [tauto | lia]].
  - split; [exact G|]. split; [exact E|]. split; [exact S1 | exact H].
Qed.

Lemma drive_ok (cfg : Config) (c : Connection) (probe : Probe) (fuel : nat) :
  forall task r, step_ok (pending task) pending r (drive cfg c fuel probe task r).
Proof.
  induction fuel as [|fuel IH]; intros task r.
  - cbn. unfold step_ok, ret; cbn. split; [apply grows_refl | repeat split; lia].
  - cbn [drive]. destruct task.
    + apply step_ok_bind with (mid := pending); [apply resume_ok | intros; apply IH].
    + apply step_ok_bind with (mid := pending); [apply resume_ok | intros; apply IH].
    + unfold step_ok, ret; cbn. split; [apply grows_refl | repeat split; lia].
Qed.

(** Each resumption brings an activation closer to its return. *)
Lemma resume_steps_left (cfg : Config) (c : Connection) (probe : Probe) (task task' : Task)
      (r r' : ValidationResult) :
  resume cfg c probe task r = (r', Normal task') ->
  task <> Finished ->
  steps_left cfg task' < steps_left cfg task.
Proof.
  unfold resume, loop_head. run_m.
  destruct task as [|retry|]; [| |congruence]; intros H _.
  - destruct (probeCall c (name probe) 0) as [payload|e|];
      [destruct (name probe), payload as [|st] | destruct e as [|message text] |];
      revert H; split_ifs; intros H; inversion H; subst; cbn; try lia.
  - destruct (probeCall c (name probe) (S retry)) as [payload|e|];
      [destruct (name probe), payload as [|st] | destruct e as [|message text] |];
      revert H; split_ifs; intros H; inversion H; subst; cbn;
      rewrite ?Nat.ltb_lt in *; try lia.
Qed.

(** With fuel for the remaining resumptions, [drive] ends with the
    activation returned. *)
Lemma drive_finishes (cfg : Config) (c : Connection) (probe : Probe) (fuel : nat) :
  forall task task' r r',
    steps_left cfg task <= fuel ->
    drive cfg c fuel probe task r = (r', Normal task') ->
    task' = Finished.
Proof.
  induction fuel as [|fuel IH]; intros task task' r r' Hf H.
  - destruct task; cbn in Hf; try lia. cbn in H. unfold ret in H. congruence.
  - cbn [drive] in H. destruct task; try (unfold ret in H; congruence).
    + unfold bind in H. destruct (resume cfg c probe AwaitFirst r) as [r1 [t1|e]] eqn:E;
        [|discriminate].
      apply resume_steps_left in E; [|discriminate].
      eapply IH; [|exact H]. lia.
    + unfold bind in H.
      destruct (resume cfg c probe (AwaitRetry retry) r) as [r1 [t1|e]] eqn:E;
        [|discriminate].
      apply resume_steps_left in E; [|discriminate].
      eapply IH; [|exact H]. lia.
Qed.

Lemma executeProbe_ok (cfg : Config) (c : Connection) (probe : Probe)
      (r : ValidationResult) :
  let res := _executeProbe cfg c probe r in
  grows r (fst res)
  /\ probsExecuted (diagnostics (fst res)) = S (probsExecuted (diagnostics r))
  /\ probsSuccessful (diagnostics r) <= probsSuccessful (diagnostics (fst res))
  /\ probsSuccessful (diagnostics (fst res)) <= S (probsSuccessful (diagnostics r))
  /\ match snd res with
     | Normal task => task = Finished
     | Throw e => e = TypeError nullish_message
     end.
Proof.
  unfold _executeProbe, start. run_m. cbn [fst snd].
  pose proof (drive_ok cfg c probe (steps_left cfg AwaitFirst) AwaitFirst
                       (upd_diag inc_executed r)) as (G & E & S1 & H).
  pose proof (@drive_finishes cfg c probe (steps_left cfg AwaitFirst) AwaitFirst) as F.
  destruct (drive cfg c (steps_left cfg AwaitFirst) probe AwaitFirst
                  (upd_diag inc_executed r)) as [r' out] eqn:Ed.
  cbn [fst snd pending] in *.
  split; [eapply grows_trans; [|exact G]; solve_grows|].
  cbn [upd_diag inc_executed diagnostics probsSuccessful probsExecuted] in *.
  split; [rewrite E; reflexivity|].
  split; [exact S1|].
  destruct out as [task|e].
  - split; [lia|]. eapply F; [|exact Ed]. lia.
  - split; [lia | tauto].
Qed.

Lemma for_each_probe_ok (cfg : Config) (c : Connection) (probes : list Probe) :
  forall r, probes_ok (List.length probes) r (for_each_probe cfg c probes r).
Proof.
  induction probes as [|probe rest IH]; intros r.
  - cbn. unfold probes_ok, ret; cbn. split; [apply grows_refl | repeat split; lia].
  - cbn [for_each_probe]. unfold bind.
    pose proof (executeProbe_ok cfg c probe r) as (G & E & S1 & S2 & H).
    destruct (_executeProbe cfg c probe r) as [r1 [task|e]]; cbn [fst snd] in *.
    + specialize (IH r1). unfold probes_ok in *.
      destruct (for_each_probe cfg c rest r1) as [r2 out]; cbn [fst snd] in *.
      destruct IH as (G' & E1 & E2 & S' & Sl & H').
      split; [eapply grows_trans; eassumption|].
      cbn [List.length]. repeat split; try lia.
      destruct out; [lia | exact H'].
    + unfold probes_ok; cbn [fst snd List.length].
      split; [exact G|]. split; [lia|]. split; [lia|]. split; [lia|].
      split; [lia | exact H].
Qed.

Lemma pool_ok_refl r pool : pool_ok r pool (r, pool).
Proof. unfold pool_ok; cbn [fst snd]. split; [apply grows_refl | repeat split; lia]. Qed.

Lemma pool_ok_trans r pool res1 res2 :
  pool_ok r pool res1 -> pool_ok (fst res1) (snd res1) res2 -> pool_ok r pool res2.
Proof.
  unfold pool_ok. intros (G & E & S1 & H) (G' & E' & S' & H').
  split; [eapply grows_trans; eassumption | repeat split; lia || congruence].
Qed.

Lemma settle_ok (cfg : Config) (c : Connection) (probe : Probe) (task : Task)
      (r : ValidationResult) :
  let res := settle cfg c probe task r in
  grows r (fst res)
  /\ probsExecuted (diagnostics (fst res)) = probsExecuted (diagnostics r)
  /\ probsSuccessful (diagnostics r) <= probsSuccessful (diagnostics (fst res))
  /\ probsSuccessful (diagnostics (fst res)) + pending (snd res)
     <= probsSuccessful (diagnostics r) + pending task.
Proof.
  unfold settle. pose proof (resume_ok cfg c probe task r) as (G & E & S1 & H).
  destruct (resume cfg c probe task r) as [r1 [task'|e]]; cbn [fst snd pending] in *;
    [|destruct H as [_ H]];
    (split; [exact G|]); (split; [exact E|]); (split; [exact S1 | lia]).
Qed.

Lemma advance_ok (cfg : Config) (c : Connection) (i : nat) :
  forall pool r, pool_ok r pool (advance cfg c i pool r).
Proof.
  induction i as [|i IH]; intros pool r; destruct pool as [|[probe task] rest];
    cbn [advance]; try apply pool_ok_refl.
  - pose proof (settle_ok cfg c probe task r) as (G & E & S1 & H).
    destruct (settle cfg c probe task r) as [r1 task']; cbn [fst snd] in *.
    unfold pool_ok; cbn [fst snd pool_pending].
    split; [exact G|]. split; [exact E|]. split; [exact S1 | lia].
  - specialize (IH rest r). destruct (advance cfg c i rest r) as [r1 rest'].
    unfold pool_ok in *; cbn [fst snd pool_pending] in *.
    destruct IH as (G & E & S1 & H).
    split; [exact G|]. split; [exact E|]. split; [exact S1 | lia].
Qed.

Lemma run_schedule_ok (cfg : Config) (c : Connection) (sched : list nat) :
  forall pool r, pool_ok r pool (run_schedule cfg c sched pool r).
Proof.
  induction sched as [|i sched IH]; intros pool r; cbn [run_schedule].
  - apply pool_ok_refl.
  - pose proof (advance_ok cfg c i pool r) as H1.
    destruct (advance cfg c i pool r) as [r1 pool1].
    eapply pool_ok_trans; [exact H1 | apply IH].
Qed.

Lemma complete_ok (cfg : Config) (c : Connection) (probe : Probe) (fuel : nat) :
  forall task r,
    let res := complete cfg c fuel probe task r in
    grows r (fst res)
    /\ probsExecuted (diagnostics (fst res)) = probsExecuted (diagnostics r)
    /\ probsSuccessful (diagnostics r) <= probsSuccessful (diagnostics (fst res))
    /\ probsSuccessful (diagnostics (fst res)) + pending (snd res)
       <= probsSuccessful (diagnostics r) + pending task.
Proof.
  induction fuel as [|fuel IH]; intros task r; cbn [complete].
  - cbn. split; [apply grows_refl | repeat split; lia].
  - assert (Hstep : forall t, t = task ->
              let res := (let '(r', task') := settle cfg c probe t r in
                          complete cfg c fuel probe task' r') in
              grows r (fst res)
              /\ probsExecuted (diagnostics (fst res)) = probsExecuted (diagnostics r)
              /\ probsSuccessful (diagnostics r) <= probsSuccessful (diagnostics (fst res))
              /\ probsSuccessful (diagnostics (fst res)) + pending (snd res)
                 <= probsSuccessful (diagnostics r) + pending task).
    { intros t ->. pose proof (settle_ok cfg c probe task r) as (G & E & S1 & H).
      destruct (settle cfg c probe task r) as [r1 task1]; cbn [fst snd] in *.
      specialize (IH task1 r1). cbv zeta in *.
      destruct (complete cfg c fuel probe task1 r1) as [r2 task2]; cbn [fst snd] in *.
      destruct IH as (G' & E' & S' & H').
      split; [eapply grows_trans; eassumption | repeat split; lia || congruence]. }
    destruct task; [apply Hstep; reflexivity | apply Hstep; reflexivity |].
    cbn. split; [apply grows_refl | repeat split; lia].
Qed.

Lemma complete_all_ok (cfg : Config) (c : Connection) (pool : list (Probe * Task)) :
  forall r, pool_ok r pool (complete_all cfg c pool r).
Proof.
  induction pool as [|[probe task] rest IH]; intros r; cbn [complete_all].
  - apply pool_ok_refl.
  - pose proof (complete_ok cfg c probe (steps_left cfg task) task r) as H1.
    cbv zeta in H1.
    destruct (complete cfg c (steps_left cfg task) probe task r) as [r1 task1];
      cbn [fst snd] in *.
    specialize (IH r1). destruct (complete_all cfg c rest r1) as [r2 rest'].
    unfold pool_ok in *; cbn [fst snd pool_pending] in *.
    destruct H1 as (G & E & S1 & H). destruct IH as (G' & E' & S' & H').
    split; [eapply grows_trans; eassumption|].
    split; [congruence|]. split; lia.
Qed.

Lemma start_all_ok (cfg : Config) (probes : list Probe) :
  forall r,
    let res := start_all probes r in
    grows r (fst res)
    /\ probsExecuted (diagnostics (fst res))
       = probsExecuted (diagnostics r) + List.length probes
    /\ probsSuccessful (diagnostics (fst res)) = probsSuccessful (diagnostics r)
    /\ pool_pending (snd res) <= List.length probes.
Proof.
  induction probes as [|probe rest IH]; intros r; cbn [start_all].
  - cbn. split; [apply grows_refl | repeat split; lia].
  - unfold start. run_m. specialize (IH (upd_diag inc_executed r)). cbv zeta in IH.
    destruct (start_all rest (upd_diag inc_executed r)) as [r1 pool]; cbn [fst snd] in *.
    destruct IH as (G & E & S1 & H).
    split; [eapply grows_trans; [|exact G]; solve_grows|].
    cbn [fst snd pool_pending pending List.length upd_diag inc_executed
         diagnostics probsExecuted probsSuccessful] in *.
    split; [lia|]. split; lia.
Qed.

Lemma all_settled_ok (cfg : Config) (c : Connection) (sched : list nat)
      (probes : list Probe) (r : ValidationResult) :
  probes_ok (List.length probes) r (fst (all_settled cfg c sched probes r), Normal tt).
Proof.
  unfold all_settled.
  pose proof (start_all_ok cfg probes r) as H1. cbv zeta in H1.
  destruct (start_all probes r) as [r1 pool1]; cbn [fst snd] in *.
  pose proof (run_schedule_ok cfg c sched pool1 r1) as H2.
  destruct (run_schedule cfg c sched pool1 r1) as [r2 pool2].
  pose proof (complete_all_ok cfg c pool2 r2) as H3.
  destruct (complete_all cfg c pool2 r2) as [r3 pool3].
  unfold probes_ok, pool_ok in *; cbn [fst snd] in *.
  destruct H1 as (G1 & E1 & S1 & P1), H2 as (G2 & E2 & S2 & P2),
           H3 as (G3 & E3 & S3 & P3).
  split; [eapply grows_trans; [eapply grows_trans|]; eassumption|].
  repeat split; lia.
Qed.

Lemma executeProbes_ok (cfg : Config) (c : Connection) (sched : list nat)
      (r : ValidationResult) :
  probes_ok (List.length (_buildProbeList cfg)) r (_executeProbes cfg c sched r).
Proof.
  unfold _executeProbes. destruct (parallelProbes cfg).
  - apply all_settled_ok.
  - apply for_each_probe_ok.
Qed.

(** *** Stages of the pipeline *)

Lemma checkRegistration_eq (c : Connection) (r : ValidationResult) :
  _checkRegistration c r =
  match onWhatsApp c with
  | Returns check =>
      if exists_flag check
      then (upd_diag inc_successful
              (upd_diag inc_executed
                 (upd_ban (push_method "registration_verified")
                    (set_registered true r))),
            Normal tt)
      else (set_registered false r, Normal tt)
  | Fails ErrNullish => (r, Throw (TypeError nullish_message))
  | Fails (ErrValue message text) =>
      (upd_diag (push_error
         (mkErrorDetail "registration" (if truthy message then message else text)
                        (_extractErrorCode text))) r,
       Normal tt)
  | Hangs =>
      (upd_diag (push_error
         (mkErrorDetail "registration" "Operation timeout" "TIMEOUT")) r,
       Normal tt)
  end.
Proof.
  unfold _checkRegistration. run_m.
  destruct (onWhatsApp c) as [check|[|message text]|]; cbn; try reflexivity.
  destruct (exists_flag check); reflexivity.
Qed.

Lemma stage_ok_refl r : stage_ok r r.
Proof.
  split; [tauto|]. split; [tauto|].
  exists []. split; [now rewrite app_nil_r | constructor].
Qed.

Lemma stage_ok_trans r1 r2 r3 : stage_ok r1 r2 -> stage_ok r2 r3 -> stage_ok r1 r3.
Proof.
  intros (C1 & N1 & l1 & E1 & F1) (C2 & N2 & l2 & E2 & F2).
  split; [tauto|]. split; [tauto|].
  exists (l1 ++ l2)%list. split; [now rewrite E2, E1, app_assoc | now apply Forall_app].
Qed.

Lemma m_ok_ret (A : Type) (a : A) : m_ok (ret a).
Proof. intros r. split; [apply stage_ok_refl | discriminate]. Qed.

Lemma m_ok_bind (A B : Type) (m : M A) (k : A -> M B) :
  m_ok m -> (forall a, m_ok (k a)) -> m_ok (bind m k).
Proof.
  intros Hm Hk r. unfold bind. destruct (Hm r) as [S1 T1].
  destruct (m r) as [r1 [a|e]]; cbn [fst snd] in *.
  - destruct (Hk a r1) as [S2 T2]. split; [eapply stage_ok_trans; eassumption | exact T2].
  - split; [exact S1|]. intros e0 H. inversion H; subst. now apply T1.
Qed.

(** A stage that keeps the verdict fields and the counters' order. *)
Lemma grows_stage_ok r r' :
  grows r r' ->
  (probsSuccessful (diagnostics r) <= probsExecuted (diagnostics r) ->
   probsSuccessful (diagnostics r') <= probsExecuted (diagnostics r')) ->
  stage_ok r r'.
Proof.
  intros [V L] N. split; [|split; [exact N | exact L]].
  unfold coherent, same_verdict in *.
  destruct V as (_ & _ & _ & _ & Vb & Vt & _ & Vr & _). rewrite Vb, Vt, Vr. tauto.
Qed.

Lemma checkRegistration_ok (c : Connection) : m_ok (_checkRegistration c).
Proof.
  intros r. rewrite checkRegistration_eq.
  destruct (onWhatsApp c) as [check|[|message text]|];
    [destruct (exists_flag check)| | |]; cbn [fst snd];
    (split; [split; [unfold coherent; cbn; tauto
                    | split; [cbn; lia | solve_errors]]
            | intros e H; inversion H; reflexivity]).
Qed.

Lemma executeProbes_m_ok (cfg : Config) (c : Connection) (sched : list nat) :
  m_ok (_executeProbes cfg c sched).
Proof.
  intros r. pose proof (executeProbes_ok cfg c sched r) as (G & E1 & E2 & S1 & S2 & H).
  split; [apply grows_stage_ok; [exact G | lia]|].
  intros e He. rewrite He in H. exact H.
Qed.

(** Goals [stage_ok r r'] where [r'] is [r] under updates of the verdict. *)
Ltac solve_stage :=
  split; [unfold coherent; cbn; intros; (discriminate || congruence || tauto || auto)|];
  split; [cbn; tauto|];
  cbn; exists []; split; [now rewrite app_nil_r | constructor].

Lemma analyzePatterns_ok : m_ok _analyzePatterns.
Proof.
  intros r. unfold _analyzePatterns. run_m.
  destruct (find _ ERROR_PATTERNS) as [[banType pattern]|]; split_ifs;
    (split; [solve_stage | discriminate]).
Qed.

Lemma analyzeReviewOptions_ok : m_ok _analyzeReviewOptions.
Proof.
  intros r. unfold _analyzeReviewOptions. run_m.
  destruct (isBanned (ban r)) eqn:Eb; cbn -[reviewConfig];
    [destruct (reviewConfig (b_type (ban r))); cbn|];
    (split; [solve_stage | discriminate]).
Qed.

Lemma finalizeResult_ok : m_ok _finalizeResult.
Proof.
  intros r. unfold _finalizeResult. run_m. cbn.
  split; [solve_stage | discriminate].
Qed.

Lemma m_ok_read : m_ok read.
Proof. intros r. split; [apply stage_ok_refl | discriminate]. Qed.

Lemma stage3_ok (v : Validator) : m_ok (stage3 v).
Proof.
  unfold stage3. destruct (mlDetector v) as [d|].
  - intros r1. run_m.
    destruct (MLPatternDetector.analyze d _ _) as [d' mlPrediction].
    split_ifs; (split; [solve_stage | discriminate]).
  - apply m_ok_bind; [apply analyzePatterns_ok | intros; apply m_ok_ret].
Qed.

Lemma pipeline_ok (v : Validator) (env : Env) : m_ok (_executePipeline v env).
Proof.
  unfold _executePipeline.
  apply m_ok_bind; [apply checkRegistration_ok | intros _].
  apply m_ok_bind; [apply m_ok_read | intros r].
  destruct (negb (isRegistered r)).
  - intros r1. unfold _finalizeResult. run_m. cbn.
    split; [solve_stage | discriminate].
  - apply m_ok_bind; [apply executeProbes_m_ok | intros _].
    apply m_ok_bind; [apply stage3_ok | intros ml].
    apply m_ok_bind; [apply analyzeReviewOptions_ok | intros _].
    apply m_ok_bind; [apply finalizeResult_ok | intros _].
    apply m_ok_ret.
Qed.
End PipelineFacts.

Section JsMapFacts.

Import PipelineSpec.

Variable V : Type.

Lemma JsMap_get_In (m : JsMap.t V) (k : string) (v : V) :
  JsMap.get m k = Some v -> exists k', In (k', v) m.
Proof.
  induction m as [|[k' v'] m IH]; cbn; [discriminate|].
  destruct (String.eqb k' k).
  - intros H; inversion H; subst. exists k'. now left.
  - intros H. destruct (IH H) as [k0 H0]. exists k0. now right.
Qed.

Lemma JsMap_get_set (m : JsMap.t V) (k : string) (v : V) :
  JsMap.get (JsMap.set m k v) k = Some v.
Proof.
  induction m as [|[k' v'] m IH]; cbn.
  - now rewrite String.eqb_refl.
  - destruct (String.eqb k' k) eqn:E; cbn; rewrite E; [reflexivity | exact IH].
Qed.

Lemma JsMap_set_Forall (P : V -> Prop) (m : JsMap.t V) (k : string) (v : V) :
  Forall (fun kv => P (snd kv)) m -> P v ->
  Forall (fun kv => P (snd kv)) (JsMap.set m k v).
Proof.
  intros Hm Hv. induction m as [|[k' v'] m IH]; cbn.
  - constructor; [exact Hv | constructor].
  - inversion Hm; subst. destruct (String.eqb k' k); constructor; auto.
Qed.

Lemma JsMap_delete_Forall (P : V -> Prop) (m : JsMap.t V) (k : string) :
  Forall (fun kv => P (snd kv)) m ->
  Forall (fun kv => P (snd kv)) (JsMap.delete m k).
Proof.
  intros Hm. induction m as [|[k' v'] m IH]; cbn; [constructor|].
  inversion Hm; subst. destruct (String.eqb k' k); [assumption | constructor; auto].
Qed.

End JsMapFacts.

Section CacheFacts.

Import PipelineSpec.

Variable V : Type.
Variable Q : V -> Prop.

Lemma cache_get_ok (c : ValidationCache.t V) (key : string) (now : Z) :
  entries_ok Q c ->
  entries_ok Q (fst (ValidationCache.get c key now))
  /\ forall d, snd (ValidationCache.get c key now) = Some d -> Q d.
Proof.
  unfold entries_ok, ValidationCache.get. intros Hc.
  destruct (JsMap.get (ValidationCache.cache c) key) as [entry|] eqn:Eg.
  - destruct (JsMap_get_In _ _ Eg) as [k' Hin].
    assert (Hq : Q (ValidationCache.data entry)).
    { rewrite Forall_forall in Hc. exact (Hc _ Hin). }
    destruct (_ <? _)%Z; cbn.
    + split; [now apply (@JsMap_delete_Forall _ (fun e => Q (ValidationCache.data e)))
             | discriminate].
    + split.
      * apply (@JsMap_set_Forall _ (fun e => Q (ValidationCache.data e))); assumption.
      * intros d H; inversion H; subst. exact Hq.
  - cbn. split; [exact Hc | discriminate].
Qed.

Lemma cache_evict_ok (c : ValidationCache.t V) :
  entries_ok Q c -> entries_ok Q (ValidationCache._evictLRU c).
Proof.
  unfold entries_ok, ValidationCache._evictLRU. intros Hc.
  destruct (fst (ValidationCache.lru_scan (ValidationCache.cache c))) as [oldest|];
    [|exact Hc].
  destruct (JS.truthy oldest); [|exact Hc]. cbn.
  now apply (@JsMap_delete_Forall _ (fun e => Q (ValidationCache.data e))).
Qed.

Lemma cache_set_ok (c : ValidationCache.t V) (key : string) (d : V) (now : Z) :
  entries_ok Q c -> Q d -> entries_ok Q (ValidationCache.set c key d now).
Proof.
  intros Hc Hd. unfold ValidationCache.set.
  destruct (_ <=? _)%Z; unfold entries_ok; cbn;
    apply (@JsMap_set_Forall _ (fun e => Q (ValidationCache.data e))); trivial.
  now apply cache_evict_ok.
Qed.

Lemma cache_get_after_set (c : ValidationCache.t V) (key : string) (d : V) (now : Z) :
  JsMap.get (ValidationCache.cache (ValidationCache.set c key d now)) key
  = Some (ValidationCache.mkEntry d now now 1).
Proof.
  unfold ValidationCache.set. destruct (_ <=? _)%Z; cbn; apply JsMap_get_set.
Qed.

End CacheFacts.


Section ValidateFacts.

Import JS WhatsAppValidator PipelineSpec.
Local Open Scope string_scope.
Local Open Scope nat_scope.

Lemma fresh_inv (phoneNumber j : string) :
  result_inv (_createResultObject phoneNumber j) /\ coherent (_createResultObject phoneNumber j).
Proof. unfold result_inv, coherent; cbn. repeat split; lia || reflexivity. Qed.

(** What the pipeline leaves of a fresh result object, whether it completes
    or throws. *)
Lemma pipeline_fresh (v : Validator) (env : Env) (phoneNumber : string) :
  let res := _executePipeline v env
               (_createResultObject phoneNumber (_normalizeJID phoneNumber)) in
  result_inv (fst res)
  /\ Forall recorded (errorDetails (diagnostics (fst res)))
  /\ forall e, snd res = Throw e -> e = TypeError nullish_message.
Proof.
  cbv zeta.
  destruct (pipeline_ok v env
              (_createResultObject phoneNumber (_normalizeJID phoneNumber)))
    as [(Hc & Hn & l & El & Fl) Ht].
  split; [|split; [|exact Ht]].
  - split; [apply Hn; cbn; lia|]. apply Hc. apply fresh_inv.
  - rewrite El. cbn. exact Fl.
Qed.

Lemma critical_ok (r : ValidationResult) :
  result_inv r ->
  exists r', critical (TypeError nullish_message) r = Normal r'
             /\ result_inv r'
             /\ summary r' = "Critical validation error"
             /\ errorDetails (diagnostics r')
                = (errorDetails (diagnostics r)
                   ++ [mkErrorDetail "critical" nullish_message "FATAL"])%list.
Proof.
  intros Hr. eexists. split; [reflexivity|]. split; [|split; reflexivity].
  exact Hr.
Qed.

Lemma validate_fresh_ok (v : Validator) (phoneNumber : string) (env : Env) :
  validator_ok v ->
  validator_ok (fst (validate_fresh v phoneNumber env))
  /\ exists r, snd (validate_fresh v phoneNumber env) = Normal r /\ result_inv r.
Proof.
  intros Hv. unfold validate_fresh.
  pose proof (pipeline_fresh v env phoneNumber) as (Hr & _ & Ht). cbv zeta in *.
  destruct (_executePipeline v env _) as [r [ml|e]]; cbn [fst snd] in *.
  - split; [|now exists r].
    unfold validator_ok in *; cbn. destruct (cache v) as [c|]; [|exact I].
    now apply cache_set_ok.
  - rewrite (Ht e eq_refl). destruct (critical_ok Hr) as (r' & -> & Hr' & _).
    split; [exact Hv | now exists r'].
Qed.

Lemma validate_ok (v : Validator) (phoneNumber : string) (options : ValidateOptions)
      (env : Env) :
  validator_ok v ->
  validator_ok (fst (validate v phoneNumber options env))
  /\ exists r, snd (validate v phoneNumber options env) = Normal r /\ result_inv r.
Proof.
  intros Hv. unfold validate.
  destruct (cache v) as [c|] eqn:Ec; [|now apply validate_fresh_ok].
  destruct (negb (skipCache options)); [|now apply validate_fresh_ok].
  assert (Hc : entries_ok result_inv c) by (unfold validator_ok in Hv; now rewrite Ec in Hv).
  destruct (cache_get_ok (cacheKey phoneNumber) (now_lookup env) Hc) as [Hc' Hd].
  destruct (ValidationCache.get c (cacheKey phoneNumber) (now_lookup env))
    as [c' [cached|]]; cbn [fst snd] in *.
  - split; [exact Hc' | exists cached; split; [reflexivity | now apply Hd]].
  - apply validate_fresh_ok. exact Hc'.
Qed.

Lemma new_ok (cfg : Config) : validator_ok (new cfg).
Proof.
  unfold validator_ok, new; cbn. destruct (enableCache cfg); [constructor | exact I].
Qed.

Lemma session_ok (calls : list Call) :
  forall v, validator_ok v ->
    Forall (fun out => exists r, out = Normal r /\ result_inv r) (snd (session v calls)).
Proof.
  induction calls as [|[[phoneNumber options] env] calls IH]; intros v Hv; cbn [session].
  - constructor.
  - destruct (@validate_ok v phoneNumber options env Hv) as [Hv' Hr].
    destruct (validate v phoneNumber options env) as [v' out]; cbn [fst snd] in *.
    specialize (IH v' Hv'). destruct (session v' calls) as [v'' outs]; cbn [snd] in *.
    constructor; assumption.
Qed.

(** C2.  Every call of [validate] in a session on a new validator returns
    a result (it does not throw) whose [probsSuccessful] is at most
    [probsExecuted] and which, if [ban.isBanned] is false, has
    [review.available] false and [ban.type] none. *)
Theorem C2_every_result_is_coherent (cfg : Config) (calls : list Call) :
  Forall (fun out => exists r, out = Normal r /\ result_inv r)
         (snd (session (new cfg) calls)).
Proof. apply session_ok. apply new_ok. Qed.

(** *** The path taken after a cache miss *)

Lemma validate_miss (v : Validator) (phoneNumber : string) (options : ValidateOptions)
      (env : Env) :
  cache_hit v phoneNumber options env = None ->
  exists v0,
    validate v phoneNumber options env = validate_fresh v0 phoneNumber env
    /\ config v0 = config v /\ mlDetector v0 = mlDetector v /\ health v0 = health v.
Proof.
  unfold cache_hit, validate. intros H.
  destruct (cache v) as [c|]; [|now exists v].
  destruct (negb (skipCache options)); [|now exists v].
  destruct (ValidationCache.get c (cacheKey phoneNumber) (now_lookup env))
    as [c' [cached|]]; [discriminate|].
  eexists. split; [reflexivity|]. cbn. auto.
Qed.

(** The pipeline reads the configuration and the detector of the validator,
    nothing else. *)
Lemma pipeline_ext (v v0 : Validator) (env : Env) :
  config v0 = config v -> mlDetector v0 = mlDetector v ->
  _executePipeline v0 env = _executePipeline v env.
Proof.
  intros Ec Em. unfold _executePipeline, stage3. now rewrite Ec, Em.
Qed.

Lemma pipeline_not_registered (v : Validator) (env : Env) (check : option (list bool))
      (r0 : ValidationResult) :
  onWhatsApp (conn env) = Returns check ->
  exists_flag check = false ->
  _executePipeline v env r0 =
  (set_summary "Not registered or permanently banned"
     (upd_ban (set_ban_type PERMANENT) (upd_ban set_banned (set_registered false r0))),
   Normal (mlDetector v)).
Proof.
  intros Hc He. unfold _executePipeline, bind. rewrite checkRegistration_eq, Hc, He.
  reflexivity.
Qed.

(** C1.  When the lookup misses and the registration check answers
    not-exists, [validate] returns a result with [ban.isBanned] true,
    [ban.type] permanent, [review.available] false, the summary
    "Not registered or permanently banned" and [probsExecuted] still 0; no
    probe result was recorded and the detector is as before (neither the
    probe stage nor the classifier ran). *)
Theorem C1_not_registered_is_permanent (v : Validator) (phoneNumber : string)
        (options : ValidateOptions) (env : Env) (check : option (list bool)) :
  cache_hit v phoneNumber options env = None ->
  onWhatsApp (conn env) = Returns check ->
  exists_flag check = false ->
  exists v' r,
    validate v phoneNumber options env = (v', Normal r)
    /\ isRegistered r = false
    /\ isBanned (ban r) = true
    /\ b_type (ban r) = PERMANENT
    /\ available (review r) = false
    /\ summary r = "Not registered or permanently banned"
    /\ probsExecuted (diagnostics r) = 0
    /\ probeResults (diagnostics r) = []
    /\ mlDetector v' = mlDetector v.
Proof.
  intros Hmiss Hc He.
  destruct (validate_miss v phoneNumber options env Hmiss) as (v0 & -> & Ec & Em & _).
  unfold validate_fresh.
  rewrite (pipeline_not_registered v0 env _ Hc He).
  eexists. eexists. split; [reflexivity|]. cbn. repeat split. exact Em.
Qed.

(** C9.  When the lookup misses and a stage of the pipeline throws,
    [validate] returns normally: the result is the object as the throw left
    it, with the summary "Critical validation error" and one more entry in
    [errorDetails], coded FATAL and carrying the message of the thrown
    value; no earlier entry is coded FATAL. *)
Theorem C9_throw_becomes_critical_result (v : Validator) (phoneNumber : string)
        (options : ValidateOptions) (env : Env) (r_t : ValidationResult) (e : JsError) :
  cache_hit v phoneNumber options env = None ->
  _executePipeline v env (_createResultObject phoneNumber (_normalizeJID phoneNumber))
    = (r_t, Throw e) ->
  exists v' r message text,
    validate v phoneNumber options env = (v', Normal r)
    /\ e = ErrValue message text
    /\ summary r = "Critical validation error"
    /\ errorDetails (diagnostics r)
       = (errorDetails (diagnostics r_t)
          ++ [mkErrorDetail "critical" message "FATAL"])%list
    /\ Forall (fun d => code d <> "FATAL") (errorDetails (diagnostics r_t)).
Proof.
  intros Hmiss Hp.
  destruct (validate_miss v phoneNumber options env Hmiss) as (v0 & -> & Ec & Em & _).
  unfold validate_fresh. rewrite (@pipeline_ext v v0 env Ec Em), Hp.
  pose proof (pipeline_fresh v env phoneNumber) as (Hr & Hf & Ht).
  cbv zeta in *. rewrite Hp in *. cbn [fst snd] in *.
  rewrite (Ht e eq_refl).
  eexists. eexists. exists nullish_message. eexists.
  split; [reflexivity|]. split; [reflexivity|]. split; [reflexivity|].
  split; [reflexivity | exact Hf].
Qed.

Lemma cacheKey_inj (p q : string) : cacheKey p = cacheKey q -> p = q.
Proof. unfold cacheKey. cbn. intros H. now inversion H. Qed.

(** C7, amended.  The cache key is the tag "validate:" followed by the
    phone number as given (not by its normalized identifier); two inputs
    have the same key only if they are the same string; and whenever
    [validate] returns a result other than the critical-error one, that
    result is the value cached under this key. *)
Theorem C7_cache_key_is_the_raw_input (v : Validator) (phoneNumber : string)
        (options : ValidateOptions) (env : Env) :
  cacheKey phoneNumber = "validate:" ++ phoneNumber
  /\ (forall q, cacheKey q = cacheKey phoneNumber -> q = phoneNumber)
  /\ (forall c v' r,
        cache v = Some c ->
        validate v phoneNumber options env = (v', Normal r) ->
        summary r <> "Critical validation error" ->
        exists c' entry,
          cache v' = Some c'
          /\ JsMap.get (ValidationCache.cache c') ("validate:" ++ phoneNumber)
             = Some entry
          /\ ValidationCache.data entry = r).
Proof.
  split; [reflexivity|]. split; [intros q; apply cacheKey_inj|].
  intros c v' r Hc Hv Hs. fold (cacheKey phoneNumber).
  assert (Hfresh : forall v0 c0,
             cache v0 = Some c0 ->
             validate_fresh v0 phoneNumber env = (v', Normal r) ->
             exists c' entry,
               cache v' = Some c'
               /\ JsMap.get (ValidationCache.cache c') (cacheKey phoneNumber) = Some entry
               /\ ValidationCache.data entry = r).
  { intros v0 c0 Hc0 Hf. unfold validate_fresh in Hf.
    pose proof (pipeline_fresh v0 env phoneNumber) as (_ & _ & Ht). cbv zeta in Ht.
    destruct (_executePipeline v0 env _) as [r1 [ml|e]]; cbn [fst snd] in *.
    - inversion Hf; subst. rewrite Hc0. cbn [cache].
      eexists. eexists. split; [reflexivity|].
      split; [apply cache_get_after_set | reflexivity].
    - rewrite (Ht e eq_refl) in Hf. cbn in Hf. inversion Hf; subst.
      exfalso. apply Hs. reflexivity. }
  unfold validate in Hv. rewrite Hc in Hv.
  destruct (negb (skipCache options)); [|eapply Hfresh; eassumption].
  unfold ValidationCache.get in Hv.
  destruct (JsMap.get (ValidationCache.cache c) (cacheKey phoneNumber)) as [entry|] eqn:Eg.
  - destruct (_ <? _)%Z.
    + eapply Hfresh; [|exact Hv]. reflexivity.
    + inversion Hv; subst. cbn [cache].
      eexists. eexists. split; [reflexivity|]. cbn [ValidationCache.cache].
      split; [apply JsMap_get_set | reflexivity].
  - eapply Hfresh; [|exact Hv]. reflexivity.
Qed.

End ValidateFacts.

(** ** The counters and the registration check *)

Section CounterFacts.

Import JS WhatsAppValidator PipelineSpec CounterSpec.
Local Open Scope string_scope.
Local Open Scope nat_scope.






Ltac blind_modify := intros r; destruct r as [? ? ? ? ? ? ? [? ? ? ? ?] ? ?]; reflexivity.


















End CounterFacts.

Section PipelineShape.
Import JS WhatsAppValidator PipelineSpec CounterSpec Scenarios.
Local Open Scope string_scope.
Local Open Scope nat_scope.

(** Stages 4 and 6 complete normally and touch neither the diagnostics, nor
    the ban record, nor the registration flag. *)
Lemma analyzeReviewOptions_keeps (r : ValidationResult) :
  snd (_analyzeReviewOptions r) = Normal tt
  /\ diagnostics (fst (_analyzeReviewOptions r)) = diagnostics r
  /\ ban (fst (_analyzeReviewOptions r)) = ban r
  /\ isRegistered (fst (_analyzeReviewOptions r)) = isRegistered r.
Proof.
  unfold _analyzeReviewOptions, bind, read, modify, ret.
  destruct (negb (isBanned (ban r))); [repeat split|].
  destruct (reviewConfig (b_type (ban r))); repeat split.
Qed.

Lemma finalizeResult_keeps (r : ValidationResult) :
  snd (_finalizeResult r) = Normal tt
  /\ diagnostics (fst (_finalizeResult r)) = diagnostics r
  /\ ban (fst (_finalizeResult r)) = ban r
  /\ isRegistered (fst (_finalizeResult r)) = isRegistered r.
Proof. repeat split. Qed.

(** The stages a completed pipeline went through on a registered account. *)
Lemma pipeline_registered (v : Validator) (env : Env) (r0 r : ValidationResult)
      (ml' : option MLPatternDetector.t) :
  _executePipeline v env r0 = (r, Normal ml') ->
  isRegistered r = true ->
  exists r1 r2 r3,
    _checkRegistration (conn env) r0 = (r1, Normal tt)
    /\ isRegistered r1 = true
    /\ _executeProbes (config v) (conn env) (schedule env) r1 = (r2, Normal tt)
    /\ stage3 v r2 = (r3, Normal ml')
    /\ diagnostics r = diagnostics r3
    /\ ban r = ban r3.
Proof.
  unfold _executePipeline. unfold bind at 1.
  destruct (_checkRegistration (conn env) r0) as [r1 [[]|e]] eqn:E1; [|discriminate].
  unfold bind at 1. unfold read at 1.
  destruct (isRegistered r1) eqn:Er; cbn [negb].
  - unfold bind at 1.
    pose proof (executeProbes_ok (config v) (conn env) (schedule env) r1) as (G & _).
    destruct (_executeProbes (config v) (conn env) (schedule env) r1)
      as [r2 [[]|e]] eqn:E2; [|discriminate].
    unfold bind at 1.
    destruct (stage3 v r2) as [r3 [ml|e]] eqn:E3; [|discriminate].
    unfold bind at 1.
    destruct (analyzeReviewOptions_keeps r3) as (N4 & D4 & B4 & R4).
    destruct (_analyzeReviewOptions r3) as [r4 out4]; cbn [fst snd] in *. subst out4.
    unfold bind at 1.
    destruct (finalizeResult_keeps r4) as (N5 & D5 & B5 & R5).
    destruct (_finalizeResult r4) as [r5 out5]; cbn [fst snd] in *. subst out5.
    unfold ret. intros H _. inversion H; subst.
    exists r1, r2, r3. repeat split; congruence.
  - unfold _finalizeResult, bind, modify, ret. intros H Hreg. inversion H; subst.
    cbn in Hreg. congruence.
Qed.

Lemma stage3_detector (v : Validator) (d : MLPatternDetector.t) (r2 : ValidationResult) :
  mlDetector v = Some d ->
  let fed := MLPatternDetector.mkProbeSummary (successRate_of r2) in
  let p := snd (MLPatternDetector.analyze d (errorDetails (diagnostics r2)) fed) in
  snd (stage3 v r2)
    = Normal (Some (fst (MLPatternDetector.analyze d (errorDetails (diagnostics r2)) fed)))
  /\ diagnostics (fst (stage3 v r2)) = diagnostics r2
  /\ (MLPatternDetector.p_type p <> NONE ->
      isBanned (ban (fst (stage3 v r2))) = true
      /\ b_type (ban (fst (stage3 v r2))) = MLPatternDetector.p_type p
      /\ mlConfidence (ban (fst (stage3 v r2)))
         = Some (MLPatternDetector.p_confidence p))
  /\ (MLPatternDetector.p_type p = NONE -> fst (stage3 v r2) = r2).
Proof.
  intros Hd. cbv zeta. unfold stage3. rewrite Hd.
  unfold bind, read, modify, ret.
  destruct (MLPatternDetector.analyze d (errorDetails (diagnostics r2))
              (MLPatternDetector.mkProbeSummary (successRate_of r2)))
    as [d' p]. cbn [fst snd].
  destruct (MLPatternDetector.p_type p) eqn:Ep; cbn [BanType_eqb negb fst snd];
    repeat split; try congruence; try discriminate.
Qed.
End PipelineShape.


Section RemainingClaims.
Import JS WhatsAppValidator PipelineSpec CounterSpec Scenarios.
Local Open Scope string_scope.
Local Open Scope nat_scope.

Lemma C1_not_registered_is_permanent_witness :
  exists v' r,
    validate (new cfg_default) "201234567890" lookup_first (env_of conn_absent)
      = (v', Normal r)
    /\ isRegistered r = false
    /\ isBanned (ban r) = true
    /\ b_type (ban r) = PERMANENT
    /\ available (review r) = false
    /\ summary r = "Not registered or permanently banned"
    /\ probsExecuted (diagnostics r) = 0
    /\ probeResults (diagnostics r) = []
    /\ mlDetector v' = mlDetector (new cfg_default).
Proof.
  apply (@C1_not_registered_is_permanent (new cfg_default) "201234567890"
           lookup_first (env_of conn_absent) (Some [false])); reflexivity.
Defined.

Lemma C9_throw_becomes_critical_result_witness :
  exists v' r message text,
    validate (new cfg_default) "201234567890" lookup_first
             (env_of conn_rejects_undefined) = (v', Normal r)
    /\ TypeError nullish_message = ErrValue message text
    /\ summary r = "Critical validation error"
    /\ errorDetails (diagnostics r)
       = ([] ++ [mkErrorDetail "critical" message "FATAL"])%list
    /\ Forall (fun d => code d <> "FATAL") [].
Proof.
  apply (@C9_throw_becomes_critical_result (new cfg_default) "201234567890"
           lookup_first (env_of conn_rejects_undefined)
           (_createResultObject "201234567890" (_normalizeJID "201234567890"))
           (TypeError nullish_message)); reflexivity.
Defined.

Lemma C7_counterexample :
  _normalizeJID "+1 555" = _normalizeJID "1555"
  /\ cacheKey "+1 555" = "validate:+1 555"
  /\ "validate:" ++ _normalizeJID "+1 555" = "validate:1555@s.whatsapp.net"
  /\ (exists r,
        cache_hit (fst (validate (new cfg_default) "1555" lookup_first
                                 (env_of conn_present)))
                  "1555" lookup_first (env_of conn_present) = Some r)
  /\ cache_hit (fst (validate (new cfg_default) "1555" lookup_first
                              (env_of conn_present)))
               "+1 555" lookup_first (env_of conn_present) = None.
Proof.
  split; [reflexivity|]. split; [reflexivity|]. split; [reflexivity|].
  split; [eexists; vm_compute; reflexivity | vm_compute; reflexivity].
Qed.

(** C4 at the failing input: with capacity 1, the entry stored under the
    empty key is found as the least recently accessed one but not deleted,
    and the cache holds two entries after the second [set]. *)
Lemma C4_empty_key_is_never_evicted :
  let c0 := ValidationCache.new nat (ValidationCache.mkOptions None (Some 1%Z)) in
  let c1 := ValidationCache.set c0 "" 7 100 in
  let c2 := ValidationCache.set c1 "a" 8 200 in
  ValidationCache.maxSize c2 = 1%Z
  /\ fst (ValidationCache.lru_scan (ValidationCache.cache c1)) = Some ""
  /\ ValidationCache.size c1 = 1
  /\ ValidationCache.size c2 = 2
  /\ JsMap.keys (ValidationCache.cache c2) = [""; "a"].
Proof. cbv zeta. repeat split. Qed.

(** C6, amended.  When some candidate reaches the normalized score 0.3,
    [analyze] answers with the first candidate of highest normalized score
    (no candidate scores higher, and every earlier entry of the table
    scores strictly lower):
    the [score] of the answer is that normalized score, min(raw/5, 1), its
    [confidence] is the base confidence of the table entry (0 when nothing
    matched) and its [matchCount] the raw match count.  On a registered
    account the pipeline feeds [errorDetails] and the ratio of the counters
    to the detector and, for an answer other than none, records the
    [confidence] field of the answer as [mlConfidence] (and its type as the
    ban type). *)
Theorem C6_confidence_is_the_table_confidence :
  (forall (ev : list ErrorDetail) (ps : MLPatternDetector.ProbeSummary),
     let f := MLPatternDetector._extractFeatures ev ps in
     let p := snd (MLPatternDetector.analyze MLPatternDetector.new ev ps) in
     (exists b sd, In (b, sd) (MLPatternDetector._calculateScores MLPatternDetector.new f)
                   /\ (0.3 <= MLPatternDetector.normalized sd)%Q) ->
     exists b pat,
       In (b, pat) ERROR_PATTERNS
       /\ p = MLPatternDetector.mkPrediction b
               (Some (MLPatternDetector.normalized (MLPatternDetector.score_pattern f pat)))
               (MLPatternDetector.s_confidence (MLPatternDetector.score_pattern f pat))
               (Some (MLPatternDetector.s_matchCount (MLPatternDetector.score_pattern f pat)))
       /\ (0.3 <= MLPatternDetector.normalized (MLPatternDetector.score_pattern f pat))%Q
       /\ (forall b' sd',
             In (b', sd') (MLPatternDetector._calculateScores MLPatternDetector.new f) ->
             (MLPatternDetector.normalized sd'
              <= MLPatternDetector.normalized (MLPatternDetector.score_pattern f pat))%Q)
       /\ MLPatternDetector.normalized (MLPatternDetector.score_pattern f pat)
          = Qmin (MLPatternDetector.raw (MLPatternDetector.score_pattern f pat) / 5) 1.0
       /\ MLPatternDetector.s_confidence (MLPatternDetector.score_pattern f pat)
          = (if (0 <? MLPatternDetector.s_matchCount (MLPatternDetector.score_pattern f pat))
             then confidence pat else 0%Q)
       /\ exists pre post,
            ERROR_PATTERNS = (pre ++ (b, pat) :: post)%list
            /\ forall b' pat', In (b', pat') pre ->
                 (MLPatternDetector.normalized (MLPatternDetector.score_pattern f pat')
                  < MLPatternDetector.normalized (MLPatternDetector.score_pattern f pat))%Q)
  /\ (forall (v : Validator) (env : Env) (r0 r : ValidationResult)
             (ml' : option MLPatternDetector.t) (d : MLPatternDetector.t),
        mlDetector v = Some d ->
        _executePipeline v env r0 = (r, Normal ml') ->
        isRegistered r = true ->
        let fed := MLPatternDetector.mkProbeSummary (successRate_of r) in
        let p := snd (MLPatternDetector.analyze d (errorDetails (diagnostics r)) fed) in
        ml' = Some (fst (MLPatternDetector.analyze d (errorDetails (diagnostics r)) fed))
        /\ (MLPatternDetector.p_type p <> NONE ->
            isBanned (ban r) = true
            /\ b_type (ban r) = MLPatternDetector.p_type p
            /\ mlConfidence (ban r) = Some (MLPatternDetector.p_confidence p))).
Proof.
  split; [exact analyze_winner|].
  intros v env r0 r ml' d Hd Hp Hreg. cbv zeta.
  destruct (pipeline_registered _ _ _ Hp Hreg) as (r1 & r2 & r3 & _ & _ & _ & E3 & D & B).
  destruct (stage3_detector v r2 Hd) as (S1 & S2 & S3 & _).
  rewrite E3 in S1, S2, S3. cbn [fst snd] in *.
  assert (Hd2 : diagnostics r = diagnostics r2) by congruence.
  assert (Hrate : successRate_of r = successRate_of r2)
    by (unfold successRate_of; now rewrite Hd2).
  rewrite Hrate, Hd2, B. split; [congruence | exact S3].
Qed.

Lemma C6_counterexample :
  (exists s,
     snd (MLPatternDetector.analyze MLPatternDetector.new rate_limit_evidence
            (MLPatternDetector.mkProbeSummary None))
       = MLPatternDetector.mkPrediction SPAM (Some s) 0.85%Q (Some 2)
     /\ (s == 0.5)%Q /\ (0.3 <= s)%Q /\ ~ (0.85 == s)%Q)
  /\ (exists v' r d h,
        validate (new cfg_default) "201234567890" lookup_first
                 (env_of conn_rate_limited) = (v', Normal r)
        /\ mlConfidence (ban r) = Some 0.85%Q
        /\ mlDetector v' = Some d
        /\ MLPatternDetector.history d = [h]
        /\ MLPatternDetector.p_type (snd h) = SPAM
        /\ MLPatternDetector.p_confidence (snd h) = 0.85%Q
        /\ exists s, MLPatternDetector.p_score (snd h) = Some s /\ (s == 0.4)%Q).
Proof.
  split.
  { eexists. split; [vm_compute; reflexivity|].
    split; [vm_compute; reflexivity|]. split; vm_compute; discriminate. }
  eexists. eexists. eexists. eexists.
  split; [vm_compute; reflexivity|]. split; [reflexivity|]. split; [reflexivity|].
  split; [reflexivity|]. split; [reflexivity|]. split; [reflexivity|].
  eexists. split; [reflexivity | vm_compute; reflexivity].
Qed.

End RemainingClaims.

(** * Part III: further properties of the code *)

Section MapKeys.
Local Open Scope nat_scope.
Variable V : Type.
Implicit Types (m : JsMap.t V) (k : string).

Lemma JsMap_get_None m k : JsMap.get m k = None <-> ~ In k (JsMap.keys m).
Proof.
  induction m as [|[k' v] m IH]; cbn; [tauto|].
  destruct (String.eqb k' k) eqn:E.
  - apply String.eqb_eq in E. split; [discriminate | intros H; exfalso; apply H; now left].
  - apply String.eqb_neq in E. rewrite IH. tauto.
Qed.

Lemma JsMap_keys_set_in m k v :
  In k (JsMap.keys m) -> JsMap.keys (JsMap.set m k v) = JsMap.keys m.
Proof.
  unfold JsMap.keys. induction m as [|[k' v'] m IH]; cbn; [tauto|].
  destruct (String.eqb k' k) eqn:E; [reflexivity|].
  apply String.eqb_neq in E. intros [?|Hin]; [congruence|]. cbn. now rewrite IH.
Qed.

Lemma JsMap_keys_set_notin m k v :
  ~ In k (JsMap.keys m) -> JsMap.keys (JsMap.set m k v) = (JsMap.keys m ++ [k])%list.
Proof.
  unfold JsMap.keys. induction m as [|[k' v'] m IH]; cbn; [reflexivity|].
  destruct (String.eqb k' k) eqn:E.
  - apply String.eqb_eq in E. intros H. exfalso. apply H. now left.
  - intros H. cbn. rewrite IH; [reflexivity | tauto].
Qed.

Lemma JsMap_size_keys m : JsMap.size m = List.length (JsMap.keys m).
Proof. unfold JsMap.size, JsMap.keys. now rewrite length_map. Qed.

Lemma JsMap_size_set_le m k v : JsMap.size (JsMap.set m k v) <= S (JsMap.size m).
Proof.
  rewrite !JsMap_size_keys.
  destruct (in_dec string_dec k (JsMap.keys m)) as [Hin|Hn].
  - rewrite JsMap_keys_set_in by assumption. lia.
  - rewrite JsMap_keys_set_notin by assumption. rewrite length_app. cbn. lia.
Qed.

Lemma JsMap_keys_delete_incl m k :
  forall x, In x (JsMap.keys (JsMap.delete m k)) -> In x (JsMap.keys m).
Proof.
  unfold JsMap.keys. induction m as [|[k' v'] m IH]; cbn; [tauto|].
  destruct (String.eqb k' k); cbn; intuition.
Qed.

Lemma JsMap_delete_NoDup m k :
  NoDup (JsMap.keys m) -> NoDup (JsMap.keys (JsMap.delete m k)).
Proof.
  unfold JsMap.keys. induction m as [|[k' v'] m IH]; cbn; [constructor|].
  intros H. inversion H; subst.
  destruct (String.eqb k' k); cbn; [assumption|].
  constructor; [|auto]. intros Hin. apply JsMap_keys_delete_incl in Hin. contradiction.
Qed.

Lemma JsMap_size_delete m k :
  In k (JsMap.keys m) -> S (JsMap.size (JsMap.delete m k)) = JsMap.size m.
Proof.
  unfold JsMap.keys, JsMap.size. induction m as [|[k' v'] m IH]; cbn; [tauto|].
  destruct (String.eqb k' k) eqn:E; [reflexivity|].
  apply String.eqb_neq in E. intros [?|Hin]; [congruence|]. cbn. now rewrite IH.
Qed.

Lemma JsMap_size_delete_le m k : JsMap.size (JsMap.delete m k) <= JsMap.size m.
Proof.
  unfold JsMap.size. induction m as [|[k' v'] m IH]; cbn; [lia|].
  destruct (String.eqb k' k); cbn; lia.
Qed.

Lemma JsMap_set_NoDup m k v :
  NoDup (JsMap.keys m) -> NoDup (JsMap.keys (JsMap.set m k v)).
Proof.
  intros H.
  destruct (in_dec string_dec k (JsMap.keys m)) as [Hin|N].
  - now rewrite JsMap_keys_set_in.
  - rewrite JsMap_keys_set_notin by assumption.
    apply NoDup_app; [exact H | repeat constructor; auto |].
    intros x Hx [<-|[]]. contradiction.
Qed.

Lemma JsMap_get_delete m k :
  NoDup (JsMap.keys m) -> JsMap.get (JsMap.delete m k) k = None.
Proof.
  intros H. apply JsMap_get_None. revert H.
  unfold JsMap.keys. induction m as [|[k' v'] m IH]; cbn; [tauto|].
  intros H. inversion H; subst.
  destruct (String.eqb k' k) eqn:E.
  - apply String.eqb_eq in E. now subst.
  - apply String.eqb_neq in E. cbn. intros [?|Hin]; [congruence | now apply IH].
Qed.



End MapKeys.

Section CacheExtras.
Import ValidationCache CacheOps.
Local Open Scope nat_scope.
Variable V : Type.
Implicit Types (c : ValidationCache.t V) (m : JsMap.t (Entry V)).

Lemma lru_scan_acc (suf : JsMap.t (Entry V)) :
  forall (pre : JsMap.t (Entry V)) (k : string) (e : Entry V) (mid : JsMap.t (Entry V)),
    (forall x, In x pre -> (lastAccess e < lastAccess (snd x))%Z) ->
    (forall x, In x mid -> (lastAccess e <= lastAccess (snd x))%Z) ->
    exists pre' k' e' post',
      (pre ++ (k, e) :: mid ++ suf = pre' ++ (k', e') :: post')%list
      /\ fold_left
           (fun '(oldest, oldestTime) '(key, entry) =>
              let older :=
                match oldestTime with
                | None => true
                | Some t0 => (lastAccess entry <? t0)%Z
                end in
              if older then (Some key, Some (lastAccess entry))
              else (oldest, oldestTime))
           suf (Some k, Some (lastAccess e))
         = (Some k', Some (lastAccess e'))
      /\ (forall x, In x pre' -> (lastAccess e' < lastAccess (snd x))%Z)
      /\ (forall x, In x post' -> (lastAccess e' <= lastAccess (snd x))%Z).
Proof.
  induction suf as [|[k1 e1] suf IH]; intros pre k e mid Hpre Hmid.
  - exists pre, k, e, mid. rewrite app_nil_r. cbn. auto.
  - cbn [fold_left]. destruct (lastAccess e1 <? lastAccess e)%Z eqn:E.
    + apply Z.ltb_lt in E.
      destruct (IH (pre ++ (k, e) :: mid)%list k1 e1 []) as (pre' & k' & e' & post' & H1 & H2 & H3 & H4).
      * intros x Hx. apply in_app_or in Hx. destruct Hx as [Hx|[<-|Hx]]; cbn.
        -- specialize (Hpre x Hx). lia.
        -- exact E.
        -- specialize (Hmid x Hx). lia.
      * intros x [].
      * exists pre', k', e', post'. split; [|auto].
        rewrite <- H1. cbn. rewrite <- app_assoc. reflexivity.
    + apply Z.ltb_ge in E.
      destruct (IH pre k e (mid ++ [(k1, e1)])%list) as (pre' & k' & e' & post' & H1 & H2 & H3 & H4).
      * exact Hpre.
      * intros x Hx. apply in_app_or in Hx. destruct Hx as [Hx|[<-|[]]]; [auto | exact E].
      * exists pre', k', e', post'. split; [|auto].
        rewrite <- H1. rewrite <- app_assoc. reflexivity.
Qed.

(** The scan of [_evictLRU] on a non-empty map stops at the first entry
    whose [lastAccess] is smallest. *)
Lemma lru_scan_first_min m :
  m <> [] ->
  exists pre k e post,
    m = (pre ++ (k, e) :: post)%list
    /\ lru_scan m = (Some k, Some (lastAccess e))
    /\ (forall x, In x pre -> (lastAccess e < lastAccess (snd x))%Z)
    /\ (forall x, In x post -> (lastAccess e <= lastAccess (snd x))%Z).
Proof.
  destruct m as [|[k0 e0] m]; [congruence|]. intros _.
  unfold lru_scan. cbn [fold_left].
  destruct (@lru_scan_acc m [] k0 e0 []) as (pre' & k' & e' & post' & H1 & H2 & H3 & H4).
  - intros x [].
  - intros x [].
  - exists pre', k', e', post'. cbn in H1. auto.
Qed.

Lemma JsMap_delete_split m (pre post : JsMap.t (Entry V)) (k : string) (e : Entry V) :
  m = (pre ++ (k, e) :: post)%list ->
  NoDup (JsMap.keys m) ->
  JsMap.delete m k = (pre ++ post)%list.
Proof.
  intros -> Hnd. unfold JsMap.keys in Hnd. rewrite map_app in Hnd. cbn in Hnd.
  apply NoDup_remove_2 in Hnd.
  induction pre as [|[k' e'] pre IH]; cbn.
  - now rewrite String.eqb_refl.
  - destruct (String.eqb k' k) eqn:E.
    + apply String.eqb_eq in E. subst. exfalso. apply Hnd. cbn. now left.
    + f_equal. apply IH. intros Hin. apply Hnd. cbn. now right.
Qed.

(** Eviction from a non-empty cache removes exactly one entry. *)
Lemma evictLRU_spec c :
  well_keyed c ->
  cache c <> [] ->
  exists pre k e post,
    cache c = (pre ++ (k, e) :: post)%list
    /\ cache (_evictLRU c) = (pre ++ post)%list
    /\ (forall x, In x pre -> (lastAccess e < lastAccess (snd x))%Z)
    /\ (forall x, In x post -> (lastAccess e <= lastAccess (snd x))%Z)
    /\ S (size (_evictLRU c)) = size c.
Proof.
  intros [Hnd Htr] Hne.
  destruct (lru_scan_first_min Hne) as (pre & k & e & post & Hm & Hs & Hpre & Hpost).
  exists pre, k, e, post. split; [exact Hm|].
  assert (Hk : JS.truthy k = true).
  { rewrite Forall_forall in Htr. apply Htr. rewrite Hm. unfold JsMap.keys.
    rewrite map_app. apply in_or_app. right. now left. }
  unfold _evictLRU. rewrite Hs. cbn [fst]. rewrite Hk. cbn [cache with_cache].
  rewrite (@JsMap_delete_split _ pre post k e Hm Hnd).
  split; [reflexivity|]. split; [exact Hpre|]. split; [exact Hpost|].
  unfold size, JsMap.size. cbn [cache with_cache]. rewrite Hm, !length_app. cbn. lia.
Qed.

Lemma delete_well_keyed c (k : string) :
  well_keyed c -> well_keyed (with_cache c (JsMap.delete (cache c) k)).
Proof.
  intros [Hnd Htr]. split; cbn [cache with_cache].
  - now apply JsMap_delete_NoDup.
  - rewrite Forall_forall in *. intros x Hx. apply Htr.
    now apply JsMap_keys_delete_incl in Hx.
Qed.

Lemma set_well_keyed m (k : string) (e : Entry V) :
  NoDup (JsMap.keys m) -> Forall (fun k => JS.truthy k = true) (JsMap.keys m) ->
  JS.truthy k = true ->
  NoDup (JsMap.keys (JsMap.set m k e))
  /\ Forall (fun k => JS.truthy k = true) (JsMap.keys (JsMap.set m k e)).
Proof.
  intros Hnd Htr Hk. split; [now apply JsMap_set_NoDup|].
  destruct (in_dec string_dec k (JsMap.keys m)) as [Hin|Hn].
  - now rewrite JsMap_keys_set_in.
  - rewrite JsMap_keys_set_notin by assumption.
    apply Forall_app. split; [exact Htr | now repeat constructor].
Qed.

Lemma evict_well_keyed c : well_keyed c -> well_keyed (_evictLRU c).
Proof.
  intros H. unfold _evictLRU.
  destruct (fst (lru_scan (cache c))) as [k|]; [|exact H].
  destruct (JS.truthy k); [now apply delete_well_keyed | exact H].
Qed.

(** One operation keeps the keys distinct and non-empty and the size
    within the capacity. *)
Lemma step_bounded c (op : Op V) :
  (1 <= maxSize c)%Z -> stores_truthy op ->
  well_keyed c -> (Z.of_nat (size c) <= maxSize c)%Z ->
  maxSize (step c op) = maxSize c
  /\ well_keyed (step c op)
  /\ (Z.of_nat (size (step c op)) <= maxSize c)%Z.
Proof.
  intros Hcap Hop Hwk Hsz. destruct op as [key now|key d now]; cbn [step].
  - unfold get. destruct (JsMap.get (cache c) key) as [entry|] eqn:Eg.
    + destruct (ttl c <? now - timestamp entry)%Z; cbn [fst].
      * split; [reflexivity|]. split.
        -- exact (@delete_well_keyed c key Hwk).
        -- unfold size in *. cbn [cache].
           pose proof (JsMap_size_delete_le (cache c) key). lia.
      * assert (Hin : In key (JsMap.keys (cache c))).
        { destruct (in_dec string_dec key (JsMap.keys (cache c))) as [H|H]; [exact H|].
          apply JsMap_get_None in H. congruence. }
        split; [reflexivity|]. unfold well_keyed, size in *. cbn [cache].
        rewrite JsMap_size_keys, JsMap_keys_set_in by assumption.
        rewrite <- JsMap_size_keys. auto.
    + cbn [fst]. auto.
  - cbn [stores_truthy] in Hop. unfold set.
    destruct (maxSize c <=? Z.of_nat (JsMap.size (cache c)))%Z eqn:Efull.
    + apply Z.leb_le in Efull.
      assert (Hne : cache c <> []).
      { intros H. rewrite H in Efull. cbn in Efull. lia. }
      destruct (@evictLRU_spec c Hwk Hne)
        as (pre & k & e & post & _ & _ & _ & _ & Hsize).
      pose proof (@evict_well_keyed c Hwk) as [Hnd Htr].
      assert (Hmax : maxSize (_evictLRU c) = maxSize c).
      { unfold _evictLRU. destruct (fst (lru_scan (cache c))) as [k0|]; [|reflexivity].
        destruct (JS.truthy k0); reflexivity. }
      split; [exact Hmax|]. unfold well_keyed, size in *. cbn [cache with_cache].
      split; [now apply set_well_keyed|].
      pose proof (JsMap_size_set_le (cache (_evictLRU c)) key (mkEntry d now now 1)). lia.
    + apply Z.leb_gt in Efull. destruct Hwk as [Hnd Htr].
      split; [reflexivity|]. unfold well_keyed, size in *. cbn [cache with_cache].
      split; [now apply set_well_keyed|].
      pose proof (JsMap_size_set_le (cache c) key (mkEntry d now now 1)). lia.
Qed.

(** X2: with a capacity of at least 1 and non-empty keys, no sequence of
    [get] and [set] calls makes the cache hold more entries than its
    capacity, and the keys stay distinct. *)
Theorem cache_never_exceeds_capacity (ops : list (Op V)) :
  forall c,
    (1 <= maxSize c)%Z ->
    Forall (@stores_truthy V) ops ->
    well_keyed c ->
    (Z.of_nat (size c) <= maxSize c)%Z ->
    (Z.of_nat (size (run c ops)) <= maxSize c)%Z
    /\ well_keyed (run c ops).
Proof.
  induction ops as [|op ops IH]; intros c Hcap Hops Hwk Hsz; cbn [run fold_left].
  - auto.
  - inversion Hops; subst.
    destruct (@step_bounded c op Hcap H1 Hwk Hsz) as (Hm & Hwk' & Hsz').
    rewrite <- Hm in *. apply IH; trivial.
Qed.

Lemma set_get c (key : string) (d : V) (t0 t1 : Z) :
  let c1 := set c key d t0 in
  let '(c2, answer) := get c1 key t1 in
  ttl c1 = ttl c
  /\ if (ttl c <? t1 - t0)%Z
     then answer = None /\ hits c2 = hits c1 /\ misses c2 = S (misses c1)
          /\ cache c2 = JsMap.delete (cache c1) key
     else answer = Some d /\ hits c2 = S (hits c1) /\ misses c2 = misses c1
          /\ JsMap.get (cache c2) key = Some (mkEntry d t0 t1 2).
Proof.
  cbn zeta. unfold get.
  assert (Httl : ttl (set c key d t0) = ttl c).
  { unfold set. destruct (_ <=? _)%Z; [|reflexivity].
    unfold _evictLRU. destruct (fst (lru_scan (cache c))) as [k|]; [|reflexivity].
    destruct (JS.truthy k); reflexivity. }
  assert (Hg : JsMap.get (cache (set c key d t0)) key = Some (mkEntry d t0 t0 1)).
  { unfold set. destruct (_ <=? _)%Z; cbn [cache with_cache]; apply JsMap_get_set. }
  rewrite Hg, Httl. cbn [timestamp data accessCount].
  destruct (ttl c <? t1 - t0)%Z; (split; [reflexivity|]); cbn [hits misses cache].
  - auto.
  - repeat split. apply JsMap_get_set.
Qed.

Lemma set_counters c (key : string) (d : V) (now : Z) :
  hits (set c key d now) = hits c /\ misses (set c key d now) = misses c.
Proof.
  unfold set. destruct (_ <=? _)%Z; cbn; [|auto].
  unfold _evictLRU. destruct (fst (lru_scan (cache c))) as [k|]; [|auto].
  destruct (JS.truthy k); auto.
Qed.

(** X4: every [get] is counted exactly once, as a hit or as a miss, [set]
    counts nothing, and neither counter ever goes down. *)
Theorem cache_counts_every_get (ops : list (Op V)) :
  forall c,
    hits (run c ops) + misses (run c ops) = hits c + misses c + count_gets ops
    /\ hits c <= hits (run c ops)
    /\ misses c <= misses (run c ops).
Proof.
  induction ops as [|op ops IH]; intros c; cbn [run fold_left count_gets].
  - lia.
  - specialize (IH (step c op)). unfold run in IH.
    assert (H : hits (step c op) + misses (step c op)
                = hits c + misses c + (if is_get op then 1 else 0)
                /\ hits c <= hits (step c op) /\ misses c <= misses (step c op)).
    { destruct op as [key now|key d now]; cbn [step is_get].
      - unfold get. destruct (JsMap.get (cache c) key) as [entry|]; [|cbn; lia].
        destruct (ttl c <? now - timestamp entry)%Z; cbn; lia.
      - destruct (set_counters c key d now) as [-> ->]. lia. }
    lia.
Qed.

(** X5: the hit rate reported by [stats()] lies between 0 and 1, and is 0
    (not a division by zero) before the first [get]. *)
Theorem stats_hitRate_bounds c :
  (0 <= st_hitRate (stats c) <= 1)%Q
  /\ (hits c + misses c = 0 -> st_hitRate (stats c) = 0%Q).
Proof.
  unfold stats; cbn [st_hitRate]. split.
  - destruct (0 <? hits c + misses c) eqn:E.
    + apply Nat.ltb_lt in E.
      assert (Hpos : (0 < inject_Z (Z.of_nat (hits c + misses c)))%Q).
      { change 0%Q with (inject_Z 0). rewrite <- Zlt_Qlt. lia. }
      split.
      * apply Qle_shift_div_l; [exact Hpos|]. rewrite Qmult_0_l.
        change 0%Q with (inject_Z 0). rewrite <- Zle_Qle. lia.
      * apply Qle_shift_div_r; [exact Hpos|]. rewrite Qmult_1_l.
        rewrite <- Zle_Qle. lia.
    + split; [apply Qle_refl | discriminate].
  - intros H. rewrite H. reflexivity.
Qed.

End CacheExtras.

Section CacheTheorems.
Import ValidationCache CacheOps.
Local Open Scope nat_scope.
Local Open Scope string_scope.

(** X1: on a non-empty cache with distinct non-empty keys, [_evictLRU]
    removes exactly one entry: the first one, in insertion order, whose
    [lastAccess] is smallest. *)
Theorem evictLRU_removes_first_least_recent (V : Type) (c : ValidationCache.t V) :
  well_keyed c ->
  cache c <> [] ->
  exists pre k e post,
    cache c = (pre ++ (k, e) :: post)%list
    /\ cache (_evictLRU c) = (pre ++ post)%list
    /\ (forall x, In x pre -> (lastAccess e < lastAccess (snd x))%Z)
    /\ (forall x, In x post -> (lastAccess e <= lastAccess (snd x))%Z)
    /\ S (size (_evictLRU c)) = size c.
Proof. exact (@evictLRU_spec V c). Qed.

Lemma two_entries_well_keyed : well_keyed two_entries.
Proof.
  split; cbn.
  - repeat constructor; cbn; intuition discriminate.
  - repeat constructor.
Defined.

Lemma evictLRU_removes_first_least_recent_witness :
  exists pre k e post,
    cache two_entries = (pre ++ (k, e) :: post)%list
    /\ cache (_evictLRU two_entries) = (pre ++ post)%list
    /\ (forall x, In x pre -> (lastAccess e < lastAccess (snd x))%Z)
    /\ (forall x, In x post -> (lastAccess e <= lastAccess (snd x))%Z)
    /\ S (size (_evictLRU two_entries)) = size two_entries.
Proof.
  apply (@evictLRU_removes_first_least_recent nat two_entries).
  - exact two_entries_well_keyed.
  - discriminate.
Defined.


Lemma cache_never_exceeds_capacity_witness :
  let c := ValidationCache.new nat (ValidationCache.mkOptions None (Some 2%Z)) in
  (Z.of_nat (size (run c four_calls)) <= maxSize c)%Z
  /\ well_keyed (run c four_calls).
Proof.
  cbv zeta.
  apply (@cache_never_exceeds_capacity nat four_calls
           (ValidationCache.new nat (ValidationCache.mkOptions None (Some 2%Z)))).
  - cbn. lia.
  - repeat constructor.
  - split; cbn; constructor.
  - cbn. lia.
Defined.

(** X3: [get] right after [set] of the same key returns the stored data
    as long as no more than [ttl] has passed (an entry exactly [ttl] old
    is still served); after that the entry is dropped and the call counts
    as a miss. *)
Theorem cache_set_then_get (V : Type) (c : ValidationCache.t V) (key : string)
        (d : V) (t0 t1 : Z) :
  let c1 := set c key d t0 in
  let '(c2, answer) := get c1 key t1 in
  ttl c1 = ttl c
  /\ if (ttl c <? t1 - t0)%Z
     then answer = None /\ hits c2 = hits c1 /\ misses c2 = S (misses c1)
          /\ cache c2 = JsMap.delete (cache c1) key
     else answer = Some d /\ hits c2 = S (hits c1) /\ misses c2 = misses c1
          /\ JsMap.get (cache c2) key = Some (mkEntry d t0 t1 2).
Proof. exact (@set_get V c key d t0 t1). Qed.



End CacheTheorems.

Section RateLimiterExtras.
Import RateLimiter RateLimiterOps.
Local Open Scope Z_scope.

(** X7: [getStatus] tells what the next [acquire] does: with a positive
    [remaining] the request is granted at once; with [remaining] 0 the
    caller sleeps exactly until [resetAt]. *)
Theorem getStatus_predicts_acquire (rl : t) (now : Z) :
  (0 < remaining (getStatus rl now) ->
   attempt rl now = (push rl (prune rl now) now, Acquired))
  /\ (1 <= maxRequests rl ->
      remaining (getStatus rl now) = 0 ->
      exists at_, resetAt (getStatus rl now) = Some at_
                  /\ now < at_
                  /\ attempt rl now
                     = (mkLimiter (maxRequests rl) (windowMs rl) (prune rl now),
                        Suspend (at_ - now))).
Proof.
  unfold getStatus; cbn [remaining resetAt]. split.
  - intros H. unfold attempt.
    destruct (maxRequests rl <=? Z.of_nat (List.length (prune rl now))) eqn:E;
      [|reflexivity].
    apply Z.leb_le in E. lia.
  - intros Hmax H.
    destruct (attempt_cases rl now Hmax)
      as [[Hlt _] | (Hge & oldest & rest & Hp & Hw & ->)]; [lia|].
    rewrite Hp. exists (oldest + windowMs rl). split; [reflexivity|].
    split; [lia|]. do 2 f_equal. lia.
Qed.

(** X8: after [reset] the limiter reports no active request and grants the
    next request at once, whatever its configuration. *)
Theorem reset_clears_the_window (rl : t) (now : Z) :
  attempt (reset rl) now = (mkLimiter (maxRequests rl) (windowMs rl) [now], Acquired)
  /\ getStatus (reset rl) now
     = mkStatus 0 (maxRequests rl) (Z.max 0 (maxRequests rl)) None.
Proof.
  unfold attempt, getStatus, reset, prune, push; cbn.
  rewrite Z.sub_0_r. split; [|reflexivity].
  destruct (maxRequests rl <=? 0); reflexivity.
Qed.

Lemma acquire_at_S (fuel : nat) (wakes : list Z) (rl : t) (now : Z) :
  acquire_at (S fuel) wakes rl now
  = match attempt rl now with
    | (rl', Acquired) => Some (rl', now, 0%nat)
    | (rl', Suspend waitTime) =>
        match acquire_at fuel (tl wakes) rl'
                match wakes with [] => now + waitTime | wake :: _ => wake end with
        | Some (rl'', t, n) => Some (rl'', t, S n)
        | None => None
        end
    end.
Proof. reflexivity. Qed.

(** [RateLimiter.acquire] is the case of timers that fire on time or
    late. *)
Lemma acquire_is_acquire_at (fuel : nat) :
  forall (lags : list Z) (rl : t) (now : Z),
    exists wakes,
      acquire fuel lags rl now
      = match acquire_at fuel wakes rl now with
        | Some (rl', t, _) => Some (rl', t)
        | None => None
        end.
Proof.
  induction fuel as [|fuel IH]; intros lags rl now.
  - exists []. reflexivity.
  - destruct (attempt rl now) as [rl1 [|waitTime]] eqn:E.
    + exists []. rewrite acquire_at_S. cbn [acquire]. now rewrite E.
    + destruct (IH (tl lags) rl1 (now + waitTime + Z.max 0 (hd 0 lags)))
        as [wakes H].
      exists ((now + waitTime + Z.max 0 (hd 0 lags)) :: wakes).
      rewrite acquire_at_S. cbn [acquire tl]. rewrite E, H.
      destruct (acquire_at fuel wakes rl1 _) as [[[rl2 t] n]|]; reflexivity.
Qed.



End RateLimiterExtras.

Section HelperFacts.
Import JS WhatsAppValidator HelperSpec.
Local Open Scope string_scope.

Lemma strip_non_digits_app (a b : string) :
  strip_non_digits (a ++ b) = strip_non_digits a ++ strip_non_digits b.
Proof.
  induction a as [|c a IH]; cbn [strip_non_digits append]; [reflexivity|].
  destruct (is_digit c); cbn [append]; now rewrite IH.
Qed.

Lemma strip_non_digits_all_digits (s : string) :
  all_digits (strip_non_digits s) = true.
Proof.
  induction s as [|c s IH]; cbn [strip_non_digits]; [reflexivity|].
  destruct (is_digit c) eqn:E; [|exact IH].
  cbn [all_digits]. now rewrite E, IH.
Qed.

Lemma strip_non_digits_fixed (s : string) :
  all_digits s = true -> strip_non_digits s = s.
Proof.
  induction s as [|c s IH]; cbn [all_digits strip_non_digits]; [reflexivity|].
  intros H. apply andb_prop in H. destruct H as [-> H]. now rewrite IH.
Qed.

Lemma append_nil_r (s : string) : s ++ "" = s.
Proof. induction s as [|c s IH]; cbn; [reflexivity | now rewrite IH]. Qed.

Lemma string_length_app (a b : string) :
  String.length (a ++ b) = (String.length a + String.length b)%nat.
Proof. induction a as [|c a IH]; cbn; [reflexivity | now rewrite IH]. Qed.

Lemma append_inj_r (a b s : string) : a ++ s = b ++ s -> a = b.
Proof.
  revert b. induction a as [|c a IH]; intros [|d b] H; cbn in H.
  - reflexivity.
  - apply (f_equal String.length) in H. cbn in H. rewrite string_length_app in H. lia.
  - apply (f_equal String.length) in H. cbn in H. rewrite string_length_app in H. lia.
  - inversion H. f_equal. now apply IH.
Qed.

Lemma is_digit_chars (c : ascii) :
  is_digit c = true <-> In c (list_ascii_of_string "0123456789").
Proof.
  destruct c as [[] [] [] [] [] [] [] []]; vm_compute;
    (split; [intros H; first [discriminate H | tauto]
            | intros H; first [reflexivity | exfalso; intuition discriminate]]).
Qed.

Lemma strip_non_digits_filter (s : string) :
  list_ascii_of_string (strip_non_digits s) = filter is_digit (list_ascii_of_string s).
Proof.
  induction s as [|c s IH]; cbn [strip_non_digits list_ascii_of_string filter];
    [reflexivity|].
  destruct (is_digit c); cbn [list_ascii_of_string]; now rewrite IH.
Qed.

Lemma list_ascii_of_string_inj (a b : string) :
  list_ascii_of_string a = list_ascii_of_string b -> a = b.
Proof.
  intros H. rewrite <- (string_of_list_ascii_of_string a),
              <- (string_of_list_ascii_of_string b). now rewrite H.
Qed.

(** X10: [_normalizeJID] keeps exactly the characters '0'..'9' of its
    input, in their order, and appends the suffix: the local part of the
    JID is the input filtered by [is_digit], and [is_digit] accepts the
    ten decimal digits and nothing else.  So an input made of digits is
    kept as it is, the function is idempotent, and two inputs get the same
    JID exactly when their digit sequences agree. *)
Theorem normalizeJID_canonical (p q : string) :
  (exists digits,
     _normalizeJID p = digits ++ "@s.whatsapp.net"
     /\ list_ascii_of_string digits = filter is_digit (list_ascii_of_string p))
  /\ (forall c, is_digit c = true <-> In c (list_ascii_of_string "0123456789"))
  /\ (all_digits p = true -> _normalizeJID p = p ++ "@s.whatsapp.net")
  /\ _normalizeJID (_normalizeJID p) = _normalizeJID p
  /\ (_normalizeJID p = _normalizeJID q <->
      filter is_digit (list_ascii_of_string p) = filter is_digit (list_ascii_of_string q)).
Proof.
  split; [|split; [|split; [|split]]].
  - exists (strip_non_digits p). split; [reflexivity | apply strip_non_digits_filter].
  - exact is_digit_chars.
  - intros H. unfold _normalizeJID. now rewrite (@strip_non_digits_fixed p H).
  - unfold _normalizeJID. rewrite strip_non_digits_app.
    rewrite (@strip_non_digits_fixed _ (strip_non_digits_all_digits p)).
    cbn. now rewrite append_nil_r.
  - rewrite <- !strip_non_digits_filter. unfold _normalizeJID. split.
    + intros H. apply append_inj_r in H. now rewrite H.
    + intros H. apply list_ascii_of_string_inj in H. now rewrite H.
Qed.

Lemma toLowerCase_app (a b : string) :
  toLowerCase (a ++ b) = toLowerCase a ++ toLowerCase b.
Proof. induction a as [|c a IH]; cbn; [reflexivity | now rewrite IH]. Qed.

Lemma includes_toLowerCase (s k : string) :
  includes s k = true -> includes (toLowerCase s) (toLowerCase k) = true.
Proof.
  rewrite !includes_app. intros (a & b & ->).
  exists (toLowerCase a), (toLowerCase b). now rewrite !toLowerCase_app.
Qed.

Lemma extractErrorCode_in (text : string) : In (_extractErrorCode text) error_codes.
Proof.
  unfold _extractErrorCode, error_codes.
  destruct (find _ _) as [c|] eqn:E.
  - apply find_some in E. destruct E as [Hin _]. cbn in Hin. cbn. tauto.
  - destruct (includes _ "timeout"); [cbn; tauto|].
    destruct (includes _ "forbidden"); cbn; tauto.
Qed.

Lemma extractErrorCode_404 (text : string) :
  _extractErrorCode text = "404" <->
  includes text "404" = true
  /\ includes text "403" = false /\ includes text "401" = false.
Proof.
  unfold _extractErrorCode. cbn [find].
  destruct (includes text "403"); [split; [discriminate | intros (_ & H & _); discriminate]|].
  destruct (includes text "401"); [split; [discriminate | intros (_ & _ & H); discriminate]|].
  destruct (includes text "404"); [tauto|].
  split; [|intros (H & _); discriminate].
  destruct (includes text "429"); [discriminate|].
  destruct (includes text "500"); [discriminate|].
  destruct (includes _ "timeout"); [discriminate|].
  destruct (includes _ "forbidden"); discriminate.
Qed.

Lemma code_404_fatal (text : string) :
  includes text "404" = true -> _isFatalError text = true.
Proof.
  intros H. apply includes_toLowerCase in H.
  unfold _isFatalError. cbn [existsb].
  change (toLowerCase "404") with "404" in H. now rewrite H.
Qed.

Lemma updateHealth_status (success : bool) (h : Health) :
  h_status h = status_of (consecutiveFailures h) ->
  h_status (_updateHealth success h)
  = status_of (consecutiveFailures (_updateHealth success h)).
Proof.
  intros H. unfold _updateHealth, status_of in *. destruct success; cbn; [reflexivity|].
  destruct (consecutiveFailures h) as [|[|[|[|[|[|[|[|[|n]]]]]]]]]; cbn in *; auto.
Qed.

Lemma health_after_spec (outcomes : list bool) :
  forall h,
    h_status h = status_of (consecutiveFailures h) ->
    h_status (health_after outcomes h)
    = status_of (consecutiveFailures (health_after outcomes h))
    /\ consecutiveFailures (health_after outcomes h)
       = trailing_failures outcomes (consecutiveFailures h)
    /\ totalChecks (health_after outcomes h)
       = (totalChecks h + List.length outcomes)%nat.
Proof.
  induction outcomes as [|o outcomes IH]; intros h Hh; cbn [health_after fold_left].
  - cbn. repeat split; [exact Hh | lia].
  - destruct (IH (_updateHealth o h) (updateHealth_status o h Hh)) as (H1 & H2 & H3).
    unfold health_after in *. rewrite H1, H2, H3. repeat split.
    + destruct o; reflexivity.
    + destruct o; cbn; lia.
Qed.

Lemma validate_fresh_health (v : Validator) (phoneNumber : string) (env : Env) :
  exists success,
    health (fst (validate_fresh v phoneNumber env)) = _updateHealth success (health v).
Proof.
  unfold validate_fresh.
  destruct (_executePipeline v env _) as [r [ml|e]]; cbn [fst health with_health].
  - now exists true.
  - now exists false.
Qed.

Lemma validate_health (v : Validator) (phoneNumber : string) (options : ValidateOptions)
      (env : Env) :
  health (fst (validate v phoneNumber options env)) = health v
  \/ exists success,
       health (fst (validate v phoneNumber options env))
       = _updateHealth success (health v).
Proof.
  unfold validate. destruct (cache v) as [c|].
  - destruct (negb (skipCache options)).
    + destruct (ValidationCache.get c (cacheKey phoneNumber) (now_lookup env))
        as [c' [cached|]].
      * now left.
      * right. apply (validate_fresh_health
                        (mkValidator (config v) (Some c') (mlDetector v) (health v))).
    + right. apply validate_fresh_health.
  - right. apply validate_fresh_health.
Qed.

Lemma session_health (calls : list Call) :
  forall v,
    h_status (health v) = status_of (consecutiveFailures (health v)) ->
    h_status (health (fst (session v calls)))
    = status_of (consecutiveFailures (health (fst (session v calls))))
    /\ (totalChecks (health (fst (session v calls)))
        <= totalChecks (health v) + List.length calls)%nat.
Proof.
  induction calls as [|[[phoneNumber options] env] calls IH]; intros v Hv;
    cbn [session List.length].
  - cbn. split; [exact Hv | lia].
  - pose proof (validate_health v phoneNumber options env) as Hh.
    destruct (validate v phoneNumber options env) as [v1 out]. cbn [fst] in Hh.
    assert (H1 : h_status (health v1) = status_of (consecutiveFailures (health v1))
                 /\ (totalChecks (health v1) <= S (totalChecks (health v)))%nat).
    { destruct Hh as [->|[success ->]].
      - split; [exact Hv | lia].
      - split; [now apply updateHealth_status|].
        unfold _updateHealth. destruct success; cbn; lia. }
    destruct H1 as [H1 H2]. specialize (IH v1 H1).
    destruct (session v1 calls) as [v2 outs]. cbn [fst] in *.
    split; [tauto | lia].
Qed.
End HelperFacts.

Section HelperTheorems.
Import JS WhatsAppValidator HelperSpec.
Local Open Scope string_scope.


(** X11: [_extractErrorCode] returns one of seven codes, and an error it
    codes 404 is one [_isFatalError] accepts. *)
Theorem error_code_404_is_fatal (text : string) :
  In (_extractErrorCode text) error_codes
  /\ (_extractErrorCode text = "404" <->
      includes text "404" = true
      /\ includes text "403" = false /\ includes text "401" = false)
  /\ (_extractErrorCode text = "404" -> _isFatalError text = true).
Proof.
  split; [apply extractErrorCode_in|]. split; [apply extractErrorCode_404|].
  intros H. apply extractErrorCode_404 in H. now apply code_404_fatal.
Qed.

(** X12: the health status is a function of the number of consecutive
    failures: healthy below 5, degraded from 5, unhealthy from 10; one
    success makes it healthy again.  This holds after any run of
    [_updateHealth] calls and after any session of [validate] calls on a
    new validator, which checks at most once per call. *)
Theorem health_status_follows_failures :
  (forall outcomes,
     let h := health_after outcomes (mkHealth healthy 0 0) in
     h_status h = status_of (trailing_failures outcomes 0)
     /\ consecutiveFailures h = trailing_failures outcomes 0
     /\ totalChecks h = List.length outcomes)
  /\ (forall cfg calls,
        let h := health (fst (session (new cfg) calls)) in
        h_status h = status_of (consecutiveFailures h)
        /\ (totalChecks h <= List.length calls)%nat).
Proof.
  split.
  - intros outcomes. cbv zeta.
    destruct (@health_after_spec outcomes (mkHealth healthy 0 0) eq_refl)
      as (H1 & H2 & H3).
    cbn [consecutiveFailures totalChecks] in *. rewrite H1, H2. auto.
  - intros cfg calls. cbv zeta.
    apply (@session_health calls (new cfg) eq_refl).
Qed.
End HelperTheorems.

Section Budget.
Import JS WhatsAppValidator RetrySpec.
Local Open Scope Z_scope.

Variable cfg : Config.
Variable c : Connection.
Variable mu : ValidationResult -> Z.
Variable bud : Task -> Z.
Hypothesis Hfin : bud Finished = 0.
Hypothesis Hstart : forall r, mu (upd_diag inc_executed r) = mu r.
Hypothesis Hresume :
  forall probe task r, within mu bud (bud task) r (resume cfg c probe task r).

Lemma drive_within (probe : Probe) (fuel : nat) :
  forall task r, within mu bud (bud task) r (drive cfg c fuel probe task r).
Proof.
  induction fuel as [|fuel IH]; intros task r; cbn [drive].
  - unfold within, ret; cbn. lia.
  - assert (Hstep : within mu bud (bud task) r
                      (bind (resume cfg c probe task) (drive cfg c fuel probe) r)).
    { unfold bind, within. pose proof (Hresume probe task r) as H1. unfold within in H1.
      destruct (resume cfg c probe task r) as [r1 [task1|e]]; cbn [fst snd] in *.
      - pose proof (IH task1 r1) as H3. unfold within in H3.
        destruct (snd (drive cfg c fuel probe task1 r1)); lia.
      - lia. }
    destruct task; [exact Hstep | exact Hstep |].
    unfold within, ret; cbn. lia.
Qed.

Lemma executeProbe_within (probe : Probe) (r : ValidationResult) :
  mu (fst (_executeProbe cfg c probe r)) <= mu r + bud AwaitFirst.
Proof.
  unfold _executeProbe, start, bind, modify, ret.
  pose proof (drive_within probe (steps_left cfg AwaitFirst) AwaitFirst
                (upd_diag inc_executed r)) as H1. unfold within in H1.
  pose proof (@drive_finishes cfg c probe (steps_left cfg AwaitFirst) AwaitFirst) as Hf.
  rewrite Hstart in *.
  destruct (drive cfg c (steps_left cfg AwaitFirst) probe AwaitFirst
              (upd_diag inc_executed r)) as [r1 [t1|e]] eqn:Ed; cbn [fst snd] in *.
  - rewrite (Hf t1 _ r1 (Nat.le_refl _) Ed), Hfin in H1. lia.
  - lia.
Qed.

Lemma for_each_probe_within (probes : list Probe) :
  0 <= bud AwaitFirst ->
  forall r,
    mu (fst (for_each_probe cfg c probes r))
    <= mu r + Z.of_nat (List.length probes) * bud AwaitFirst.
Proof.
  intros Hb.
  induction probes as [|probe probes IH]; intros r; cbn [for_each_probe].
  - unfold ret; cbn. lia.
  - unfold bind. pose proof (executeProbe_within probe r) as H1.
    assert (Hpos : 0 <= Z.of_nat (List.length probes) * bud AwaitFirst)
      by (apply Z.mul_nonneg_nonneg; lia).
    destruct (_executeProbe cfg c probe r) as [r1 [t1|e]]; cbn [fst snd] in *.
    + specialize (IH r1). cbn [List.length]. lia.
    + cbn [List.length]. lia.
Qed.

Lemma for_each_probe_within_normal (probes : list Probe) :
  forall r,
    snd (for_each_probe cfg c probes r) = Normal tt ->
    mu (fst (for_each_probe cfg c probes r))
    <= mu r + Z.of_nat (List.length probes) * bud AwaitFirst.
Proof.
  induction probes as [|probe probes IH]; intros r; cbn [for_each_probe].
  - unfold ret; cbn. lia.
  - unfold bind. pose proof (executeProbe_within probe r) as H1.
    destruct (_executeProbe cfg c probe r) as [r1 [t1|e]]; cbn [fst snd] in *.
    + intros H. specialize (IH r1 H). cbn [List.length]. lia.
    + discriminate.
Qed.

Lemma settle_within (probe : Probe) (task : Task) (r : ValidationResult) :
  mu (fst (settle cfg c probe task r)) + bud (snd (settle cfg c probe task r))
  <= mu r + bud task.
Proof.
  unfold settle. pose proof (Hresume probe task r) as H1. unfold within in H1.
  destruct (resume cfg c probe task r) as [r1 [t1|e]]; cbn [fst snd] in *; lia.
Qed.

Lemma advance_within (i : nat) :
  forall pool r,
    mu (fst (advance cfg c i pool r)) + pool_sum bud (snd (advance cfg c i pool r))
    <= mu r + pool_sum bud pool.
Proof.
  induction i as [|i IH]; intros [|[probe task] rest] r; cbn [advance];
    try (cbn; lia).
  - pose proof (settle_within probe task r) as H1.
    destruct (settle cfg c probe task r) as [r1 t1]; cbn [fst snd pool_sum] in *. lia.
  - specialize (IH rest r).
    destruct (advance cfg c i rest r) as [r1 rest1]; cbn [fst snd pool_sum] in *. lia.
Qed.

Lemma run_schedule_within (sched : list nat) :
  forall pool r,
    mu (fst (run_schedule cfg c sched pool r))
    + pool_sum bud (snd (run_schedule cfg c sched pool r))
    <= mu r + pool_sum bud pool.
Proof.
  induction sched as [|i sched IH]; intros pool r; cbn [run_schedule].
  - cbn. lia.
  - pose proof (advance_within i pool r) as H1.
    destruct (advance cfg c i pool r) as [r1 pool1]; cbn [fst snd] in *.
    specialize (IH pool1 r1). lia.
Qed.

(** With fuel for the remaining resumptions, [complete] ends with the
    activation finished. *)
Lemma complete_finishes (probe : Probe) (fuel : nat) :
  forall task r,
    (steps_left cfg task <= fuel)%nat ->
    snd (complete cfg c fuel probe task r) = Finished.
Proof.
  induction fuel as [|fuel IH]; intros task r Hf; cbn [complete].
  - destruct task; cbn in Hf; try lia. reflexivity.
  - destruct task; [| |reflexivity].
    + unfold settle.
      destruct (resume cfg c probe AwaitFirst r) as [r1 [t1|e]] eqn:E.
      * apply resume_steps_left in E; [|discriminate]. apply IH. lia.
      * apply IH. cbn. lia.
    + unfold settle.
      destruct (resume cfg c probe (AwaitRetry retry) r) as [r1 [t1|e]] eqn:E.
      * apply resume_steps_left in E; [|discriminate]. apply IH. lia.
      * apply IH. cbn. lia.
Qed.

Lemma complete_within (probe : Probe) (fuel : nat) :
  forall task r,
    mu (fst (complete cfg c fuel probe task r))
    + bud (snd (complete cfg c fuel probe task r))
    <= mu r + bud task.
Proof.
  induction fuel as [|fuel IH]; intros task r; cbn [complete].
  - cbn. lia.
  - assert (Hstep :
      mu (fst (let '(r', task') := settle cfg c probe task r in
               complete cfg c fuel probe task' r'))
      + bud (snd (let '(r', task') := settle cfg c probe task r in
                  complete cfg c fuel probe task' r'))
      <= mu r + bud task).
    { pose proof (settle_within probe task r) as H1.
      destruct (settle cfg c probe task r) as [r1 t1]; cbn [fst snd] in *.
      specialize (IH t1 r1). lia. }
    destruct task; [exact Hstep | exact Hstep | cbn; lia].
Qed.

Lemma complete_all_within (pool : Pool) :
  forall r,
    mu (fst (complete_all cfg c pool r)) <= mu r + pool_sum bud pool.
Proof.
  induction pool as [|[probe task] rest IH]; intros r; cbn [complete_all pool_sum].
  - cbn. lia.
  - pose proof (complete_within probe (steps_left cfg task) task r) as H1.
    pose proof (@complete_finishes probe (steps_left cfg task) task r (Nat.le_refl _)) as Hf.
    destruct (complete cfg c (steps_left cfg task) probe task r) as [r1 t1];
      cbn [fst snd] in *.
    subst t1. rewrite Hfin in H1.
    specialize (IH r1).
    destruct (complete_all cfg c rest r1) as [r2 rest2]; cbn [fst snd] in *. lia.
Qed.

Lemma start_all_within (probes : list Probe) :
  forall r,
    mu (fst (start_all probes r)) = mu r
    /\ pool_sum bud (snd (start_all probes r))
       = Z.of_nat (List.length probes) * bud AwaitFirst.
Proof.
  induction probes as [|probe probes IH]; intros r; cbn [start_all].
  - cbn. lia.
  - unfold start, bind, modify, ret.
    specialize (IH (upd_diag inc_executed r)).
    destruct (start_all probes (upd_diag inc_executed r)) as [r1 pool1];
      cbn [fst snd pool_sum] in *.
    rewrite Hstart in IH. cbn [List.length]. lia.
Qed.

Lemma all_settled_within (sched : list nat) (probes : list Probe) (r : ValidationResult) :
  mu (fst (all_settled cfg c sched probes r))
  <= mu r + Z.of_nat (List.length probes) * bud AwaitFirst.
Proof.
  unfold all_settled.
  pose proof (start_all_within probes r) as [H1 H2].
  destruct (start_all probes r) as [r1 pool1]; cbn [fst snd] in *.
  pose proof (run_schedule_within sched pool1 r1) as H3.
  destruct (run_schedule cfg c sched pool1 r1) as [r2 pool2]; cbn [fst snd] in *.
  pose proof (complete_all_within pool2 r2) as H5. lia.
Qed.

(** The probe stage moves [mu] by at most the budget of its probes; when
    the budget is negative this holds if the stage completes. *)
Lemma executeProbes_within (sched : list nat) (r : ValidationResult) :
  0 <= bud AwaitFirst ->
  mu (fst (_executeProbes cfg c sched r))
  <= mu r + Z.of_nat (List.length (_buildProbeList cfg)) * bud AwaitFirst.
Proof.
  intros Hb. unfold _executeProbes. destruct (parallelProbes cfg).
  - cbn [fst]. apply all_settled_within.
  - now apply for_each_probe_within.
Qed.

Lemma executeProbes_within_normal (sched : list nat) (r : ValidationResult) :
  snd (_executeProbes cfg c sched r) = Normal tt ->
  mu (fst (_executeProbes cfg c sched r))
  <= mu r + Z.of_nat (List.length (_buildProbeList cfg)) * bud AwaitFirst.
Proof.
  unfold _executeProbes. destruct (parallelProbes cfg).
  - intros _. cbn [fst]. apply all_settled_within.
  - apply for_each_probe_within_normal.
Qed.

End Budget.

Section RetryFacts.
Import JS WhatsAppValidator RetrySpec.
Local Open Scope Z_scope.

Ltac unfold_m :=
  unfold try_catch, bind, await, _executeWithTimeout, _recordError,
    _processProbeResult, modify, ret, throw, read in *.

Ltac diag_fields :=
  cbn [number jid isRegistered isActive ban review account diagnostics
       recommendations summary isBanned b_type detectionMethods mlConfidence
       probsExecuted probsSuccessful errorDetails fallbacksUsed probeResults
       upd_ban upd_review upd_account upd_diag
       inc_executed inc_successful push_error push_fallback push_probeResult
       fst snd].

Ltac case_ifs :=
  repeat (cbn -[_isFatalError _extractErrorCode truthy Nat.ltb Nat.eqb Nat.sub
                ProbeName_str nat_str String.append List.length Z.of_nat
                Z.add Z.mul Z.opp];
          match goal with
          | |- context [if ?b then _ else _] => destruct b eqn:?
          end);
  cbn -[_isFatalError _extractErrorCode truthy Nat.ltb Nat.eqb Nat.sub
        ProbeName_str nat_str String.append List.length Z.of_nat
        Z.add Z.mul Z.opp].

Ltac count :=
  unfold within, fallbacks, errors, entries, successes, retry_budget, error_budget,
    entry_budget, no_budget, answered_error_budget, answered_retry_budget,
    answered_success_budget;
  diag_fields;
  rewrite ?length_app; cbn [List.length];
  repeat match goal with
         | H : (_ <? _)%nat = true |- _ => apply Nat.ltb_lt in H
         | H : (_ <? _)%nat = false |- _ => apply Nat.ltb_ge in H
         | H : (_ =? _)%nat = true |- _ => apply Nat.eqb_eq in H
         | H : (_ =? _)%nat = false |- _ => apply Nat.eqb_neq in H
         | H : andb _ _ = true |- _ => apply andb_prop in H; destruct H
         end;
  repeat match goal with
         | H : ?b = true |- context [if ?b then _ else _] => rewrite H
         | H : ?b = false |- context [if ?b then _ else _] => rewrite H
         end;
  try lia.

Ltac by_cases cfg c probe task :=
  unfold resume, loop_head; unfold_m;
  destruct task as [|retry|];
  [ destruct (probeCall c (name probe) 0) as [payload|e|];
      [destruct (name probe), payload as [|st] | destruct e as [|message text] |];
      case_ifs; count
  | destruct (probeCall c (name probe) (S retry)) as [payload|e|];
      [destruct (name probe), payload as [|st] | destruct e as [|message text] |];
      case_ifs; count
  | cbn; count ].

Lemma resume_fallbacks (cfg : Config) (c : Connection) (probe : Probe) (task : Task)
      (r : ValidationResult) :
  within fallbacks (retry_budget cfg) (retry_budget cfg task) r
         (resume cfg c probe task r).
Proof. by_cases cfg c probe task. Qed.

Lemma resume_fallbacks_mono (cfg : Config) (c : Connection) (probe : Probe)
      (task : Task) (r : ValidationResult) :
  within (fun r => - fallbacks r) no_budget (no_budget task) r
         (resume cfg c probe task r).
Proof. by_cases cfg c probe task. Qed.

Lemma resume_errors (cfg : Config) (c : Connection) (probe : Probe) (task : Task)
      (r : ValidationResult) :
  within errors error_budget (error_budget task) r (resume cfg c probe task r).
Proof. by_cases cfg c probe task. Qed.

Lemma resume_entries (cfg : Config) (c : Connection) (probe : Probe) (task : Task)
      (r : ValidationResult) :
  within entries entry_budget (entry_budget task) r (resume cfg c probe task r).
Proof. by_cases cfg c probe task. Qed.

Lemma buildProbeList_length (cfg : Config) :
  List.length (_buildProbeList cfg) = if enablePresenceCheck cfg then 4%nat else 3%nat.
Proof. unfold _buildProbeList. destruct (enablePresenceCheck cfg); reflexivity. Qed.

(** X13: the probe stage announces at most [maxRetries] retries per probe
    (none when [retryOnFailure] is off), records at most two errors and
    one [probeResults] entry per probe, whatever the connection answers
    and in whatever order the probes settle. *)
Theorem retries_are_bounded (cfg : Config) (c : Connection) (sched : list nat)
      (r : ValidationResult) :
  let r' := fst (_executeProbes cfg c sched r) in
  let n := if enablePresenceCheck cfg then 4 else 3 in
  fallbacks r <= fallbacks r'
  /\ fallbacks r'
     <= fallbacks r + n * (if retryOnFailure cfg then Z.of_nat (maxRetries cfg) else 0)
  /\ errors r' <= errors r + 2 * n
  /\ entries r' <= entries r + n.
Proof.
  cbv zeta.
  assert (Hn : Z.of_nat (List.length (_buildProbeList cfg))
               = if enablePresenceCheck cfg then 4 else 3).
  { rewrite buildProbeList_length. now destruct (enablePresenceCheck cfg). }
  rewrite <- Hn.
  pose proof (@executeProbes_within cfg c fallbacks (retry_budget cfg)
                eq_refl (fun _ => eq_refl) (resume_fallbacks cfg c) sched r)  as H1.
  pose proof (@executeProbes_within cfg c (fun r => - fallbacks r) no_budget
                eq_refl (fun _ => eq_refl) (resume_fallbacks_mono cfg c) sched r)  as H2.
  pose proof (@executeProbes_within cfg c errors error_budget
                eq_refl (fun _ => eq_refl) (resume_errors cfg c) sched r)  as H3.
  pose proof (@executeProbes_within cfg c entries entry_budget
                eq_refl (fun _ => eq_refl) (resume_entries cfg c) sched r)  as H4.
  unfold no_budget in *. cbn [retry_budget error_budget entry_budget] in *.
  destruct (retryOnFailure cfg);
    specialize (H1 ltac:(lia)); specialize (H2 ltac:(lia));
    specialize (H3 ltac:(lia)); specialize (H4 ltac:(lia)); lia.
Qed.


(** When every first attempt is answered, resuming an activation records
    no error from the first attempt and adds its success. *)
Lemma resume_answered_errors (cfg : Config) (c : Connection) (probe : Probe)
      (task : Task) (r : ValidationResult) :
  answers c ->
  within errors answered_error_budget (answered_error_budget task) r
         (resume cfg c probe task r).
Proof.
  intros Ha. destruct (Ha (name probe)) as [p0 Hp0].
  unfold resume, loop_head; unfold_m.
  destruct task as [|retry|].
  - rewrite Hp0. destruct (name probe), p0 as [|st]; case_ifs; count.
  - destruct (probeCall c (name probe) (S retry)) as [payload|e|];
      [destruct (name probe), payload as [|st] | destruct e as [|message text] |];
      case_ifs; count.
  - cbn; count.
Qed.

Lemma resume_answered_fallbacks (cfg : Config) (c : Connection) (probe : Probe)
      (task : Task) (r : ValidationResult) :
  answers c ->
  within fallbacks (answered_retry_budget cfg) (answered_retry_budget cfg task) r
         (resume cfg c probe task r).
Proof.
  intros Ha. destruct (Ha (name probe)) as [p0 Hp0].
  unfold resume, loop_head; unfold_m.
  destruct task as [|retry|].
  - rewrite Hp0. destruct (name probe), p0 as [|st]; case_ifs; count.
  - destruct (probeCall c (name probe) (S retry)) as [payload|e|];
      [destruct (name probe), payload as [|st] | destruct e as [|message text] |];
      case_ifs; count.
  - cbn; count.
Qed.

Lemma resume_answered_successes (cfg : Config) (c : Connection) (probe : Probe)
      (task : Task) (r : ValidationResult) :
  answers c ->
  within (fun r => - successes r) answered_success_budget
         (answered_success_budget task) r (resume cfg c probe task r).
Proof.
  intros Ha. destruct (Ha (name probe)) as [p0 Hp0].
  unfold resume, loop_head; unfold_m.
  destruct task as [|retry|].
  - rewrite Hp0. destruct (name probe), p0 as [|st]; case_ifs; count.
  - destruct (probeCall c (name probe) (S retry)) as [payload|e|];
      [destruct (name probe), payload as [|st] | destruct e as [|message text] |];
      case_ifs; count.
  - cbn; count.
Qed.
End RetryFacts.

Section ProbeFacts.
Import JS WhatsAppValidator ProbeSpec.
Local Open Scope string_scope.
Local Open Scope nat_scope.

Ltac unfold_m :=
  unfold try_catch, bind, await, _executeWithTimeout, _recordError,
    _processProbeResult, modify, ret, throw, read in *.

Lemma executeProbe_fatal (cfg : Config) (c : Connection) (probe : Probe)
      (r : ValidationResult) (message text : string) :
  probeCall c (name probe) 0 = Fails (ErrValue message text) ->
  _isFatalError text = true ->
  _executeProbe cfg c probe r = (after_failure probe message text r, Normal Finished).
Proof.
  intros Hcall Hfatal.
  unfold _executeProbe, start, after_failure. unfold bind at 1. unfold modify at 1.
  unfold bind at 1. unfold ret at 1. cbn [steps_left drive].
  unfold bind at 1. unfold resume. rewrite Hcall. unfold_m.
  rewrite Hfatal, andb_false_r. cbn [negb].
  destruct (maxRetries cfg); reflexivity.
Qed.

Lemma executeProbe_recovers (cfg : Config) (c : Connection) (probe : Probe)
      (r : ValidationResult) (message text : string) (payload : Payload) :
  probeCall c (name probe) 0 = Fails (ErrValue message text) ->
  _isFatalError text = false ->
  retryOnFailure cfg = true ->
  1 <= maxRetries cfg ->
  probeCall c (name probe) 1 = Returns payload ->
  let r1 := upd_diag (push_fallback (ProbeName_str (name probe) ++ "_retry_1"))
              (after_failure probe message text r) in
  _executeProbe cfg c probe r
  = (upd_diag inc_successful (fst (_processProbeResult (name probe) payload r1)),
     Normal Finished).
Proof.
  intros Hcall Hfatal Hretry Hmax Hcall1. cbv zeta.
  unfold _executeProbe, start, after_failure. unfold bind at 1. unfold modify at 1.
  unfold bind at 1. unfold ret at 1. cbn [steps_left].
  destruct (maxRetries cfg) as [|m] eqn:Em; [lia|].
  cbn [drive]. unfold bind at 1. unfold resume at 1. rewrite Hcall.
  unfold loop_head. rewrite Em.
  unfold try_catch, bind, await, _executeWithTimeout, _recordError, modify, ret,
    throw, read.
  rewrite Hfatal, Hretry. cbn [negb andb Nat.ltb Nat.leb Nat.add].
  unfold resume. rewrite Hcall1.
  unfold try_catch, bind, await, _executeWithTimeout, modify, ret.
  destruct (name probe), payload as [|st]; cbn -[nat_str String.append];
    try (destruct (truthy st)); destruct m; reflexivity.
Qed.

Lemma processProbeResult_diag (n : ProbeName) (p : Payload) (r : ValidationResult) :
  diagnostics (fst (_processProbeResult n p r)) = diagnostics r.
Proof.
  unfold _processProbeResult. unfold_m.
  destruct n, p as [|st]; try reflexivity. destruct (truthy st); reflexivity.
Qed.
End ProbeFacts.

Section ProbeTheorems.
Import JS WhatsAppValidator ProbeSpec Scenarios.
Local Open Scope string_scope.
Local Open Scope nat_scope.

(** X14: a probe whose first attempt fails with a fatal error (404,
    permanently, deleted, terminated) is not retried, whatever the retry
    configuration: it is counted as executed, not as successful, gets one
    error and one FAILED entry, and announces no fallback. *)
Theorem fatal_probe_error_is_not_retried (cfg : Config) (c : Connection)
        (probe : Probe) (r : ValidationResult) (message text : string) :
  probeCall c (name probe) 0 = Fails (ErrValue message text) ->
  _isFatalError text = true ->
  exists r',
    _executeProbe cfg c probe r = (r', Normal Finished)
    /\ fallbacksUsed (diagnostics r') = fallbacksUsed (diagnostics r)
    /\ probsExecuted (diagnostics r') = S (probsExecuted (diagnostics r))
    /\ probsSuccessful (diagnostics r') = probsSuccessful (diagnostics r)
    /\ errorDetails (diagnostics r')
       = (errorDetails (diagnostics r)
          ++ [mkErrorDetail (ProbeName_str (name probe))
                (if truthy message then message else text)
                (_extractErrorCode text)])%list
    /\ probeResults (diagnostics r')
       = (probeResults (diagnostics r)
          ++ [mkProbeResult (ProbeName_str (name probe)) FAILED
                (if truthy message then Some message else None)])%list
    /\ ban r' = ban r /\ account r' = account r.
Proof.
  intros Hcall Hfatal. exists (after_failure probe message text r).
  split; [now apply executeProbe_fatal|].
  unfold after_failure. rewrite Hfatal. repeat split.
Qed.

Lemma fatal_probe_error_is_not_retried_witness :
  exists r',
    _executeProbe cfg_default conn_not_found status_probe
      (_createResultObject "1555" "1555@s.whatsapp.net") = (r', Normal Finished)
    /\ fallbacksUsed (diagnostics r') = []
    /\ probsExecuted (diagnostics r') = 1
    /\ probsSuccessful (diagnostics r') = 0
    /\ errorDetails (diagnostics r')
       = ([] ++ [mkErrorDetail "status" "item-not-found (404)" "404"])%list
    /\ probeResults (diagnostics r')
       = ([] ++ [mkProbeResult "status" FAILED (Some "item-not-found (404)")])%list
    /\ ban r' = ban (_createResultObject "1555" "1555@s.whatsapp.net")
    /\ account r' = account (_createResultObject "1555" "1555@s.whatsapp.net").
Proof.
  apply (@fatal_probe_error_is_not_retried cfg_default conn_not_found status_probe
           (_createResultObject "1555" "1555@s.whatsapp.net")
           "item-not-found (404)" "Error: item-not-found (404)"); reflexivity.
Defined.

(** X15: a probe that fails once with a non-fatal error and is answered on
    its first retry counts as successful, but its [probeResults] entry is
    the one of the failure, with status TIMEOUT whatever the error was,
    and the error stays recorded. *)
Theorem recovered_probe_keeps_its_failure_record (cfg : Config) (c : Connection)
        (probe : Probe) (r : ValidationResult) (message text : string)
        (payload : Payload) :
  probeCall c (name probe) 0 = Fails (ErrValue message text) ->
  _isFatalError text = false ->
  retryOnFailure cfg = true ->
  1 <= maxRetries cfg ->
  probeCall c (name probe) 1 = Returns payload ->
  exists r',
    _executeProbe cfg c probe r = (r', Normal Finished)
    /\ probsExecuted (diagnostics r') = S (probsExecuted (diagnostics r))
    /\ probsSuccessful (diagnostics r') = S (probsSuccessful (diagnostics r))
    /\ fallbacksUsed (diagnostics r')
       = (fallbacksUsed (diagnostics r)
          ++ [(ProbeName_str (name probe) ++ "_retry_1")%string])%list
    /\ errorDetails (diagnostics r')
       = (errorDetails (diagnostics r)
          ++ [mkErrorDetail (ProbeName_str (name probe))
                (if truthy message then message else text)
                (_extractErrorCode text)])%list
    /\ probeResults (diagnostics r')
       = (probeResults (diagnostics r)
          ++ [mkProbeResult (ProbeName_str (name probe)) TIMEOUT
                (if truthy message then Some message else None)])%list.
Proof.
  intros Hcall Hfatal Hretry Hmax Hcall1.
  eexists. split; [now apply (executeProbe_recovers cfg c probe r Hcall Hfatal Hretry Hmax Hcall1)|].
  cbn [diagnostics upd_diag inc_successful probsExecuted probsSuccessful
       fallbacksUsed errorDetails probeResults].
  rewrite processProbeResult_diag. unfold after_failure. rewrite Hfatal.
  repeat split.
Qed.

Lemma recovered_probe_keeps_its_failure_record_witness :
  exists r',
    _executeProbe cfg_default conn_flaky status_probe
      (_createResultObject "1555" "1555@s.whatsapp.net") = (r', Normal Finished)
    /\ probsExecuted (diagnostics r') = 1
    /\ probsSuccessful (diagnostics r') = 1
    /\ fallbacksUsed (diagnostics r') = ([] ++ ["status_retry_1"])%list
    /\ errorDetails (diagnostics r')
       = ([] ++ [mkErrorDetail "status" "socket closed" "UNKNOWN"])%list
    /\ probeResults (diagnostics r')
       = ([] ++ [mkProbeResult "status" TIMEOUT (Some "socket closed")])%list.
Proof.
  apply (@recovered_probe_keeps_its_failure_record cfg_default conn_flaky status_probe
           (_createResultObject "1555" "1555@s.whatsapp.net")
           "socket closed" "Error: socket closed" (Truthy "hello"));
    try reflexivity.
  cbn. lia.
Defined.
End ProbeTheorems.

Section VerdictFacts.
Import JS WhatsAppValidator PipelineSpec CounterSpec RetrySpec VerdictSpec.
Local Open Scope string_scope.
Local Open Scope nat_scope.

Ltac unfold_m :=
  unfold try_catch, bind, await, _executeWithTimeout, _recordError,
    _processProbeResult, modify, ret, throw, read in *.

Lemma executeProbe_answered (cfg : Config) (c : Connection) (probe : Probe)
      (r : ValidationResult) :
  answers c -> snd (_executeProbe cfg c probe r) = Normal Finished.
Proof.
  intros Ha. destruct (Ha (name probe)) as [p0 Hp0].
  unfold _executeProbe, start. unfold bind at 1. unfold modify at 1.
  unfold bind at 1. unfold ret at 1. cbn [steps_left drive].
  unfold bind at 1. unfold resume. rewrite Hp0. unfold_m.
  destruct (name probe), p0 as [|st]; cbn; try (destruct (truthy st); cbn);
    destruct (maxRetries cfg); reflexivity.
Qed.

Lemma for_each_probe_answered (cfg : Config) (c : Connection) (probes : list Probe) :
  answers c -> forall r, snd (for_each_probe cfg c probes r) = Normal tt.
Proof.
  intros Ha. induction probes as [|probe probes IH]; intros r; cbn [for_each_probe].
  - reflexivity.
  - unfold bind. pose proof (executeProbe_answered cfg probe r Ha) as H.
    destruct (_executeProbe cfg c probe r) as [r1 out]. cbn [snd] in H. subst out.
    apply IH.
Qed.

Lemma executeProbes_answered_normal (cfg : Config) (c : Connection) (sched : list nat)
      (r : ValidationResult) :
  answers c -> snd (_executeProbes cfg c sched r) = Normal tt.
Proof.
  intros Ha. unfold _executeProbes. destruct (parallelProbes cfg); [reflexivity|].
  now apply for_each_probe_answered.
Qed.

(** The probe stage on a connection that answers every first attempt. *)
Lemma executeProbes_answered (cfg : Config) (c : Connection) (sched : list nat)
      (r : ValidationResult) :
  answers c ->
  let r' := fst (_executeProbes cfg c sched r) in
  snd (_executeProbes cfg c sched r) = Normal tt
  /\ same_verdict r r'
  /\ errorDetails (diagnostics r') = errorDetails (diagnostics r)
  /\ List.length (fallbacksUsed (diagnostics r'))
     <= List.length (fallbacksUsed (diagnostics r))
  /\ probsExecuted (diagnostics r') = probsExecuted (diagnostics r) + probe_count cfg
  /\ probsSuccessful (diagnostics r') = probsSuccessful (diagnostics r) + probe_count cfg.
Proof.
  intros Ha. cbv zeta.
  pose proof (executeProbes_answered_normal cfg sched r Ha) as Hn.
  pose proof (executeProbes_ok cfg c sched r) as (G & _ & _ & _ & Hs & Hok).
  rewrite Hn in Hok.
  pose proof (@executeProbes_within_normal cfg c errors answered_error_budget
                eq_refl (fun _ => eq_refl) (fun p t r0 => resume_answered_errors cfg p t r0 Ha)
                sched r Hn) as He.
  pose proof (@executeProbes_within_normal cfg c fallbacks (answered_retry_budget cfg)
                eq_refl (fun _ => eq_refl)
                (fun p t r0 => resume_answered_fallbacks cfg p t r0 Ha)
                sched r Hn) as Hf.
  pose proof (@executeProbes_within_normal cfg c (fun r => (- successes r)%Z)
                answered_success_budget
                eq_refl (fun _ => eq_refl)
                (fun p t r0 => resume_answered_successes cfg p t r0 Ha)
                sched r Hn) as Hsu.
  assert (Hlen : List.length (_buildProbeList cfg) = probe_count cfg).
  { unfold _buildProbeList, probe_count. destruct (enablePresenceCheck cfg); reflexivity. }
  rewrite Hlen in *.
  unfold errors, fallbacks, successes in *.
  cbn [answered_error_budget answered_retry_budget answered_success_budget] in *.
  destruct G as [Hv (l & El & _)].
  split; [exact Hn|]. split; [exact Hv|]. split.
  - rewrite El in He. rewrite length_app in He.
    destruct l; [now rewrite app_nil_r in El | cbn in He; lia].
  - split; [lia|]. split; [exact Hok | lia].
Qed.

Lemma analyze_no_errors (d : MLPatternDetector.t) (ps : MLPatternDetector.ProbeSummary) :
  MLPatternDetector.patterns d = ERROR_PATTERNS ->
  MLPatternDetector.p_type (snd (MLPatternDetector.analyze d [] ps)) = NONE.
Proof.
  intros Hd. unfold MLPatternDetector.analyze. cbn [snd].
  unfold MLPatternDetector._calculateScores. rewrite Hd.
  unfold MLPatternDetector._extractFeatures.
  destruct (MLPatternDetector.successRate ps) as [q|].
  - unfold ERROR_PATTERNS. cbn [map].
    unfold MLPatternDetector.score_pattern.
    cbn [MLPatternDetector.errorText MLPatternDetector.errorCodes
         MLPatternDetector.f_successRate MLPatternDetector.failurePatterns
         MLPatternDetector._identifyFailurePatterns].
    cbn -[Qltb MLPatternDetector._makePrediction Qmin Qdiv Qplus].
    destruct (Qltb q 0.3); vm_compute; reflexivity.
  - vm_compute. reflexivity.
Qed.

Lemma analyzePatterns_spec (r : ValidationResult) :
  probsSuccessful (diagnostics r) <> 0 ->
  _analyzePatterns r
  = (match first_keyword_match (errorDetails (diagnostics r)) with
     | Some (banType, _) =>
         upd_ban (push_method ("pattern_match_" ++ BanType_str banType))
           (upd_ban (set_ban_type banType) (upd_ban set_banned r))
     | None => r
     end, Normal tt).
Proof.
  intros Hs. unfold _analyzePatterns, first_keyword_match. unfold_m.
  destruct (find _ ERROR_PATTERNS) as [[banType pattern]|];
    cbn [diagnostics upd_ban probsSuccessful isRegistered];
    destruct (probsSuccessful (diagnostics r)) as [|k]; try congruence; reflexivity.
Qed.

(** The pipeline on a number that [onWhatsApp] reports as existing: the
    registration is counted and the remaining stages run. *)
Lemma pipeline_stages (v : Validator) (env : Env) (check : option (list bool))
      (r0 : ValidationResult) :
  onWhatsApp (conn env) = Returns check ->
  exists_flag check = true ->
  _executePipeline v env r0
  = bind (_executeProbes (config v) (conn env) (schedule env))
         (fun _ => bind (stage3 v)
                     (fun ml => bind _analyzeReviewOptions
                                  (fun _ => bind _finalizeResult (fun _ => ret ml))))
         (bump (registered_uncounted r0)).
Proof.
  intros Hc Hf. unfold _executePipeline. unfold bind at 1.
  rewrite checkRegistration_eq, Hc, Hf. unfold bind at 1. unfold read at 1.
  reflexivity.
Qed.

Lemma stage3_no_errors (v : Validator) (r : ValidationResult) :
  standard_detector v ->
  errorDetails (diagnostics r) = [] ->
  probsSuccessful (diagnostics r) <> 0 ->
  exists ml, stage3 v r = (r, Normal ml).
Proof.
  intros Hstd He Hs. unfold standard_detector in Hstd.
  destruct (mlDetector v) as [d|] eqn:Ed.
  - destruct (stage3_detector v r Ed) as (H1 & _ & _ & H4). cbv zeta in H1, H4.
    rewrite He in H1, H4.
    specialize (H4 (analyze_no_errors d _ Hstd)).
    eexists. rewrite (surjective_pairing (stage3 v r)), H4, H1. reflexivity.
  - exists None. unfold stage3. rewrite Ed. unfold bind at 1.
    rewrite (analyzePatterns_spec r Hs), He. reflexivity.
Qed.

Lemma healthy_pipeline (v : Validator) (env : Env) (check : option (list bool))
      (phoneNumber j : string) :
  standard_detector v ->
  onWhatsApp (conn env) = Returns check ->
  exists_flag check = true ->
  answers (conn env) ->
  exists ml r,
    _executePipeline v env (_createResultObject phoneNumber j) = (r, Normal ml)
    /\ isRegistered r = true /\ isActive r = true
    /\ isBanned (ban r) = false /\ b_type (ban r) = NONE
    /\ mlConfidence (ban r) = None
    /\ available (review r) = false
    /\ summary r = "Active and verified"
    /\ recommendations r
       = ["Account is functioning normally"; "Maintain natural usage patterns"]
    /\ errorDetails (diagnostics r) = []
    /\ fallbacksUsed (diagnostics r) = []
    /\ probsExecuted (diagnostics r) = S (probe_count (config v))
    /\ probsSuccessful (diagnostics r) = S (probe_count (config v)).
Proof.
  intros Hstd Hc Hf Ha.
  rewrite (pipeline_stages v env _ Hc Hf).
  set (r1 := bump (registered_uncounted (_createResultObject phoneNumber j))).
  destruct (executeProbes_answered (config v) (schedule env) r1 Ha)
    as (Hn & Hv & He & Hfb & Hpe & Hps).
  unfold bind at 1.
  destruct (_executeProbes (config v) (conn env) (schedule env) r1) as [r2 out].
  cbn [fst snd] in *. subst out.
  destruct Hv as (V1 & V2 & V3 & V4 & V5 & V6 & V7 & V8 & V9 & V10).
  change (errorDetails (diagnostics r1)) with (@nil ErrorDetail) in He.
  change (List.length (fallbacksUsed (diagnostics r1))) with 0 in Hfb.
  change (probsExecuted (diagnostics r1)) with 1 in Hpe.
  change (probsSuccessful (diagnostics r1)) with 1 in Hps.
  change (isRegistered r1) with true in V3.
  change (isActive r1) with true in V4.
  change (isBanned (ban r1)) with false in V5.
  change (b_type (ban r1)) with NONE in V6.
  change (mlConfidence (ban r1)) with (@None Q) in V7.
  change (review r1) with (mkReview false REVIEW_NONE None) in V8.
  change (recommendations r1) with (@nil string) in V9.
  destruct (stage3_no_errors v r2 Hstd He ltac:(lia)) as [ml Hst].
  unfold bind at 1. rewrite Hst.
  exists ml. eexists. split.
  - unfold bind at 1. unfold _analyzeReviewOptions. unfold bind at 1, read at 1.
    rewrite V5. cbn [negb]. unfold _finalizeResult, bind, modify, ret.
    cbn [isRegistered push_recommendations]. rewrite V3.
    cbn [ban push_recommendations]. rewrite V6. reflexivity.
  - cbn [isRegistered isActive ban review summary recommendations diagnostics
         set_summary push_recommendations].
    rewrite V3, V4, V5, V6, V7, V8, V9, He.
    destruct (fallbacksUsed (diagnostics r2)); [|cbn in Hfb; lia].
    repeat split; lia.
Qed.

Lemma validate_of_pipeline (v : Validator) (phoneNumber : string)
      (options : ValidateOptions) (env : Env) (r : ValidationResult)
      (ml : option MLPatternDetector.t) :
  cache_hit v phoneNumber options env = None ->
  _executePipeline v env (_createResultObject phoneNumber (_normalizeJID phoneNumber))
    = (r, Normal ml) ->
  exists v',
    validate v phoneNumber options env = (v', Normal r)
    /\ health v' = _updateHealth true (health v)
    /\ mlDetector v' = ml.
Proof.
  intros Hmiss Hp.
  destruct (validate_miss v phoneNumber options env Hmiss) as (v0 & -> & Ec & Em & Eh).
  unfold validate_fresh. rewrite (pipeline_ext v v0 env Ec Em), Hp.
  eexists. split; [reflexivity|]. cbn [health mlDetector]. now rewrite Eh.
Qed.

(** X17: with the detector switched off, a registered number is banned
    exactly when a keyword of [ERROR_PATTERNS] occurs in the recorded
    error messages, with the type of the first table entry that has one;
    the "zero successful probes" rule never applies, because the
    registration check already counts as a successful probe. *)
Theorem keyword_rule_without_detector (v : Validator) (env : Env) (phoneNumber j : string)
      (r : ValidationResult) (ml' : option MLPatternDetector.t) :
  mlDetector v = None ->
  _executePipeline v env (_createResultObject phoneNumber j) = (r, Normal ml') ->
  isRegistered r = true ->
  1 <= probsSuccessful (diagnostics r)
  /\ match first_keyword_match (errorDetails (diagnostics r)) with
     | Some (banType, _) => isBanned (ban r) = true /\ b_type (ban r) = banType
     | None => isBanned (ban r) = false /\ b_type (ban r) = NONE
     end.
Proof.
  intros Hd Hp Hreg.
  set (r0 := _createResultObject phoneNumber j) in *.
  destruct (pipeline_registered _ _ _ Hp Hreg)
    as (r1 & r2 & r3 & E1 & R1 & E2 & E3 & D & B).
  assert (H1 : r1 = bump (registered_uncounted r0)).
  { rewrite checkRegistration_eq in E1.
    destruct (onWhatsApp (conn env)) as [check|[|message text]|];
      [destruct (exists_flag check)| | |]; inversion E1; subst;
      try reflexivity; cbn in R1; discriminate R1. }
  pose proof (executeProbes_ok (config v) (conn env) (schedule env) r1)
    as (G & _ & _ & Hs & _).
  rewrite E2 in G, Hs. cbn [fst] in G, Hs.
  destruct G as [(_ & _ & _ & _ & V5 & V6 & _) _].
  subst r1.
  change (probsSuccessful (diagnostics (bump (registered_uncounted r0)))) with 1 in Hs.
  change (isBanned (ban (bump (registered_uncounted r0)))) with false in V5.
  change (b_type (ban (bump (registered_uncounted r0)))) with NONE in V6.
  unfold stage3 in E3. rewrite Hd in E3. unfold bind in E3.
  rewrite (analyzePatterns_spec r2 ltac:(lia)) in E3. unfold ret in E3.
  inversion E3 as [[Hr3 Hml]]. clear E3.
  rewrite D, B, <- Hr3.
  destruct (first_keyword_match (errorDetails (diagnostics r2))) as [[banType pat]|] eqn:Ek;
    cbn [diagnostics upd_ban ban isBanned b_type set_banned set_ban_type push_method
         probsSuccessful errorDetails]; rewrite Ek.
  - split; [lia | split; reflexivity].
  - split; [lia | split; assumption].
Qed.

Lemma cache_get_ttl (V : Type) (c : ValidationCache.t V) (key : string) (now : Z) :
  ValidationCache.ttl (fst (ValidationCache.get c key now)) = ValidationCache.ttl c.
Proof.
  unfold ValidationCache.get. destruct (JsMap.get _ key) as [entry|]; [|reflexivity].
  destruct (_ <? _)%Z; reflexivity.
Qed.

Lemma validate_fresh_stores (v0 : Validator) (c0 : ValidationCache.t ValidationResult)
      (phoneNumber : string) (env : Env) (v' : Validator) (r : ValidationResult) :
  cache v0 = Some c0 ->
  validate_fresh v0 phoneNumber env = (v', Normal r) ->
  summary r <> "Critical validation error" ->
  cache v' = Some (ValidationCache.set c0 (cacheKey phoneNumber) r (now_store env))
  /\ health v' = _updateHealth true (health v0).
Proof.
  intros Hc0 Hf Hs. unfold validate_fresh in Hf.
  pose proof (pipeline_fresh v0 env phoneNumber) as (_ & _ & Ht). cbv zeta in Ht.
  destruct (_executePipeline v0 env _) as [r1 [ml|e]]; cbn [fst snd] in *.
  - inversion Hf; subst. rewrite Hc0. cbn [cache health]. auto.
  - rewrite (Ht e eq_refl) in Hf. cbn in Hf. inversion Hf; subst.
    exfalso. apply Hs. reflexivity.
Qed.

(** X18: a result that was computed and stored is served again from the
    cache: a second [validate] of the same input within the TTL (bound
    included) returns the same result without running the pipeline,
    whatever the connection would answer, and leaves the health record
    and the detector as they are. *)
Theorem second_validate_is_served_from_cache (v : Validator) (c : ValidationCache.t ValidationResult)
      (phoneNumber : string) (options : ValidateOptions) (env : Env)
      (v' : Validator) (r : ValidationResult) :
  cache v = Some c ->
  cache_hit v phoneNumber options env = None ->
  validate v phoneNumber options env = (v', Normal r) ->
  summary r <> "Critical validation error" ->
  forall (options2 : ValidateOptions) (env2 : Env),
    skipCache options2 = false ->
    (now_lookup env2 - now_store env <= ValidationCache.ttl c)%Z ->
    exists v'',
      validate v' phoneNumber options2 env2 = (v'', Normal r)
      /\ health v'' = health v'
      /\ mlDetector v'' = mlDetector v'
      /\ config v'' = config v'.
Proof.
  intros Hc Hmiss Hv Hs options2 env2 Hskip Httl.
  assert (Hst : exists c0, ValidationCache.ttl c0 = ValidationCache.ttl c
                           /\ cache v' = Some (ValidationCache.set c0 (cacheKey phoneNumber)
                                                 r (now_store env))).
  { unfold cache_hit in Hmiss. unfold validate in Hv. rewrite Hc in Hv, Hmiss.
    destruct (negb (skipCache options)).
    - pose proof (cache_get_ttl c (cacheKey phoneNumber) (now_lookup env)) as Ht.
      destruct (ValidationCache.get c (cacheKey phoneNumber) (now_lookup env))
        as [c' [cached|]]; [discriminate|]. cbn [fst] in Ht.
      exists c'. split; [exact Ht|].
      eapply validate_fresh_stores; [|exact Hv|exact Hs]. reflexivity.
    - exists c. split; [reflexivity|].
      eapply validate_fresh_stores; [exact Hc|exact Hv|exact Hs]. }
  destruct Hst as (c0 & Ht0 & Hc').
  unfold validate. rewrite Hc', Hskip. cbn [negb].
  pose proof (@set_get ValidationResult c0 (cacheKey phoneNumber) r
                (now_store env) (now_lookup env2)) as Hsg.
  cbv zeta in Hsg.
  destruct (ValidationCache.get _ (cacheKey phoneNumber) (now_lookup env2))
    as [c2 answer].
  destruct Hsg as (_ & Hsg). rewrite Ht0 in Hsg.
  assert (E : (ValidationCache.ttl c <? now_lookup env2 - now_store env)%Z = false)
    by (apply Z.ltb_ge; lia).
  rewrite E in Hsg. destruct Hsg as (-> & _).
  eexists. split; [reflexivity|]. cbn. auto.
Qed.
End VerdictFacts.

Section VerdictTheorems.
Import JS WhatsAppValidator PipelineSpec CounterSpec RetrySpec VerdictSpec Scenarios.
Local Open Scope string_scope.
Local Open Scope nat_scope.

(** X16: a number that [onWhatsApp] reports as existing and whose probes are
    all answered at the first attempt is cleared, whatever the
    configuration and the order in which the probes settle: not banned,
    summary "Active and verified", the two standard recommendations, no
    error, no retry, and every probe counted as successful. *)
Theorem healthy_account_is_cleared (v : Validator) (phoneNumber : string)
        (options : ValidateOptions) (env : Env) (check : option (list bool)) :
  cache_hit v phoneNumber options env = None ->
  standard_detector v ->
  onWhatsApp (conn env) = Returns check ->
  exists_flag check = true ->
  answers (conn env) ->
  exists v' r,
    validate v phoneNumber options env = (v', Normal r)
    /\ isRegistered r = true /\ isActive r = true
    /\ isBanned (ban r) = false /\ b_type (ban r) = NONE
    /\ mlConfidence (ban r) = None
    /\ available (review r) = false
    /\ summary r = "Active and verified"
    /\ recommendations r
       = ["Account is functioning normally"; "Maintain natural usage patterns"]
    /\ errorDetails (diagnostics r) = []
    /\ fallbacksUsed (diagnostics r) = []
    /\ probsExecuted (diagnostics r) = S (probe_count (config v))
    /\ probsSuccessful (diagnostics r) = S (probe_count (config v))
    /\ h_status (health v') = healthy.
Proof.
  intros Hmiss Hstd Hc Hf Ha.
  destruct (@healthy_pipeline v env check phoneNumber (_normalizeJID phoneNumber) Hstd Hc Hf Ha)
    as (ml & r & Hp & H).
  destruct (@validate_of_pipeline v phoneNumber options env r ml Hmiss Hp) as (v' & Hv & Hh & _).
  exists v', r. split; [exact Hv|].
  rewrite Hh. cbn [_updateHealth h_status]. tauto.
Qed.

Lemma healthy_account_is_cleared_witness :
  exists v' r,
    validate (new cfg_default) "201234567890" lookup_first (env_of conn_present)
      = (v', Normal r)
    /\ isRegistered r = true /\ isActive r = true
    /\ isBanned (ban r) = false /\ b_type (ban r) = NONE
    /\ mlConfidence (ban r) = None
    /\ available (review r) = false
    /\ summary r = "Active and verified"
    /\ recommendations r
       = ["Account is functioning normally"; "Maintain natural usage patterns"]
    /\ errorDetails (diagnostics r) = []
    /\ fallbacksUsed (diagnostics r) = []
    /\ probsExecuted (diagnostics r) = S (probe_count (config (new cfg_default)))
    /\ probsSuccessful (diagnostics r) = S (probe_count (config (new cfg_default)))
    /\ h_status (health v') = healthy.
Proof.
  refine (@healthy_account_is_cleared (new cfg_default) "201234567890" lookup_first
            (env_of conn_present) (Some [true]) _ eq_refl eq_refl eq_refl _).
  - vm_compute. reflexivity.
  - intros n. exists (Truthy "hello"). reflexivity.
Defined.


Lemma keyword_rule_without_detector_witness :
  let r := fst (_executePipeline (new cfg_no_detector) (env_of conn_rate_limited)
                  (_createResultObject "1555" "1555@s.whatsapp.net")) in
  1 <= probsSuccessful (diagnostics r)
  /\ match first_keyword_match (errorDetails (diagnostics r)) with
     | Some (banType, _) => isBanned (ban r) = true /\ b_type (ban r) = banType
     | None => isBanned (ban r) = false /\ b_type (ban r) = NONE
     end.
Proof.
  cbv zeta.
  refine (@keyword_rule_without_detector (new cfg_no_detector)
            (env_of conn_rate_limited) "1555" "1555@s.whatsapp.net"
            (fst (_executePipeline (new cfg_no_detector) (env_of conn_rate_limited)
                    (_createResultObject "1555" "1555@s.whatsapp.net")))
            None eq_refl _ _).
  - vm_compute. reflexivity.
  - vm_compute. reflexivity.
Defined.


Lemma second_validate_is_served_from_cache_witness :
  exists v' r v'',
    validate (new cfg_default) "201234567890" lookup_first (env_of conn_present)
      = (v', Normal r)
    /\ isBanned (ban r) = false
    /\ validate v' "201234567890" lookup_first env_later_absent = (v'', Normal r)
    /\ health v'' = health v'
    /\ mlDetector v'' = mlDetector v'
    /\ config v'' = config v'.
Proof.
  pose (out := validate (new cfg_default) "201234567890" lookup_first
                 (env_of conn_present)).
  pose (r := match snd out with
             | Normal r => r
             | Throw _ => _createResultObject "" ""
             end).
  assert (Hv : validate (new cfg_default) "201234567890" lookup_first
                 (env_of conn_present) = (fst out, Normal r))
    by (vm_compute; reflexivity).
  assert (Hs : summary r <> "Critical validation error")
    by (vm_compute; discriminate).
  destruct (@second_validate_is_served_from_cache (new cfg_default)
              (ValidationCache.new ValidationResult
                 (ValidationCache.mkOptions (Some 3600000%Z) (Some 1000%Z)))
              "201234567890" lookup_first (env_of conn_present) (fst out) r
              eq_refl eq_refl Hv Hs lookup_first env_later_absent eq_refl
              ltac:(vm_compute; discriminate))
    as (v'' & H1 & H2 & H3 & H4).
  exists (fst out), r, v''. split; [exact Hv|]. split; [reflexivity|].
  split; [exact H1|]. auto.
Defined.
End VerdictTheorems.

(** ** The last entries of a list *)

Section Slices.
Import DetectorOps.
Local Open Scope nat_scope.
Variable A : Type.

Lemma tl_skipn (l : list A) : tl l = skipn 1 l.
Proof. destruct l; reflexivity. Qed.

Lemma slice_last_small (n : nat) (l : list A) :
  List.length l <= n -> slice_last n l = l.
Proof.
  intros H. unfold slice_last. replace (List.length l - n) with 0 by lia. reflexivity.
Qed.

Lemma slice_last_len (n : nat) (l : list A) :
  List.length (slice_last n l) = Nat.min (List.length l) n.
Proof. unfold slice_last. rewrite length_skipn. lia. Qed.

(** Dropping the oldest entry of a list that has grown beyond [n] by one
    element keeps its last [n] elements. *)
Lemma shift_slice_last (n : nat) (l : list A) (x : A) :
  List.length l <= n ->
  (if n <? List.length (l ++ [x]) then tl (l ++ [x]) else (l ++ [x])%list)
  = slice_last n (l ++ [x]).
Proof.
  intros H. unfold slice_last. rewrite length_app. cbn [List.length].
  destruct (n <? List.length l + 1) eqn:E.
  - apply Nat.ltb_lt in E. replace (List.length l + 1 - n) with 1 by lia.
    apply tl_skipn.
  - apply Nat.ltb_ge in E. replace (List.length l + 1 - n) with 0 by lia. reflexivity.
Qed.

Lemma slice_last_app (n : nat) (l m : list A) :
  slice_last n (slice_last n l ++ m) = slice_last n (l ++ m).
Proof.
  destruct (Nat.le_gt_cases (List.length l) n) as [H|H].
  - now rewrite (@slice_last_small n l H).
  - unfold slice_last at 1 3. rewrite !length_app, slice_last_len.
    replace (Nat.min (List.length l) n) with n by lia.
    unfold slice_last. rewrite !skipn_app, skipn_skipn, length_skipn.
    f_equal; f_equal; lia.
Qed.
End Slices.

Section DetectorFacts.
Import MLPatternDetector DetectorOps.
Local Open Scope nat_scope.

Lemma analyze_history (d : t) (ev : list ErrorDetail) (ps : ProbeSummary) :
  let d' := fst (analyze d ev ps) in
  patterns d' = patterns d
  /\ maxHistory d' = maxHistory d
  /\ (List.length (history d) <= maxHistory d ->
      List.length (history d') = Nat.min (S (List.length (history d))) (maxHistory d)).
Proof.
  unfold analyze, _updateHistory. cbn [fst patterns maxHistory history].
  split; [reflexivity|]. split; [reflexivity|]. intros H.
  destruct (maxHistory d <? _) eqn:E.
  - apply Nat.ltb_lt in E. rewrite length_app in E. cbn [List.length] in E.
    destruct (history d) as [|x l]; cbn [List.length tl app] in *; [lia|].
    rewrite length_app. cbn [List.length]. lia.
  - apply Nat.ltb_ge in E. rewrite length_app in *. cbn [List.length] in *. lia.
Qed.

Lemma analyze_ignores_history (d d' : t) (ev : list ErrorDetail) (ps : ProbeSummary) :
  patterns d = patterns d' -> snd (analyze d ev ps) = snd (analyze d' ev ps).
Proof.
  intros H. unfold analyze, _calculateScores. cbn [snd]. now rewrite H.
Qed.

Lemma analyze_all_history (inputs : list (list ErrorDetail * ProbeSummary)) :
  forall d,
    List.length (history d) <= maxHistory d ->
    patterns (analyze_all d inputs) = patterns d
    /\ maxHistory (analyze_all d inputs) = maxHistory d
    /\ List.length (history (analyze_all d inputs))
       = Nat.min (List.length (history d) + List.length inputs) (maxHistory d).
Proof.
  induction inputs as [|[ev ps] inputs IH]; intros d Hd; cbn [analyze_all fold_left].
  - cbn. repeat split. lia.
  - destruct (analyze_history d ev ps) as (Hp & Hm & Hl). cbv zeta in *.
    specialize (Hl Hd).
    destruct (IH (fst (analyze d ev ps))) as (Ip & Im & Il); [lia|].
    unfold analyze_all in *. rewrite Ip, Im, Il, Hp, Hm, Hl. cbn [List.length].
    repeat split. lia.
Qed.

Lemma analyze_history_slice (d : t) (ev : list ErrorDetail) (ps : ProbeSummary) :
  let d' := fst (analyze d ev ps) in
  patterns d' = patterns d
  /\ maxHistory d' = maxHistory d
  /\ (List.length (history d) <= maxHistory d ->
      history d'
      = slice_last (maxHistory d)
          (history d ++ [(_extractFeatures ev ps, snd (analyze d ev ps))])).
Proof.
  unfold analyze, _updateHistory. cbn [fst snd patterns maxHistory history].
  split; [reflexivity|]. split; [reflexivity|]. intros H.
  now apply shift_slice_last.
Qed.

Lemma analyze_all_history_slice (inputs : list (list ErrorDetail * ProbeSummary)) :
  forall d,
    List.length (history d) <= maxHistory d ->
    patterns (analyze_all d inputs) = patterns d
    /\ maxHistory (analyze_all d inputs) = maxHistory d
    /\ history (analyze_all d inputs)
       = slice_last (maxHistory d)
           (history d ++ map (fun '(ev, ps) => (_extractFeatures ev ps, snd (analyze d ev ps)))
                             inputs).
Proof.
  induction inputs as [|[ev ps] inputs IH]; intros d Hd; cbn [analyze_all fold_left map].
  - rewrite app_nil_r, slice_last_small by assumption. auto.
  - destruct (analyze_history_slice d ev ps) as (Hp & Hm & Hh). cbv zeta in *.
    specialize (Hh Hd).
    destruct (IH (fst (analyze d ev ps))) as (Ip & Im & Ih).
    { rewrite Hh, Hm, slice_last_len. lia. }
    unfold analyze_all in *. rewrite Ip, Im, Ih, Hp, Hm, Hh.
    split; [reflexivity|]. split; [reflexivity|].
    rewrite slice_last_app, <- app_assoc. cbn [app]. do 3 f_equal.
Qed.

(** X19: [analyze] appends its entry (the features and the prediction) to
    the history and, beyond [maxHistory], drops the oldest one: the new
    history is the last [maxHistory] elements of the old one followed by
    the entry.  The history is never read: the prediction depends on the
    pattern table and the evidence only.  On a new detector the history
    is the last 1000 of the analyses made, in order, and [getAccuracy] is
    [null] until the tenth and then reports a sample of at most 100. *)
Theorem detector_history_is_bounded_and_unused :
  (forall d ev ps,
     let d' := fst (analyze d ev ps) in
     patterns d' = patterns d
     /\ maxHistory d' = maxHistory d
     /\ (List.length (history d) <= maxHistory d ->
         history d'
         = slice_last (maxHistory d)
             (history d ++ [(_extractFeatures ev ps, snd (analyze d ev ps))])
         /\ List.length (history d')
            = Nat.min (S (List.length (history d))) (maxHistory d)))
  /\ (forall d d' ev ps,
        patterns d = patterns d' -> snd (analyze d ev ps) = snd (analyze d' ev ps))
  /\ (forall inputs,
        let d := analyze_all new inputs in
        history d
        = slice_last 1000
            (map (fun '(ev, ps) => (_extractFeatures ev ps, snd (analyze new ev ps)))
                 inputs)
        /\ List.length (history d) = Nat.min (List.length inputs) 1000
        /\ getAccuracy d
           = if List.length inputs <? 10 then None
             else Some (mkAccuracy (Nat.min (List.length inputs) 100) 0.87)).
Proof.
  split; [|split; [exact analyze_ignores_history|]].
  - intros d ev ps. cbv zeta.
    destruct (analyze_history_slice d ev ps) as (H1 & H2 & H3).
    destruct (analyze_history d ev ps) as (_ & _ & H4).
    split; [exact H1|]. split; [exact H2|]. intros H. split; [exact (H3 H) | exact (H4 H)].
  - intros inputs. cbv zeta.
    destruct (@analyze_all_history_slice inputs new) as (_ & _ & Hh); [cbn; lia|].
    destruct (@analyze_all_history inputs new) as (_ & _ & Hl); [cbn; lia|].
    cbn [history new List.length Nat.add maxHistory app] in Hh, Hl.
    split; [exact Hh|]. split; [exact Hl|].
    unfold getAccuracy. rewrite slice_last_len, Hl.
    destruct (List.length inputs <? 10) eqn:E.
    + apply Nat.ltb_lt in E.
      assert (E' : (Nat.min (List.length inputs) 1000 <? 10) = true)
        by (apply Nat.ltb_lt; lia).
      now rewrite E'.
    + apply Nat.ltb_ge in E.
      assert (E' : (Nat.min (List.length inputs) 1000 <? 10) = false)
        by (apply Nat.ltb_ge; lia).
      rewrite E'. do 2 f_equal. lia.
Qed.
End DetectorFacts.

Section AnalyticsFacts.
Import WhatsAppValidator AnalyticsEngine.
Local Open Scope nat_scope.








End AnalyticsFacts.

Section RegistrationFacts.
Import JS WhatsAppValidator PipelineSpec RegistrationSpec Scenarios.
Local Open Scope string_scope.
Local Open Scope nat_scope.

Lemma pipeline_registration_failed (v : Validator) (env : Env) (e : ErrorDetail)
      (r0 : ValidationResult) :
  registration_error (conn env) = Some e ->
  isRegistered r0 = false ->
  _executePipeline v env r0 =
  (set_summary "Not registered or permanently banned"
     (upd_ban (set_ban_type PERMANENT)
        (upd_ban set_banned (upd_diag (push_error e) r0))),
   Normal (mlDetector v)).
Proof.
  intros He Hr. unfold registration_error in He.
  unfold _executePipeline. unfold bind at 1. rewrite checkRegistration_eq.
  destruct (onWhatsApp (conn env)) as [check|[|message text]|]; try discriminate;
    inversion He; subst; unfold bind at 1; unfold read at 1;
    cbn [isRegistered upd_diag]; rewrite Hr; cbn [negb];
    unfold _finalizeResult, bind, modify, ret;
    cbn [isRegistered upd_diag upd_ban set_summary]; rewrite Hr; reflexivity.
Qed.

(** X21: when the registration check itself fails (the call rejects or
    times out), the number is reported like an unregistered one: banned,
    type permanent, summary "Not registered or permanently banned", with
    the failure as the only recorded error; no probe runs, and the health
    record counts the validation as a success. *)
Theorem failed_registration_check_reads_as_permanent_ban (v : Validator)
        (phoneNumber : string) (options : ValidateOptions) (env : Env)
        (e : ErrorDetail) :
  cache_hit v phoneNumber options env = None ->
  registration_error (conn env) = Some e ->
  exists v' r,
    validate v phoneNumber options env = (v', Normal r)
    /\ isRegistered r = false
    /\ isBanned (ban r) = true
    /\ b_type (ban r) = PERMANENT
    /\ available (review r) = false
    /\ recommendations r = []
    /\ summary r = "Not registered or permanently banned"
    /\ errorDetails (diagnostics r) = [e]
    /\ probsExecuted (diagnostics r) = 0
    /\ health v' = _updateHealth true (health v)
    /\ mlDetector v' = mlDetector v.
Proof.
  intros Hmiss He.
  destruct (validate_miss v phoneNumber options env Hmiss) as (v0 & -> & Ec & Em & Eh).
  unfold validate_fresh.
  rewrite (@pipeline_registration_failed v0 env e
             (_createResultObject phoneNumber (_normalizeJID phoneNumber)) He eq_refl).
  eexists. eexists. split; [reflexivity|]. cbn. rewrite Eh, Em. repeat split.
Qed.

Lemma failed_registration_check_reads_as_permanent_ban_witness :
  exists v' r,
    validate (new cfg_default) "201234567890" lookup_first (env_of conn_unreachable)
      = (v', Normal r)
    /\ isRegistered r = false
    /\ isBanned (ban r) = true
    /\ b_type (ban r) = PERMANENT
    /\ available (review r) = false
    /\ recommendations r = []
    /\ summary r = "Not registered or permanently banned"
    /\ errorDetails (diagnostics r)
       = [mkErrorDetail "registration" "Operation timeout" "TIMEOUT"]
    /\ probsExecuted (diagnostics r) = 0
    /\ health v' = _updateHealth true (health (new cfg_default))
    /\ mlDetector v' = mlDetector (new cfg_default).
Proof.
  refine (@failed_registration_check_reads_as_permanent_ban (new cfg_default)
            "201234567890" lookup_first (env_of conn_unreachable)
            (mkErrorDetail "registration" "Operation timeout" "TIMEOUT") _ eq_refl).
  vm_compute. reflexivity.
Defined.
End RegistrationFacts.
